(** * DELINEATE AND DECIPHER: hybrid structural-semantic retrieval engine

    A shallow embedding of [pdf_processor.py], [vector_store.py] and
    [retrieval.py], and the properties of the segmenter, the structural
    matcher, the vector search, the re-ranker and the retriever.

    Conventions of the embedding.
    - Text is [string]; a character [ascii] stands for the code point of the
      same number (0..255), so the model covers text over the Latin-1 range.
    - Floats are rationals [Q]: ordering and equality are those of finite
      floats, rounding and NaN are outside the model.
    - A chunk is a Python dict object living in a store; lists of chunks are
      lists of references, so in-place writes and [.copy()] are visible.
    - The Streamlit module [st], the embedding model, the FAISS index, the
      cross-encoder and the text splitter are collaborators whose calls are
      recorded in a trace and may raise. *)

From Stdlib Require Import String Ascii List ZArith QArith Bool Arith Lia.
From Stdlib Require Import Permutation Sorted DecimalString.
Import ListNotations.

Local Close Scope Q_scope.
Local Open Scope string_scope.
Local Open Scope list_scope.
Local Open Scope nat_scope.

(** ** Python text primitives *)

Module PyStr.

Definition code (c : ascii) : nat := nat_of_ascii c.

(** [str.isspace] and the regex class [\s] on code points below 256:
    TAB..CR, FS..US, SPACE, NEL and NBSP. *)
Definition is_space (c : ascii) : bool :=
  let n := code c in
  ((9 <=? n) && (n <=? 13)) || ((28 <=? n) && (n <=? 32))
  || (n =? 133) || (n =? 160).

(** The regex class [\d] on code points below 256. *)
Definition is_digit (c : ascii) : bool :=
  let n := code c in (48 <=? n) && (n <=? 57).

(** [[A-Z]] and [[a-z]]. *)
Definition is_AZ (c : ascii) : bool :=
  let n := code c in (65 <=? n) && (n <=? 90).

Definition is_az (c : ascii) : bool :=
  let n := code c in (97 <=? n) && (n <=? 122).

(** [str.lower] on one code point below 256: A..Z and the Latin-1 capitals
    (C0..DE without the multiplication sign D7) move up by 32. *)
Definition lower_char (c : ascii) : ascii :=
  let n := code c in
  if is_AZ c || ((192 <=? n) && (n <=? 222) && negb (n =? 215))
  then ascii_of_nat (n + 32) else c.

Fixpoint lower (s : string) : string :=
  match s with
  | EmptyString => EmptyString
  | String c r => String (lower_char c) (lower r)
  end.

Fixpoint lstrip (s : string) : string :=
  match s with
  | EmptyString => EmptyString
  | String c r => if is_space c then lstrip r else s
  end.

Fixpoint rstrip (s : string) : string :=
  match s with
  | EmptyString => EmptyString
  | String c r =>
      match rstrip r with
      | EmptyString => if is_space c then EmptyString else String c EmptyString
      | r' => String c r'
      end
  end.

(** [s.strip()] *)
Definition strip (s : string) : string := rstrip (lstrip s).

(** Truth value of a string: [if s:] *)
Definition truthy (s : string) : bool :=
  match s with EmptyString => false | _ => true end.

(** [s.split('\n')]: never empty, [''.split('\n') == ['']]. *)
Fixpoint split_nl (s : string) : list string :=
  match s with
  | EmptyString => [EmptyString]
  | String c r =>
      if (code c =? 10)%nat then EmptyString :: split_nl r
      else match split_nl r with
           | h :: t => String c h :: t
           | [] => [String c EmptyString]
           end
  end.

(** [needle in hay] *)
Fixpoint contains (needle hay : string) : bool :=
  prefix needle hay
  || match hay with
     | EmptyString => false
     | String _ t => contains needle t
     end.

(** [sep.join(parts)] *)
Fixpoint join (sep : string) (parts : list string) : string :=
  match parts with
  | [] => EmptyString
  | [p] => p
  | p :: rest => p ++ sep ++ join sep rest
  end.

(** [str(n)] for an integer. *)
Definition str_of_Z (z : Z) : string := NilZero.string_of_int (Z.to_int z).

Definition nl : string := String (ascii_of_nat 10) EmptyString.

(** The text with every white-space character deleted: two texts are
    equal up to white space when their squeezed forms coincide. *)
Fixpoint squeeze (s : string) : string :=
  match s with
  | EmptyString => EmptyString
  | String c r => if is_space c then squeeze r else String c (squeeze r)
  end.

End PyStr.

(** ** A backtracking matcher for the regular expressions of the source

    Alternatives are tried left to right and repetition is greedy, as in
    Python's [re]; the continuation receives the unread suffix. *)

Module Regex.

Inductive re : Type :=
| Eps : re
| Chr : (ascii -> bool) -> re
| Seq : re -> re -> re
| Alt : re -> re -> re
| Star : re -> re.

Definition Plus (r : re) : re := Seq r (Star r).
Definition Opt (r : re) : re := Alt r Eps.

Fixpoint Lit (s : string) : re :=
  match s with
  | EmptyString => Eps
  | String c r => Seq (Chr (Ascii.eqb c)) (Lit r)
  end.

Fixpoint run {R : Type} (r : re) (s : string) (k : string -> option R)
  : option R :=
  match r with
  | Eps => k s
  | Chr p =>
      match s with
      | String c s' => if p c then k s' else None
      | EmptyString => None
      end
  | Seq a b => run a s (fun s1 => run b s1 k)
  | Alt a b =>
      match run a s k with
      | Some x => Some x
      | None => run b s k
      end
  | Star a =>
      (fix star (n : nat) (s0 : string) {struct n} : option R :=
         match n with
         | O => k s0
         | S n' =>
             match run a s0 (fun s1 =>
                               if (String.length s1 <? String.length s0)%nat
                               then star n' s1 else None) with
             | Some x => Some x
             | None => k s0
             end
         end) (String.length s) s
  end.

(** [re.match(s)] for a pattern of the form [^r$]: the whole of [s] is
    read ([$] also accepts one final newline). *)
Definition at_end (s : string) : option unit :=
  match s with
  | EmptyString => Some tt
  | String c EmptyString => if (PyStr.code c =? 10)%nat then Some tt else None
  | _ => None
  end.

Definition fullmatch (r : re) (s : string) : bool :=
  match run r s at_end with Some _ => true | None => false end.

(** [re.sub(^r, "", s)]: the matched prefix is removed, at most once since
    the pattern is anchored at the start. *)
Definition strip_prefix (r : re) (s : string) : string :=
  match run r s (fun rest => Some rest) with
  | Some rest => rest
  | None => s
  end.

End Regex.

(** ** config.py *)

Module Config.
Import Regex.

Definition digit : re := Chr PyStr.is_digit.
Definition space : re := Chr PyStr.is_space.
Definition dot : re := Chr (Ascii.eqb "."%char).

(** The numbering prefix [(CHAPTER \d+|(\d{1,2}(\.\d{1,2})* ))]. *)
Definition NUMBERING : re :=
  Alt (Seq (Lit "CHAPTER ") (Plus digit))
      (Seq (Seq digit (Opt digit))
           (Star (Seq dot (Seq digit (Opt digit))))).

(** [[A-Za-z\s,:-]] *)
Definition title_char (c : ascii) : bool :=
  PyStr.is_AZ c || PyStr.is_az c || PyStr.is_space c
  || Ascii.eqb c ","%char || Ascii.eqb c ":"%char || Ascii.eqb c "-"%char.

(** [^(CHAPTER \d+|(\d{1,2}(\.\d{1,2})* ))\s+([A-Z][A-Za-z\s,:-]+)$] *)
Definition HEADING_REGEX_PATTERN : re :=
  Seq NUMBERING
      (Seq (Plus space)
           (Seq (Chr PyStr.is_AZ) (Plus (Chr title_char)))).

Definition DEFAULT_HEADING : string := "Introduction".

Definition SEMANTIC_SEARCH_TOP_K : Z := 20.
Definition STRUCTURAL_SEARCH_TOP_K : nat := 10.
Definition SEMANTIC_FALLBACK_TOP_K : nat := 5.

End Config.

(** ** Data model *)

(** A block of the segmenter: [{"page_number", "heading", "content"}]. *)
Record Block : Type := mkBlock {
  block_page_number : Z;
  block_heading : string;
  content : string
}.

(** A chunk dict: [{"text", "page_number", "heading"}], with the two score
    keys that a query may add. *)
Record Chunk : Type := mkChunk {
  text : string;
  page_number : Z;
  heading : string;
  similarity_score : option Q;
  rerank_score : option Q
}.

(** ** The effects of the program: store, collaborators, exceptions *)

Module Py.

(** An exception is represented by its message, [str(e)]. *)
Definition exn : Type := string.

Inductive outcome (A : Type) : Type :=
| Return : A -> outcome A
| Raise : exn -> outcome A.
Arguments Return {A} _.
Arguments Raise {A} _.

(** What the program shows through Streamlit. *)
Inductive UiMsg : Type :=
| DirectHit (heading : string)
| NoSectionMatch
| SemanticSearchError (e : exn)
| VectorStoreSearchError (e : exn)
| RerankingError (e : exn)
| PdfEmpty
| ProgressStart
| ProgressStep (done total : nat)
| ProgressEmpty
| NoReadableText
| NoStructuredContent.

Definition Embedding : Type := list Q.

(** Calls that leave the program. *)
Inductive Event : Type :=
| EvSt (m : UiMsg)
| EvEncode (texts : list string)
| EvIndexSearch (v : Embedding) (top_k : Z)
| EvPredict (pairs : list (string * string))
| EvSplitText (s : string).

(** Collaborators.  [index.search] gives the first row of its two arrays:
    the distances and the indices. *)
Definition Streamlit : Type := UiMsg -> option exn.
Definition SentenceTransformer : Type := list string -> exn + Embedding.
Definition IndexFlatL2 : Type := Embedding -> Z -> exn + (list Q * list Z).
Definition CrossEncoder : Type := list (string * string) -> exn + list Q.
Definition TextSplitter : Type := string -> exn + list string.

(** References to chunk dicts and the store they live in. *)
Definition loc : Type := nat.

Record State : Type := mkState {
  heap : loc -> Chunk;
  next : loc;
  trace : list Event
}.

Definition M (A : Type) : Type := Streamlit -> State -> outcome A * State.

Definition ret {A} (a : A) : M A := fun _ s => (Return a, s).

Definition bind {A B} (m : M A) (f : A -> M B) : M B :=
  fun st s =>
    match m st s with
    | (Return a, s') => f a st s'
    | (Raise e, s') => (Raise e, s')
    end.

Definition raise {A} (e : exn) : M A := fun _ s => (Raise e, s).

(** [try: m except Exception as e: h e] *)
Definition try_except {A} (m : M A) (h : exn -> M A) : M A :=
  fun st s =>
    match m st s with
    | (Return a, s') => (Return a, s')
    | (Raise e, s') => h e st s'
    end.

Definition log (ev : Event) (s : State) : State :=
  mkState (heap s) (next s) (trace s ++ [ev]).

Definition call {A} (ev : Event) (r : exn + A) : M A :=
  fun _ s =>
    match r with
    | inr a => (Return a, log ev s)
    | inl e => (Raise e, log ev s)
    end.

(** A call into Streamlit. *)
Definition st_show (m : UiMsg) : M unit :=
  fun st s =>
    match st m with
    | None => (Return tt, log (EvSt m) s)
    | Some e => (Raise e, log (EvSt m) s)
    end.

Definition encode (model : SentenceTransformer) (texts : list string)
  : M Embedding := call (EvEncode texts) (model texts).

Definition index_search (index : IndexFlatL2) (v : Embedding) (top_k : Z)
  : M (list Q * list Z) := call (EvIndexSearch v top_k) (index v top_k).

Definition predict (reranker : CrossEncoder) (pairs : list (string * string))
  : M (list Q) := call (EvPredict pairs) (reranker pairs).

Definition split_text (splitter : TextSplitter) (s : string)
  : M (list string) := call (EvSplitText s) (splitter s).

(** The store. *)
Definition get_heap : M (loc -> Chunk) := fun _ s => (Return (heap s), s).

Definition upd (h : loc -> Chunk) (l : loc) (c : Chunk) : loc -> Chunk :=
  fun l' => if Nat.eqb l' l then c else h l'.

(** The dict with one key set. *)
Definition with_similarity_score (c : Chunk) (d : Q) : Chunk :=
  mkChunk (text c) (page_number c) (heading c) (Some d) (rerank_score c).

Definition with_rerank_score (c : Chunk) (d : Q) : Chunk :=
  mkChunk (text c) (page_number c) (heading c) (similarity_score c) (Some d).

(** [chunk['similarity_score'] = d] and [chunk['rerank_score'] = d] *)
Definition set_similarity_score (l : loc) (d : Q) : M unit :=
  fun _ s =>
    (Return tt,
     mkState (upd (heap s) l (with_similarity_score (heap s l) d))
       (next s) (trace s)).

Definition set_rerank_score (l : loc) (d : Q) : M unit :=
  fun _ s =>
    (Return tt,
     mkState (upd (heap s) l (with_rerank_score (heap s l) d))
       (next s) (trace s)).

(** [chunk.copy()]: a new dict with the same items. *)
Definition copy (l : loc) : M loc :=
  fun _ s =>
    (Return (next s),
     mkState (upd (heap s) (next s) (heap s l)) (S (next s)) (trace s)).

Declare Scope py_scope.
Delimit Scope py_scope with py.
Notation "x <- m ;; k" := (bind m (fun x => k))
  (at level 100, m at next level, right associativity) : py_scope.
Notation "' p <- m ;; k" := (bind m (fun x => let p := x in k))
  (at level 100, p pattern, m at next level, right associativity) : py_scope.
Notation "m ;; k" := (bind m (fun _ => k))
  (at level 100, right associativity) : py_scope.

Local Open Scope py_scope.

(** [for x in l: acc = body acc x] *)
Fixpoint foldM {A B} (body : A -> B -> M A) (acc : A) (l : list B) : M A :=
  match l with
  | [] => ret acc
  | x :: r => acc' <- body acc x ;; foldM body acc' r
  end.

(** [for x in l: body x] *)
Fixpoint forM_ {B} (body : B -> M unit) (l : list B) : M unit :=
  match l with
  | [] => ret tt
  | x :: r => body x ;; forM_ body r
  end.

(** [enumerate(l)] *)
Definition enumerate {A} (l : list A) : list (nat * A) :=
  combine (seq 0 (List.length l)) l.

(** [l[i]] for [i >= 0], as a read that raises [IndexError]. *)
Definition item {A} (l : list A) (i : nat) : M A :=
  match nth_error l i with
  | Some a => ret a
  | None => raise "index out of range"
  end.

(** [l[i]] for a Python integer: a negative [i] counts from the end. *)
Definition py_index {A} (l : list A) (i : Z) : option A :=
  if (0 <=? i)%Z then nth_error l (Z.to_nat i)
  else if (0 <=? Z.of_nat (List.length l) + i)%Z
       then nth_error l (Z.to_nat (Z.of_nat (List.length l) + i))
       else None.

Definition getitem {A} (l : list A) (i : Z) : M A :=
  match py_index l i with
  | Some a => ret a
  | None => raise "list index out of range"
  end.

Definition run {A} (m : M A) (st : Streamlit) (s : State)
  : outcome A * State := m st s.

End Py.

(** ** Python's [sorted]: a stable sort

    [before y x] says that [y] goes strictly before [x].  Elements are
    inserted from the right, each one in front of the first element that
    does not go strictly before it, so equal keys keep their input order
    (also under [reverse=True], where [before] is "greater key"). *)

Section Sorted.
Context {A : Type} (before : A -> A -> bool).

Fixpoint insert_sorted (x : A) (l : list A) : list A :=
  match l with
  | [] => [x]
  | y :: r => if before y x then y :: insert_sorted x r else x :: l
  end.

Definition sorted (l : list A) : list A := fold_right insert_sorted [] l.

(** In the output nothing goes strictly before an element on its left. *)
Definition in_order (a b : A) : Prop := before b a = false.
End Sorted.

(** ** retrieval.py *)

Module Retrieval.
Import Py.
Local Open Scope py_scope.

(** The key [(len(x), x)] of the heading sort, as a strict order. *)
Definition heading_key_ltb (a b : string) : bool :=
  (String.length a <? String.length b)
  || ((String.length a =? String.length b) && String.ltb a b).

(** [sorted(list(set(h for ...)), key=lambda x: (len(x), x))]: the distinct
    headings, sorted.  The keys of distinct headings differ, so the order
    in which the set is listed does not matter. *)
Definition unique_sorted (hs : list string) : list string :=
  sorted heading_key_ltb (nodup string_dec hs).

(** [re.sub(r"^(CHAPTER \d+|(\d{1,2}(\.\d{1,2})* ))\s+", "", heading).lower()] *)
Definition clean (h : string) : string :=
  PyStr.lower
    (Regex.strip_prefix (Regex.Seq Config.NUMBERING (Regex.Plus Config.space)) h).

(** [clean_heading in query.lower()] *)
Definition direct_hit (query h : string) : bool :=
  PyStr.contains (clean h) (PyStr.lower query).

Definition structural_search (query : string) (chunks : list loc)
  : M (list loc) :=
  h <- get_heap ;;
  let unique_headings := unique_sorted (map (fun chunk => heading (h chunk)) chunks) in
  foldM (fun structural_results hd =>
           if direct_hit query hd then
             st_show (DirectHit hd) ;;
             let matching_chunks :=
               filter (fun chunk => String.eqb (heading (h chunk)) hd) chunks in
             ret (structural_results ++ matching_chunks)
           else ret structural_results)
        [] unique_headings.

(** The loop body shared by [semantic_search] and [search_vector_store]. *)
Definition collect (distances : list Q) (chunks : list loc)
    (retrieved_chunks : list loc) (p : nat * Z) : M (list loc) :=
  let '(i, idx) := p in
  if (idx <? Z.of_nat (List.length chunks))%Z then
    c <- getitem chunks idx ;;
    chunk <- copy c ;;
    d <- item distances i ;;
    set_similarity_score chunk d ;;
    ret (retrieved_chunks ++ [chunk])
  else ret retrieved_chunks.

Definition semantic_search (query : string) (index : IndexFlatL2)
    (chunks : list loc) (embeddings_model : SentenceTransformer) (top_k : Z)
  : M (list loc) :=
  try_except
    (query_embedding <- encode embeddings_model [query] ;;
     r <- index_search index query_embedding top_k ;;
     let '(distances, indices) := r in
     foldM (collect distances chunks) [] (enumerate indices))
    (fun e => st_show (SemanticSearchError e) ;; ret []).

(** The key [x['rerank_score']]; a missing key raises [KeyError]. *)
Definition rerank_key (chunk : loc) : M (Q * loc) :=
  h <- get_heap ;;
  match rerank_score (h chunk) with
  | Some q => ret (q, chunk)
  | None => raise "'rerank_score'"
  end.

Fixpoint mapM {A B} (f : A -> M B) (l : list A) : M (list B) :=
  match l with
  | [] => ret []
  | x :: r => y <- f x ;; ys <- mapM f r ;; ret (y :: ys)
  end.

(** [reverse=True]: the greater score goes first. *)
Definition score_gtb (y x : Q * loc) : bool :=
  negb (Qle_bool (fst y) (fst x)).

Definition rerank_results (query : string) (chunks : list loc)
    (reranker : CrossEncoder) : M (list loc) :=
  match chunks with
  | [] => ret []
  | _ =>
    try_except
      (h <- get_heap ;;
       let rerank_pairs := map (fun chunk => (query, text (h chunk))) chunks in
       scores <- predict reranker rerank_pairs ;;
       forM_ (fun p : nat * loc =>
                let '(i, chunk) := p in
                sc <- item scores i ;; set_rerank_score chunk sc)
             (enumerate chunks) ;;
       keyed <- mapM rerank_key chunks ;;
       let reranked_chunks := map snd (sorted score_gtb keyed) in
       ret reranked_chunks)
      (fun e => st_show (RerankingError e) ;; ret chunks)
  end.

Definition advanced_retrieval (query : string) (index : IndexFlatL2)
    (chunks : list loc) (embeddings_model : SentenceTransformer)
    (reranker : CrossEncoder) : M (list loc) :=
  structural_results <- structural_search query chunks ;;
  match structural_results with
  | _ :: _ =>
      reranked_chunks <- rerank_results query structural_results reranker ;;
      ret (firstn Config.STRUCTURAL_SEARCH_TOP_K reranked_chunks)
  | [] =>
      st_show NoSectionMatch ;;
      semantic_results <-
        semantic_search query index chunks embeddings_model
          Config.SEMANTIC_SEARCH_TOP_K ;;
      match semantic_results with
      | _ :: _ =>
          reranked_chunks <- rerank_results query semantic_results reranker ;;
          ret (firstn Config.SEMANTIC_FALLBACK_TOP_K reranked_chunks)
      | [] => ret []
      end
  end.

(** [format_context_for_llm] *)
Definition context_part (c : Chunk) : string :=
  "--- Context from Page " ++ PyStr.str_of_Z (page_number c)
  ++ ", Section: " ++ heading c ++ " ---" ++ PyStr.nl ++ text c.

Definition format_context_for_llm (h : loc -> Chunk)
    (retrieved_chunks : list loc) : string :=
  match retrieved_chunks with
  | [] => "No relevant context found."
  | _ =>
      PyStr.join (PyStr.nl ++ PyStr.nl)
        (map (fun chunk => context_part (h chunk)) retrieved_chunks)
  end.

Record SearchStats : Type := mkStats {
  total_chunks : nat;
  unique_pages : nat;
  unique_sections : nat;
  avg_rerank_score : Q;
  score_range : Q * Q
}.

Definition Qsum (l : list Q) : Q := fold_left Qplus l 0%Q.

(** [min(l)] and [max(l)] of a non-empty list: the first one wins a tie. *)
Definition Qmin_list (l : list Q) : Q :=
  match l with
  | [] => 0%Q
  | x :: r => fold_left (fun m y => if Qle_bool m y then m else y) r x
  end.

Definition Qmax_list (l : list Q) : Q :=
  match l with
  | [] => 0%Q
  | x :: r => fold_left (fun m y => if Qle_bool y m then m else y) r x
  end.

Definition get_search_statistics (h : loc -> Chunk)
    (retrieved_chunks : list loc) : SearchStats :=
  match retrieved_chunks with
  | [] => mkStats 0 0 0 0%Q (0%Q, 0%Q)
  | _ =>
      let pages := map (fun chunk => page_number (h chunk)) retrieved_chunks in
      let sections := map (fun chunk => heading (h chunk)) retrieved_chunks in
      let rerank_scores :=
        map (fun chunk =>
               match rerank_score (h chunk) with Some q => q | None => 0%Q end)
            retrieved_chunks in
      mkStats (List.length retrieved_chunks)
        (List.length (nodup Z.eq_dec pages))
        (List.length (nodup string_dec sections))
        (Qsum rerank_scores / inject_Z (Z.of_nat (List.length rerank_scores)))%Q
        (Qmin_list rerank_scores, Qmax_list rerank_scores)
  end.

(** The dict returned by [AdvancedRetriever.retrieve]. *)
Record RetrievalResult : Type := mkResult {
  success : bool;
  error : option string;
  chunks_of : list loc;
  context : string;
  statistics : SearchStats;
  query_of : string
}.

(** [AdvancedRetriever]: the two models given to [__init__]. *)
Record AdvancedRetriever : Type := mkRetriever {
  embeddings_model : SentenceTransformer;
  reranker : CrossEncoder
}.

Definition retrieve (self : AdvancedRetriever) (query : string)
    (index : IndexFlatL2) (chunks : list loc) : M RetrievalResult :=
  try_except
    (retrieved_chunks <-
       advanced_retrieval query index chunks
         (embeddings_model self) (reranker self) ;;
     h <- get_heap ;;
     let context := format_context_for_llm h retrieved_chunks in
     let stats := get_search_statistics h retrieved_chunks in
     ret (mkResult true None retrieved_chunks context stats query))
    (fun e =>
       h <- get_heap ;;
       ret (mkResult false (Some e) [] "Error occurred during retrieval."
              (get_search_statistics h []) query)).

End Retrieval.

(** ** vector_store.py *)

Module VectorStore.
Import Py.
Local Open Scope py_scope.

Definition search_vector_store (query : string) (index : IndexFlatL2)
    (chunks : list loc) (embeddings_model : SentenceTransformer) (top_k : Z)
  : M (list loc) :=
  try_except
    (query_embedding <- encode embeddings_model [query] ;;
     r <- index_search index query_embedding top_k ;;
     let '(distances, indices) := r in
     foldM (Retrieval.collect distances chunks) [] (enumerate indices))
    (fun e => st_show (VectorStoreSearchError e) ;; ret []).

End VectorStore.

(** ** pdf_processor.py

    The document is what [fitz] gives for it: the text of its pages, in
    order. *)

Module PdfProcessor.
Import Py.
Local Open Scope py_scope.

Definition heading_regex_match (line_stripped : string) : bool :=
  Regex.fullmatch Config.HEADING_REGEX_PATTERN line_stripped.

(** The state of the line loop: the blocks so far, the current heading
    and the buffer of the page. *)
Definition Scan : Type := list Block * string * string.

(** The buffer, when it has content, becomes a block of the page. *)
Definition flush (page_num : nat) (structured_text : list Block)
    (current_heading page_content_buffer : string) : list Block :=
  if PyStr.truthy (PyStr.strip page_content_buffer) then
    structured_text
    ++ [mkBlock (Z.of_nat page_num + 1) current_heading
          (PyStr.strip page_content_buffer)]
  else structured_text.

(** One turn of [for line in lines]. *)
Definition scan_line (page_num : nat) (acc : Scan) (line : string) : Scan :=
  let '(structured_text, current_heading, page_content_buffer) := acc in
  let line_stripped := PyStr.strip line in
  if negb (PyStr.truthy line_stripped) then acc
  else if heading_regex_match line_stripped then
    (flush page_num structured_text current_heading page_content_buffer,
     line_stripped, EmptyString)
  else
    (structured_text, current_heading,
     (page_content_buffer ++ line ++ PyStr.nl)%string).

(** The body of [for page_num, page in enumerate(doc)], without the
    progress bar. *)
Definition scan_page (page_num : nat) (page_text : string)
    (structured_text : list Block) (current_heading : string)
  : list Block * string :=
  let lines := PyStr.split_nl page_text in
  let '(structured_text1, current_heading1, page_content_buffer) :=
    fold_left (scan_line page_num) lines
      (structured_text, current_heading, EmptyString) in
  (flush page_num structured_text1 current_heading1 page_content_buffer,
   current_heading1).

Definition extract_structured_text (pdf_file : list string)
  : M (list Block * nat) :=
  let doc := pdf_file in
  let total_pages := List.length doc in
  match total_pages with
  | O => st_show PdfEmpty ;; ret ([], 0)
  | _ =>
    st_show ProgressStart ;;
    r <- foldM (fun (acc : list Block * string * string) (p : nat * string) =>
                  let '(structured_text, current_heading, total_text_extracted) := acc in
                  let '(page_num, page_text) := p in
                  let '(structured_text', current_heading') :=
                    scan_page page_num page_text structured_text current_heading in
                  st_show (ProgressStep (page_num + 1) total_pages) ;;
                  ret (structured_text', current_heading',
                       (total_text_extracted ++ page_text)%string))
               ([], Config.DEFAULT_HEADING, EmptyString) (enumerate doc) ;;
    let '(structured_text, _, total_text_extracted) := r in
    st_show ProgressEmpty ;;
    if negb (PyStr.truthy (PyStr.strip total_text_extracted)) then
      st_show NoReadableText ;; ret ([], total_pages)
    else
      match structured_text with
      | [] =>
          st_show NoStructuredContent ;;
          ret ([mkBlock 1 "Document Content"
                  (PyStr.strip total_text_extracted)], total_pages)
      | _ => ret (structured_text, total_pages)
      end
  end.

(** A new chunk dict. *)
Definition new_chunk (t : string) (b : Block) : Chunk :=
  mkChunk (PyStr.strip t) (block_page_number b) (block_heading b) None None.

Definition create_metadata_chunks (structured_text : list Block)
    (splitter : TextSplitter) : M (list Chunk) :=
  foldM (fun chunks_with_metadata block =>
           if negb (PyStr.truthy (PyStr.strip (content block))) then
             ret chunks_with_metadata
           else
             text_chunks <- split_text splitter (content block) ;;
             ret (chunks_with_metadata
                  ++ map (fun chunk => new_chunk chunk block)
                       (filter (fun chunk => PyStr.truthy (PyStr.strip chunk))
                          text_chunks)))
        [] structured_text.

(** [len(chunk['text'].strip()) > 10] *)
Definition meaningful (chunk : Chunk) : bool :=
  10 <? String.length (PyStr.strip (text chunk)).

Definition validate_pdf_content (structured_text : list Block)
    (chunks : list Chunk) : bool * string :=
  match structured_text with
  | [] => (false, "No structured text could be extracted from the PDF")
  | _ =>
    match chunks with
    | [] => (false, "No valid text chunks could be created from the PDF content")
    | _ =>
      let meaningful_chunks := filter meaningful chunks in
      match meaningful_chunks with
      | [] => (false, "PDF content appears to be too short or fragmented")
      | _ =>
          (true,
           ("Successfully processed PDF with "
            ++ PyStr.str_of_Z (Z.of_nat (List.length chunks)) ++ " chunks")%string)
      end
    end
  end.

(** The dict returned beside the status by [process_pdf]. *)
Inductive Processed : Type :=
| Failed (error : string)
| Results (structured_text : list Block) (chunks : list Chunk)
    (total_pages total_chunks : nat) (message : string).

Definition process_pdf (text_splitter : TextSplitter) (pdf_file : list string)
  : M (bool * Processed) :=
  try_except
    (r <- extract_structured_text pdf_file ;;
     let '(structured_text, total_pages) := r in
     match structured_text, total_pages with
     | [], _ | _, O => ret (false, Failed "Failed to extract content from PDF")
     | _, _ =>
       chunks <- create_metadata_chunks structured_text text_splitter ;;
       let '(is_valid, message) := validate_pdf_content structured_text chunks in
       if negb is_valid then ret (false, Failed message)
       else
         ret (true,
              Results structured_text chunks total_pages
                (List.length chunks) message)
     end)
    (fun e => ret (false, Failed ("PDF processing failed: " ++ e)%string)).

End PdfProcessor.

(** ** retrieval.py and pdf_processor.py: the remaining methods *)

Module Structure.
Import Py.
Local Open Scope py_scope.

(** The sentence returned by [explain_retrieval_strategy]: the one that
    announces the structural search, with the number of chunks found, or
    the one that announces the semantic search. *)
Inductive Explanation : Type :=
| StructuralSearchFound (n : nat)
| SemanticSearchUsed.

Definition explain_retrieval_strategy (self : Retrieval.AdvancedRetriever)
    (query : string) (chunks : list loc) : M Explanation :=
  structural_results <- Retrieval.structural_search query chunks ;;
  match structural_results with
  | _ :: _ => ret (StructuralSearchFound (List.length structural_results))
  | [] => ret SemanticSearchUsed
  end.

(** The dict returned by [get_document_structure]; the key
    ["chunks_by_heading"] is absent for an empty chunk list. *)
Record DocumentStructure : Type := mkStructure {
  headings : list string;
  pages : Z;
  structure_total_chunks : nat;
  chunks_by_heading : option (list (string * nat))
}.

(** [max(chunk['page_number'] for chunk in chunks)] of a non-empty list. *)
Definition max_page (chunks : list Chunk) : Z :=
  match chunks with
  | [] => 0%Z
  | c :: r => fold_left (fun m chunk => Z.max m (page_number chunk)) r (page_number c)
  end.

Definition get_document_structure (chunks : list Chunk) : DocumentStructure :=
  match chunks with
  | [] => mkStructure [] 0 0 None
  | _ =>
      let unique_headings := Retrieval.unique_sorted (map heading chunks) in
      mkStructure unique_headings (max_page chunks) (List.length chunks)
        (Some (map (fun hd =>
                      (hd, List.length
                             (filter (fun c => String.eqb (heading c) hd) chunks)))
                   unique_headings))
  end.

End Structure.

(** ** Vocabulary of the statements *)

Module Vocabulary.
Import Py Retrieval.

(** Streamlit shows every message it is given. *)
Definition ui_ok (st : Streamlit) : Prop := forall m, st m = None.

(** The order of the key [(len(x), x)]. *)
Definition key_lt (a b : string) : Prop :=
  String.length a < String.length b
  \/ (String.length a = String.length b /\ String.compare a b = Lt).

(** The heading of the chunk that a reference points to. *)
Definition heading_of (h : loc -> Chunk) (chunk : loc) : string :=
  heading (h chunk).

(** The chunks of one heading, in chunk order. *)
Definition chunks_under (h : loc -> Chunk) (chunks : list loc) (hd : string)
  : list loc :=
  filter (fun chunk => String.eqb (heading_of h chunk) hd) chunks.

(** What [structural_search] computes: the chunks of each hit heading, the
    headings taken in sorted order. *)
Definition structural_hits (query : string) (h : loc -> Chunk)
    (chunks : list loc) : list loc :=
  flat_map (chunks_under h chunks)
    (filter (direct_hit query) (unique_sorted (map (heading_of h) chunks))).

(** The distinct elements of a list in the order of their first
    appearance. *)
Fixpoint first_seen (seen l : list string) : list string :=
  match l with
  | [] => []
  | x :: r =>
      if existsb (String.eqb x) seen then first_seen seen r
      else x :: first_seen (x :: seen) r
  end.

(** The matcher in the words of the specification: hit headings in the
    order of their first appearance in the document, and under each
    heading its chunks in chunk order. *)
Definition structural_match_spec (query : string) (h : loc -> Chunk)
    (chunks : list loc) : list loc :=
  flat_map (chunks_under h chunks)
    (filter (direct_hit query) (first_seen [] (map (heading_of h) chunks))).

(** The rerank score a chunk carries (0 when it carries none). *)
Definition score_of (h : loc -> Chunk) (chunk : loc) : Q :=
  match rerank_score (h chunk) with Some q => q | None => 0%Q end.

(** The store after [for i, chunk in enumerate(chunks):
    chunk['rerank_score'] = float(scores[i])]. *)
Definition write_scores (scores : list Q) (l : list (nat * loc))
    (h : loc -> Chunk) : loc -> Chunk :=
  fold_left (fun h' (p : nat * loc) =>
               upd h' (snd p) (with_rerank_score (h' (snd p)) (nth (fst p) scores 0%Q)))
            l h.

(** The pairs given to the cross-encoder. *)
Definition pairs_of (query : string) (h : loc -> Chunk) (chunks : list loc)
  : list (string * string) :=
  map (fun chunk => (query, text (h chunk))) chunks.

(** Calls to the vector side: embedding the query, searching the index. *)
Definition uses_vector_index (ev : Event) : bool :=
  match ev with
  | EvEncode _ | EvIndexSearch _ _ => true
  | _ => false
  end.

(** Every run of [m] adds to the trace only events that satisfy [P]. *)
Definition emits {A} (P : Event -> Prop) (m : M A) : Prop :=
  forall st s, exists evs,
    trace (snd (m st s)) = trace s ++ evs /\ Forall P evs.

(** [o] with its value, if any, passed through [f]. *)
Definition map_outcome {A B} (f : A -> B) (o : outcome A) : outcome B :=
  match o with
  | Return a => Return (f a)
  | Raise e => Raise e
  end.

(** Concatenation of a list of texts. *)
Definition cat (l : list string) : string := fold_right append EmptyString l.

(** A line that the segmenter takes for a heading: not blank, and its
    stripped form matches the heading pattern. *)
Definition is_heading_line (line : string) : bool :=
  PyStr.truthy (PyStr.strip line)
  && PdfProcessor.heading_regex_match (PyStr.strip line).

(** The text of the document without its heading lines. *)
Definition body_text (doc : list string) : string :=
  cat (map (fun page =>
              cat (filter (fun line => negb (is_heading_line line))
                     (PyStr.split_nl page)))
         doc).

(** The page loop of the segmenter without its progress bar. *)
Definition scan_pages (doc : list (nat * string))
    (acc : list Block * string * string) : list Block * string * string :=
  fold_left (fun (acc : list Block * string * string) (p : nat * string) =>
               let '(structured_text, current_heading, total_text_extracted) := acc in
               let '(structured_text', current_heading') :=
                 PdfProcessor.scan_page (fst p) (snd p) structured_text
                   current_heading in
               (structured_text', current_heading',
                (total_text_extracted ++ snd p)%string))
            doc acc.

(** What [extract_structured_text] returns. *)
Definition segment (doc : list string) : list Block * nat :=
  match doc with
  | [] => ([], 0)
  | _ =>
      let '(structured_text, _, total_text_extracted) :=
        scan_pages (enumerate doc) ([], Config.DEFAULT_HEADING, EmptyString) in
      if negb (PyStr.truthy (PyStr.strip total_text_extracted)) then
        ([], List.length doc)
      else
        match structured_text with
        | [] => ([mkBlock 1 "Document Content"
                    (PyStr.strip total_text_extracted)], List.length doc)
        | _ => (structured_text, List.length doc)
        end
  end.

(** The buffer of a page that has no heading line: its lines that are not
    blank, each closed by a newline. *)
Definition buffer_of (lines : list string) : string :=
  cat (map (fun line => (line ++ PyStr.nl)%string)
         (filter (fun line => PyStr.truthy (PyStr.strip line)) lines)).

(** One block for each page that has text, under the default heading. *)
Fixpoint page_blocks (page_num : nat) (doc : list string) : list Block :=
  match doc with
  | [] => []
  | page :: rest =>
      PdfProcessor.flush page_num [] Config.DEFAULT_HEADING
        (buffer_of (PyStr.split_nl page))
      ++ page_blocks (S page_num) rest
  end.

(** An event that is not a call to the vector side. *)
Definition off_index (ev : Event) : Prop := uses_vector_index ev = false.

(** [m] returns, whatever the state. *)
Definition returns {A} (st : Streamlit) (m : M A) : Prop :=
  forall s, exists a s', m st s = (Return a, s').

(** The contents of the blocks, one after the other. *)
Definition contents (bs : list Block) : string := cat (map content bs).

(** A block whose content is more than white space. *)
Definition nonblank (b : Block) : Prop :=
  PyStr.squeeze (content b) <> EmptyString.

(** A line that is not a heading line. *)
Definition kept (line : string) : bool := negb (is_heading_line line).

End Vocabulary.

(** ** A small document and its collaborators *)

Module Sample.
Import Py.

(** Three chunks: two of the section "1 Methods", which comes first in the
    document, and one of the section "2 Intro". *)
Definition methods_a : Chunk := mkChunk "alpha text" 1 "1 Methods" None None.
Definition intro_b : Chunk := mkChunk "beta text" 2 "2 Intro" None None.
Definition methods_c : Chunk := mkChunk "gamma text" 3 "1 Methods" None None.

Definition sample_heap : loc -> Chunk :=
  fun l => nth l [methods_a; intro_b; methods_c] methods_a.

Definition sample_state : State := mkState sample_heap 3 [].
Definition sample_chunks : list loc := [0; 1; 2].

(** Streamlit shows everything. *)
Definition show_all : Streamlit := fun _ => None.

(** Streamlit fails, with an exception whose message is empty. *)
Definition show_fails : Streamlit := fun _ => Some EmptyString.

(** A cross-encoder that scores a passage by its length. *)
Definition by_length : CrossEncoder :=
  fun pairs => inr (map (fun p => inject_Z (Z.of_nat (String.length (snd p)))) pairs).

(** A cross-encoder that raises. *)
Definition scorer_down : CrossEncoder := fun _ => inl "scorer down".

Definition unit_embedding : SentenceTransformer := fun _ => inr [1%Q].

(** An embedding model that raises. *)
Definition encoder_down : SentenceTransformer := fun _ => inl "encoder down".

(** A flat index over the three chunks asked for more neighbours than it
    has: FAISS fills the row with the label -1 and the largest float. *)
Definition float_max : Q := 340282346638528859811704183484516925440%Q.

Definition short_index : IndexFlatL2 :=
  fun _ _ => inr ([0%Q; 1%Q; 2%Q; float_max], [2; 0; 1; -1]%Z).

(** A page with a heading line and one line of text under it. *)
Definition headed_page : string := ("1 Intro" ++ PyStr.nl ++ "body")%string.

(** Two pages of plain text, without a heading. *)
Definition plain_pages : list string := ["hello"; "world"].

(** A splitter that gives the text back as one chunk. *)
Definition whole_text : TextSplitter := fun s => inr [s].

End Sample.

(** ** Vocabulary of the further statements *)

Module Notions.
Import Py Retrieval Vocabulary.

(** Every run of [m] leaves a state related by [R] to the one it started
    in. *)
Definition keeps (R : State -> State -> Prop) {A} (m : M A) : Prop :=
  forall st s, R s (snd (m st s)).

(** Only the trace may differ. *)
Definition same_store (s s' : State) : Prop :=
  heap s' = heap s /\ next s' = next s.

(** The two dicts agree on every key but ["rerank_score"]. *)
Definition same_but_rerank_score (c c' : Chunk) : Prop :=
  text c' = text c /\ page_number c' = page_number c
  /\ heading c' = heading c /\ similarity_score c' = similarity_score c.

(** Nothing is allocated, the dicts outside [chunks] are as they were and
    those of [chunks] differ at most in their rerank score. *)
Definition rerank_touch (chunks : list loc) (s s' : State) : Prop :=
  next s' = next s
  /\ (forall l, same_but_rerank_score (heap s l) (heap s' l))
  /\ (forall l, ~ In l chunks -> heap s' l = heap s l).

(** Dicts may have been allocated; those that existed are as they were. *)
Definition grows (s s' : State) : Prop :=
  next s <= next s' /\ forall l, l < next s -> heap s' l = heap s l.

(** The neighbours that the vector search keeps: those whose index is below
    the number of chunks, each with its position in the row. *)
Definition in_range (chunks : list loc) (p : nat * Z) : bool :=
  (snd p <? Z.of_nat (List.length chunks))%Z.

(** The dict made for a neighbour: the chunk at its index, with the
    distance at its position as similarity score. *)
Definition neighbour (h : loc -> Chunk) (chunks : list loc) (distances : list Q)
    (p : nat * Z) : Chunk :=
  with_similarity_score (h (nth (Z.to_nat (snd p)) chunks 0))
    (nth (fst p) distances 0%Q).

(** Any event at all. *)
Definition any_event (ev : Event) : Prop := True.

(** A block as the segmenter makes them, in a document of [n] pages: its
    page number is one of the document, its content is not empty and has
    no white space at its ends. *)
Definition block_ok (n : nat) (b : Block) : Prop :=
  (1 <= block_page_number b <= Z.of_nat n)%Z
  /\ content b <> EmptyString
  /\ PyStr.strip (content b) = content b.

(** Where the heading of a block comes from: the default heading, the
    heading of the fallback block, or a heading line of the document. *)
Definition heading_source (doc : list string) (hd : string) : Prop :=
  hd = Config.DEFAULT_HEADING
  \/ hd = "Document Content"
  \/ exists page line,
       In page doc /\ In line (PyStr.split_nl page)
       /\ is_heading_line line = true /\ hd = PyStr.strip line.

(** Blocks in the order of their pages. *)
Definition page_le (a b : Block) : Prop :=
  (block_page_number a <= block_page_number b)%Z.

(** Blocks in the order of their pages, none after page [k]. *)
Definition up_to (k : Z) (bs : list Block) : Prop :=
  StronglySorted page_le bs /\ Forall (fun b => (block_page_number b <= k)%Z) bs.

(** A chunk as the chunker makes them from [blocks]: its text is not empty
    and has no white space at its ends, it carries no score, and its page
    number and heading are those of one block. *)
Definition chunk_ok (blocks : list Block) (c : Chunk) : Prop :=
  text c <> EmptyString
  /\ PyStr.strip (text c) = text c
  /\ similarity_score c = None /\ rerank_score c = None
  /\ exists b,
       In b blocks /\ page_number c = block_page_number b
       /\ heading c = block_heading b.

(** An event that is a message shown through Streamlit. *)
Definition is_message (ev : Event) : Prop :=
  match ev with EvSt _ => True | _ => False end.

End Notions.

(** * Properties *)

(** ** The stable sort *)

Section SortedFacts.
Context {A : Type} (before : A -> A -> bool).

(** [before] is a strict weak order: nothing goes before something that
    goes before it, and "does not go before" is transitive. *)
Hypothesis before_asym : forall a b, before a b = true -> before b a = false.
Hypothesis before_negtrans :
  forall a b c, before a b = false -> before b c = false -> before a c = false.

Lemma insert_sorted_perm (x : A) (l : list A) :
  Permutation (x :: l) (insert_sorted before x l).
Proof.
  induction l as [|y r IH]; simpl; [reflexivity|].
  destruct (before y x); [|reflexivity].
  rewrite perm_swap. now apply perm_skip.
Qed.

Lemma sorted_perm (l : list A) : Permutation l (sorted before l).
Proof.
  induction l as [|x l IH]; simpl; [constructor|].
  rewrite <- insert_sorted_perm. now apply perm_skip.
Qed.

Lemma insert_sorted_in_order (x : A) (l : list A) :
  StronglySorted (in_order before) l ->
  StronglySorted (in_order before) (insert_sorted before x l).
Proof.
  induction 1 as [|y r Hr IH Hy]; simpl.
  - repeat constructor.
  - destruct (before y x) eqn:E.
    + constructor; [exact IH|].
      rewrite <- insert_sorted_perm. constructor; [|exact Hy].
      now apply before_asym.
    + constructor; [now constructor|].
      constructor; [exact E|].
      rewrite Forall_forall in *. intros z Hz.
      unfold in_order in *. eapply before_negtrans; [apply Hy, Hz|exact E].
Qed.

Lemma sorted_in_order (l : list A) :
  StronglySorted (in_order before) (sorted before l).
Proof.
  induction l as [|x l IH]; simpl; [constructor|].
  now apply insert_sorted_in_order.
Qed.

(** Stability: elements of one class of tied elements keep the order they
    had in the input. *)
Lemma insert_sorted_filter (p : A -> bool) (x : A) (l : list A) :
  (forall a b, p a = true -> p b = true -> before a b = false) ->
  filter p (insert_sorted before x l) = filter p (x :: l).
Proof.
  intros Htie. induction l as [|y r IH]; [reflexivity|].
  simpl insert_sorted. destruct (before y x) eqn:E; [|reflexivity].
  simpl in *. rewrite IH. destruct (p x) eqn:Px; [|reflexivity].
  destruct (p y) eqn:Py; [|reflexivity].
  rewrite (Htie y x Py Px) in E. discriminate.
Qed.

Lemma sorted_stable (p : A -> bool) (l : list A) :
  (forall a b, p a = true -> p b = true -> before a b = false) ->
  filter p (sorted before l) = filter p l.
Proof.
  intros Htie. induction l as [|x l IH]; [reflexivity|].
  simpl sorted. rewrite insert_sorted_filter by exact Htie.
  simpl. now rewrite IH.
Qed.

End SortedFacts.

(** ** The order of the heading sort *)

Module HeadingOrder.
Import Retrieval Vocabulary.

Lemma heading_key_ltb_spec (a b : string) :
  heading_key_ltb a b = true <-> key_lt a b.
Proof.
  unfold heading_key_ltb, key_lt, String.ltb.
  rewrite orb_true_iff, andb_true_iff, Nat.ltb_lt, Nat.eqb_eq.
  destruct (String.compare a b); intuition congruence.
Qed.

Lemma ascii_compare_refl (c : ascii) : Ascii.compare c c = Eq.
Proof. unfold Ascii.compare. apply N.compare_refl. Qed.

Lemma ascii_compare_lt_trans (a b c : ascii) :
  Ascii.compare a b = Lt -> Ascii.compare b c = Lt -> Ascii.compare a c = Lt.
Proof.
  unfold Ascii.compare. rewrite !N.compare_lt_iff. apply N.lt_trans.
Qed.

Lemma compare_lt_trans (a : string) :
  forall b c, String.compare a b = Lt -> String.compare b c = Lt ->
              String.compare a c = Lt.
Proof.
  induction a as [|x a IH]; intros [|y b] [|z c]; simpl; try congruence.
  destruct (Ascii.compare x y) eqn:Exy; try discriminate;
    destruct (Ascii.compare y z) eqn:Eyz; try discriminate; intros H1 H2.
  - apply Ascii.compare_eq_iff in Exy, Eyz. subst.
    rewrite ascii_compare_refl. eauto.
  - apply Ascii.compare_eq_iff in Exy. subst. now rewrite Eyz.
  - apply Ascii.compare_eq_iff in Eyz. subst. now rewrite Exy.
  - now rewrite (ascii_compare_lt_trans _ _ _ Exy Eyz).
Qed.

Lemma compare_refl (a : string) : String.compare a a = Eq.
Proof.
  induction a as [|x a IH]; simpl; [reflexivity|].
  now rewrite ascii_compare_refl.
Qed.

Lemma key_lt_irrefl (a : string) : ~ key_lt a a.
Proof.
  intros [H|[_ H]]; [lia|]. rewrite compare_refl in H. discriminate.
Qed.

Lemma key_lt_trans (a b c : string) : key_lt a b -> key_lt b c -> key_lt a c.
Proof.
  intros [H1|[H1 C1]] [H2|[H2 C2]]; unfold key_lt; try (left; lia).
  right. split; [lia|]. eapply compare_lt_trans; eauto.
Qed.

Lemma key_lt_total (a b : string) : a = b \/ key_lt a b \/ key_lt b a.
Proof.
  unfold key_lt.
  destruct (Nat.lt_trichotomy (String.length a) (String.length b)) as [H|[H|H]];
    [tauto| |tauto].
  destruct (String.compare a b) eqn:E.
  - left. now apply String.compare_eq_iff.
  - tauto.
  - right. right. right. split; [lia|].
    rewrite String.compare_antisym, E. reflexivity.
Qed.

Lemma ltb_false (a b : string) :
  heading_key_ltb a b = false <-> ~ key_lt a b.
Proof.
  rewrite <- heading_key_ltb_spec. destruct (heading_key_ltb a b); intuition congruence.
Qed.

Lemma ltb_asym (a b : string) :
  heading_key_ltb a b = true -> heading_key_ltb b a = false.
Proof.
  rewrite heading_key_ltb_spec, ltb_false. intros H1 H2.
  exact (key_lt_irrefl a (key_lt_trans _ _ _ H1 H2)).
Qed.

Lemma ltb_negtrans (a b c : string) :
  heading_key_ltb a b = false -> heading_key_ltb b c = false ->
  heading_key_ltb a c = false.
Proof.
  rewrite !ltb_false. intros H1 H2 H3.
  destruct (key_lt_total b a) as [->|[H|H]]; [tauto| |tauto].
  apply H2. eapply key_lt_trans; eauto.
Qed.

Lemma ltb_irrefl (a : string) : heading_key_ltb a a = false.
Proof. apply ltb_false, key_lt_irrefl. Qed.

(** The headings come out distinct and in increasing key order. *)
Lemma unique_sorted_NoDup (hs : list string) : NoDup (unique_sorted hs).
Proof.
  unfold unique_sorted.
  eapply Permutation_NoDup; [apply sorted_perm|apply NoDup_nodup].
Qed.

Lemma unique_sorted_In (hs : list string) (x : string) :
  In x (unique_sorted hs) <-> In x hs.
Proof.
  unfold unique_sorted. rewrite <- (nodup_In string_dec hs x).
  split; apply Permutation_in; [symmetry|]; apply sorted_perm.
Qed.

Lemma unique_sorted_in_order (hs : list string) :
  StronglySorted (in_order heading_key_ltb) (unique_sorted hs).
Proof. apply sorted_in_order; [exact ltb_asym|exact ltb_negtrans]. Qed.

(** The set is listed in an arbitrary order; the sorted list is the same
    for each of them. *)
Lemma in_order_unique (l1 l2 : list string) :
  StronglySorted (in_order heading_key_ltb) l1 ->
  StronglySorted (in_order heading_key_ltb) l2 ->
  NoDup l1 -> Permutation l1 l2 -> l1 = l2.
Proof.
  intros S1. revert l2.
  induction S1 as [|x l1 S1 IH Hx]; intros l2 S2 N1 P.
  - now apply Permutation_nil in P.
  - destruct S2 as [|y l2 S2 Hy].
    + symmetry in P. now apply Permutation_nil in P.
    + assert (x = y) as <-.
      { assert (Ix : In x (y :: l2)) by (eapply Permutation_in; [exact P|now left]).
        assert (Iy : In y (x :: l1))
          by (eapply Permutation_in; [symmetry; exact P|now left]).
        destruct Ix as [->|Ix]; [reflexivity|].
        destruct Iy as [->|Iy]; [reflexivity|].
        rewrite Forall_forall in Hx, Hy.
        specialize (Hx _ Iy). specialize (Hy _ Ix). unfold in_order in *.
        apply ltb_false in Hx, Hy.
        destruct (key_lt_total x y) as [E|[H|H]]; tauto. }
      f_equal. apply IH; [exact S2|now inversion N1|].
      now apply Permutation_cons_inv in P.
Qed.

Lemma unique_sorted_any_listing (hs l : list string) :
  Permutation (nodup string_dec hs) l ->
  sorted heading_key_ltb l = unique_sorted hs.
Proof.
  intros P. apply in_order_unique.
  - apply sorted_in_order; [exact ltb_asym|exact ltb_negtrans].
  - apply unique_sorted_in_order.
  - eapply Permutation_NoDup; [apply sorted_perm|].
    eapply Permutation_NoDup; [exact P|apply NoDup_nodup].
  - unfold unique_sorted. rewrite <- !sorted_perm. now symmetry.
Qed.

End HeadingOrder.

(** ** Lists *)

Section ListFacts.
Context {A : Type}.

Lemma filter_or_perm (p1 p2 : A -> bool) (l : list A) :
  (forall a, In a l -> p1 a = true -> p2 a = false) ->
  Permutation (filter (fun a => p1 a || p2 a) l) (filter p1 l ++ filter p2 l).
Proof.
  induction l as [|x l IH]; intros D; simpl; [constructor|].
  assert (IH' := IH (fun a Ha => D a (or_intror Ha))).
  destruct (p1 x) eqn:P1; simpl.
  - rewrite (D x (or_introl eq_refl) P1). now apply perm_skip.
  - destruct (p2 x); [|exact IH'].
    rewrite IH'. apply Permutation_middle.
Qed.

Lemma strongly_sorted_app (R : A -> A -> Prop) (l1 l2 : list A) :
  StronglySorted R l1 -> StronglySorted R l2 ->
  (forall a b, In a l1 -> In b l2 -> R a b) ->
  StronglySorted R (l1 ++ l2).
Proof.
  induction 1 as [|x l1 S1 IH Hx]; intros S2 H; simpl; [exact S2|].
  constructor.
  - apply IH; [exact S2|]. intros a b Ha Hb. apply H; [now right|exact Hb].
  - apply Forall_app. split; [exact Hx|].
    apply Forall_forall. intros b Hb. apply H; [now left|exact Hb].
Qed.

Lemma strongly_sorted_all (R : A -> A -> Prop) (l : list A) :
  (forall a b, In a l -> In b l -> R a b) -> StronglySorted R l.
Proof.
  induction l as [|x l IH]; intros H; constructor.
  - apply IH. intros a b Ha Hb. apply H; now right.
  - apply Forall_forall. intros b Hb. apply H; [now left|now right].
Qed.

Lemma strongly_sorted_filter (R : A -> A -> Prop) (p : A -> bool) (l : list A) :
  StronglySorted R l -> StronglySorted R (filter p l).
Proof.
  induction 1 as [|x l S IH Hx]; simpl; [constructor|].
  destruct (p x); [|exact IH].
  constructor; [exact IH|].
  rewrite Forall_forall in *. intros b Hb.
  apply filter_In in Hb. now apply Hx.
Qed.

End ListFacts.

(** ** The structural matcher *)

Module StructuralMatcher.
Import Py Retrieval Vocabulary HeadingOrder.
Local Open Scope py_scope.

Lemma app_nil_state (s : State) : mkState (heap s) (next s) (trace s ++ []) = s.
Proof. destruct s. simpl. now rewrite app_nil_r. Qed.

(** The loop over the sorted headings, when Streamlit shows each hit. *)
Lemma structural_loop (st : Streamlit) (query : string) (h : loc -> Chunk)
    (chunks : list loc) :
  ui_ok st ->
  forall hs acc s,
    foldM (fun structural_results hd =>
             if direct_hit query hd then
               st_show (DirectHit hd) ;;
               let matching_chunks :=
                 filter (fun chunk => String.eqb (heading (h chunk)) hd) chunks in
               ret (structural_results ++ matching_chunks)
             else ret structural_results) acc hs st s
    = (Return (acc ++ flat_map (chunks_under h chunks)
                        (filter (direct_hit query) hs)),
       mkState (heap s) (next s)
         (trace s ++ map (fun hd => EvSt (DirectHit hd))
                       (filter (direct_hit query) hs))).
Proof.
  intros Hok hs. induction hs as [|hd hs IH]; intros acc s; simpl.
  - unfold ret. now rewrite app_nil_r, app_nil_state.
  - unfold bind at 1. destruct (direct_hit query hd) eqn:E.
    + unfold bind at 1, st_show. rewrite Hok. unfold ret at 1.
      rewrite IH. simpl. now rewrite <- !app_assoc.
    + unfold ret at 1. now rewrite IH.
Qed.

Lemma structural_search_run (st : Streamlit) (s : State) (query : string)
    (chunks : list loc) :
  ui_ok st ->
  run (structural_search query chunks) st s
  = (Return (structural_hits query (heap s) chunks),
     mkState (heap s) (next s)
       (trace s ++ map (fun hd => EvSt (DirectHit hd))
                     (filter (direct_hit query)
                        (unique_sorted (map (heading_of (heap s)) chunks))))).
Proof.
  intros Hok. unfold run, structural_search, bind at 1, get_heap.
  rewrite (structural_loop st query (heap s) chunks Hok). reflexivity.
Qed.

(** Chunks of one heading. *)
Lemma chunks_under_In (h : loc -> Chunk) (chunks : list loc) (hd : string)
    (c : loc) :
  In c (chunks_under h chunks hd) <-> In c chunks /\ heading_of h c = hd.
Proof.
  unfold chunks_under. rewrite filter_In, String.eqb_eq. reflexivity.
Qed.

Lemma chunks_under_again (h : loc -> Chunk) (chunks : list loc) (hd hd' : string) :
  chunks_under h (chunks_under h chunks hd') hd
  = if String.eqb hd' hd then chunks_under h chunks hd else [].
Proof.
  unfold chunks_under. induction chunks as [|c r IH]; simpl.
  - now destruct (String.eqb hd' hd).
  - destruct (String.eqb (heading_of h c) hd') eqn:E1; simpl.
    + apply String.eqb_eq in E1. rewrite E1, IH.
      now destruct (String.eqb hd' hd).
    + rewrite IH. destruct (String.eqb hd' hd) eqn:E2; [|reflexivity].
      apply String.eqb_eq in E2. subst hd'. now rewrite E1.
Qed.

Lemma chunks_under_flat_map (h : loc -> Chunk) (chunks : list loc) (hd : string)
    (hs : list string) :
  NoDup hs ->
  chunks_under h (flat_map (chunks_under h chunks) hs) hd
  = if existsb (String.eqb hd) hs then chunks_under h chunks hd else [].
Proof.
  induction 1 as [|x hs Hx N IH]; simpl; [reflexivity|].
  unfold chunks_under at 1. rewrite filter_app.
  fold (chunks_under h (chunks_under h chunks x) hd).
  fold (chunks_under h (flat_map (chunks_under h chunks) hs) hd).
  rewrite chunks_under_again, IH, (String.eqb_sym hd x).
  destruct (String.eqb x hd) eqn:E; simpl; [|reflexivity].
  apply String.eqb_eq in E. subst x.
  destruct (existsb (String.eqb hd) hs) eqn:Ex; [|now rewrite app_nil_r].
  apply existsb_exists in Ex. destruct Ex as (y & Hy & Ey).
  apply String.eqb_eq in Ey. subst y. contradiction.
Qed.

Lemma groups_perm (h : loc -> Chunk) (chunks : list loc) (hs : list string) :
  NoDup hs ->
  Permutation (flat_map (chunks_under h chunks) hs)
    (filter (fun c => existsb (String.eqb (heading_of h c)) hs) chunks).
Proof.
  induction 1 as [|x hs Hx N IH]; simpl.
  - induction chunks; simpl; auto.
  - rewrite IH. symmetry.
    apply (filter_or_perm (fun c => String.eqb (heading_of h c) x)
             (fun c => existsb (String.eqb (heading_of h c)) hs)).
    intros c _ E. apply String.eqb_eq in E. subst x.
    destruct (existsb (String.eqb (heading_of h c)) hs) eqn:Ex; [|reflexivity].
    apply existsb_exists in Ex. destruct Ex as (y & Hy & Ey).
    apply String.eqb_eq in Ey. subst y. contradiction.
Qed.

Lemma groups_sorted (h : loc -> Chunk) (chunks : list loc) (hs : list string) :
  StronglySorted (in_order heading_key_ltb) hs ->
  StronglySorted (fun a b => ~ key_lt (heading_of h b) (heading_of h a))
    (flat_map (chunks_under h chunks) hs).
Proof.
  induction 1 as [|x hs S IH Hx]; simpl; [constructor|].
  apply strongly_sorted_app; [|exact IH|].
  - apply strongly_sorted_all. intros a b Ha Hb.
    apply chunks_under_In in Ha, Hb. destruct Ha as [_ ->], Hb as [_ ->].
    apply key_lt_irrefl.
  - intros a b Ha Hb. apply chunks_under_In in Ha. destruct Ha as [_ Ha].
    apply in_flat_map in Hb. destruct Hb as (y & Hy & Hb).
    apply chunks_under_In in Hb. destruct Hb as [_ Hb].
    rewrite Ha, Hb. rewrite Forall_forall in Hx.
    apply ltb_false. exact (Hx y Hy).
Qed.

End StructuralMatcher.

Import Py Retrieval Vocabulary.

(** C3, as amended.  When Streamlit shows the hits, [structural_search]
    returns exactly the chunks whose heading, stripped of its numbering and
    lower-cased, occurs in the lower-cased query (each as often as it is in
    the chunk list); they are ordered by the key (length, text) of their
    heading, the chunks of one heading stay in chunk order, and without a
    hit the result is empty.  The store is left as it was. *)
Theorem structural_search_hits_by_heading_key (st : Streamlit) (s : State)
    (query : string) (chunks : list loc) :
  ui_ok st ->
  exists rs s',
    run (structural_search query chunks) st s = (Return rs, s')
    /\ heap s' = heap s
    /\ Permutation rs
         (filter (fun c => direct_hit query (heading_of (heap s) c)) chunks)
    /\ StronglySorted
         (fun a b => ~ key_lt (heading_of (heap s) b) (heading_of (heap s) a)) rs
    /\ (forall hd,
          chunks_under (heap s) rs hd
          = if direct_hit query hd then chunks_under (heap s) chunks hd else [])
    /\ ((forall c, In c chunks -> direct_hit query (heading_of (heap s) c) = false)
        -> rs = []).
Proof.
  intros Hok. eexists _, _. split; [apply StructuralMatcher.structural_search_run, Hok|].
  set (h := heap s).
  set (hs := unique_sorted (map (heading_of h) chunks)).
  assert (N : NoDup (filter (direct_hit query) hs))
    by apply NoDup_filter, HeadingOrder.unique_sorted_NoDup.
  assert (P : Permutation (structural_hits query h chunks)
                (filter (fun c => direct_hit query (heading_of h c)) chunks)).
  { unfold structural_hits. fold hs.
    rewrite (StructuralMatcher.groups_perm h chunks _ N).
    erewrite filter_ext_in; [reflexivity|].
    intros c Hc. simpl.
    destruct (direct_hit query (heading_of h c)) eqn:E.
    - apply existsb_exists. exists (heading_of h c).
      split; [|apply String.eqb_refl].
      apply filter_In. split; [|exact E].
      apply HeadingOrder.unique_sorted_In. now apply in_map.
    - destruct (existsb _ _) eqn:Ex; [|reflexivity].
      apply existsb_exists in Ex. destruct Ex as (y & Hy & Ey).
      apply String.eqb_eq in Ey. subst y.
      apply filter_In in Hy. destruct Hy as [_ Hy]. congruence. }
  split; [reflexivity|]. split; [exact P|]. split; [|split].
  - apply StructuralMatcher.groups_sorted, strongly_sorted_filter.
    apply HeadingOrder.unique_sorted_in_order.
  - intros hd. unfold structural_hits. fold hs.
    rewrite (StructuralMatcher.chunks_under_flat_map h chunks hd _ N).
    destruct (direct_hit query hd) eqn:E.
    + destruct (existsb _ _) eqn:Ex; [reflexivity|].
      symmetry. unfold chunks_under.
      destruct (filter (fun chunk => String.eqb (heading_of h chunk) hd) chunks)
        as [|c r] eqn:F; [reflexivity|].
      assert (Hc : In c (filter (fun chunk => String.eqb (heading_of h chunk) hd) chunks))
        by (rewrite F; now left).
      apply filter_In in Hc. destruct Hc as [Hc Ec].
      apply String.eqb_eq in Ec.
      assert (existsb (String.eqb hd) (filter (direct_hit query) hs) = true);
        [|congruence].
      apply existsb_exists. exists hd. split; [|apply String.eqb_refl].
      apply filter_In. split; [|exact E].
      apply HeadingOrder.unique_sorted_In. rewrite <- Ec. now apply in_map.
    + destruct (existsb _ _) eqn:Ex; [|reflexivity].
      apply existsb_exists in Ex. destruct Ex as (y & Hy & Ey).
      apply String.eqb_eq in Ey. subst y.
      apply filter_In in Hy. destruct Hy as [_ Hy]. congruence.
  - intros Hno. apply Permutation_nil. symmetry. rewrite P.
    clear -Hno. induction chunks as [|c r IH]; [constructor|].
    simpl. rewrite (Hno c (or_introl eq_refl)). apply IH.
    intros c' Hc'. apply Hno. now right.
Qed.

(** The theorem at the sample document: both headings are hit. *)
Lemma structural_search_hits_by_heading_key_witness :
  exists rs,
    fst (run (structural_search "intro and methods" Sample.sample_chunks)
           Sample.show_all Sample.sample_state) = Return rs
    /\ Permutation rs Sample.sample_chunks.
Proof.
  destruct (structural_search_hits_by_heading_key Sample.show_all
              Sample.sample_state "intro and methods" Sample.sample_chunks)
    as (rs & s' & Hrun & _ & P & _).
  - intros m. reflexivity.
  - exists rs. rewrite Hrun. split; [reflexivity|exact P].
Defined.

(** C3 as stated fails: "1 Methods" appears first in the document, yet the
    chunk of "2 Intro" is returned first, its heading being the shorter. *)
Lemma structural_search_not_in_first_appearance_order :
  fst (run (structural_search "intro and methods" Sample.sample_chunks)
         Sample.show_all Sample.sample_state) = Return [1; 0; 2]
  /\ structural_match_spec "intro and methods" Sample.sample_heap
       Sample.sample_chunks = [0; 2; 1]
  /\ fst (run (structural_search "intro and methods" Sample.sample_chunks)
            Sample.show_all Sample.sample_state)
     <> Return (structural_match_spec "intro and methods" Sample.sample_heap
                  Sample.sample_chunks).
Proof.
  split; [|split]; [vm_compute; reflexivity..|].
  vm_compute. discriminate.
Qed.

(** ** What a computation adds to the trace *)

Module Effects.
Local Open Scope py_scope.

Section Emits.
Context (P : Event -> Prop).

Lemma emits_silent {A} (m : M A) :
  (forall st s, trace (snd (m st s)) = trace s) -> emits P m.
Proof.
  intros H st s. exists []. rewrite H, app_nil_r. split; [reflexivity|constructor].
Qed.

Lemma emits_ret {A} (a : A) : emits P (ret a).
Proof. now apply emits_silent. Qed.

Lemma emits_raise {A} (e : exn) : emits P (@raise A e).
Proof. now apply emits_silent. Qed.

Lemma emits_get_heap : emits P get_heap.
Proof. now apply emits_silent. Qed.

Lemma emits_set_rerank_score (l : loc) (d : Q) : emits P (set_rerank_score l d).
Proof. now apply emits_silent. Qed.

Lemma emits_set_similarity_score (l : loc) (d : Q) :
  emits P (set_similarity_score l d).
Proof. now apply emits_silent. Qed.

Lemma emits_copy (l : loc) : emits P (copy l).
Proof. now apply emits_silent. Qed.

Lemma emits_item {A} (l : list A) (i : nat) : emits P (item l i).
Proof. unfold item. destruct (nth_error l i); [apply emits_ret|apply emits_raise]. Qed.

Lemma emits_getitem {A} (l : list A) (i : Z) : emits P (getitem l i).
Proof. unfold getitem. destruct (py_index l i); [apply emits_ret|apply emits_raise]. Qed.

Lemma emits_call {A} (ev : Event) (r : exn + A) : P ev -> emits P (call ev r).
Proof.
  intros H st s. exists [ev]. unfold call.
  destruct r; simpl; (split; [reflexivity|now repeat constructor]).
Qed.

Lemma emits_st_show (m : UiMsg) : P (EvSt m) -> emits P (st_show m).
Proof.
  intros H st s. exists [EvSt m]. unfold st_show.
  destruct (st m); simpl; (split; [reflexivity|now repeat constructor]).
Qed.

Lemma emits_bind {A B} (m : M A) (f : A -> M B) :
  emits P m -> (forall a, emits P (f a)) -> emits P (bind m f).
Proof.
  intros Hm Hf st s. destruct (Hm st s) as (e1 & T1 & F1).
  unfold bind. destruct (m st s) as [[a|e] s1]; simpl in *.
  - destruct (Hf a st s1) as (e2 & T2 & F2). exists (e1 ++ e2).
    rewrite T2, T1, app_assoc. split; [reflexivity|now apply Forall_app].
  - now exists e1.
Qed.

Lemma emits_try_except {A} (m : M A) (h : exn -> M A) :
  emits P m -> (forall e, emits P (h e)) -> emits P (try_except m h).
Proof.
  intros Hm Hh st s. destruct (Hm st s) as (e1 & T1 & F1).
  unfold try_except. destruct (m st s) as [[a|e] s1]; simpl in *.
  - now exists e1.
  - destruct (Hh e st s1) as (e2 & T2 & F2). exists (e1 ++ e2).
    rewrite T2, T1, app_assoc. split; [reflexivity|now apply Forall_app].
Qed.

Lemma emits_foldM {A B} (body : A -> B -> M A) (l : list B) :
  (forall acc x, emits P (body acc x)) -> forall acc, emits P (foldM body acc l).
Proof.
  intros Hb. induction l as [|x l IH]; intros acc; simpl.
  - apply emits_ret.
  - apply emits_bind; [apply Hb|exact IH].
Qed.

Lemma emits_forM_ {B} (body : B -> M unit) (l : list B) :
  (forall x, emits P (body x)) -> emits P (forM_ body l).
Proof.
  intros Hb. induction l as [|x l IH]; simpl.
  - apply emits_ret.
  - apply emits_bind; [apply Hb|intros _; exact IH].
Qed.

Lemma emits_mapM {A B} (f : A -> M B) (l : list A) :
  (forall x, emits P (f x)) -> emits P (mapM f l).
Proof.
  intros Hf. induction l as [|x l IH]; simpl.
  - apply emits_ret.
  - apply emits_bind; [apply Hf|intros y].
    apply emits_bind; [exact IH|intros ys; apply emits_ret].
Qed.

End Emits.

Lemma structural_search_off_index (query : string) (chunks : list loc) :
  emits off_index (structural_search query chunks).
Proof.
  unfold structural_search.
  apply emits_bind; [apply emits_get_heap|intros h].
  apply emits_foldM. intros acc hd.
  destruct (direct_hit query hd); [|apply emits_ret].
  apply emits_bind; [now apply emits_st_show|intros _; apply emits_ret].
Qed.

Lemma rerank_results_off_index (query : string) (chunks : list loc)
    (reranker : CrossEncoder) :
  emits off_index (rerank_results query chunks reranker).
Proof.
  unfold rerank_results. destruct chunks as [|c r]; [apply emits_ret|].
  apply emits_try_except.
  - apply emits_bind; [apply emits_get_heap|intros h].
    apply emits_bind; [now apply emits_call|intros scores].
    apply emits_bind.
    + apply emits_forM_. intros [i chunk].
      apply emits_bind; [apply emits_item|intros sc; apply emits_set_rerank_score].
    + intros _. apply emits_bind; [|intros keyed; apply emits_ret].
      apply emits_mapM. intros x. unfold rerank_key.
      apply emits_bind; [apply emits_get_heap|intros h'].
      destruct (rerank_score (h' x)); [apply emits_ret|apply emits_raise].
  - intros e. apply emits_bind; [now apply emits_st_show|intros _; apply emits_ret].
Qed.

End Effects.

(** C1.  When the structural matcher returns at least one chunk,
    [advanced_retrieval] is the re-ranking of those chunks cut to the first
    10 ([STRUCTURAL_SEARCH_TOP_K]), whatever the index and the embedding
    model are, and nothing it adds to the trace is a call to the embedding
    model or to the index. *)
Theorem advanced_retrieval_structural_hit (st : Streamlit) (s s1 : State)
    (query : string) (index : IndexFlatL2) (chunks : list loc)
    (embeddings_model : SentenceTransformer) (reranker : CrossEncoder)
    (structural_results : list loc) :
  run (structural_search query chunks) st s = (Return structural_results, s1) ->
  structural_results <> [] ->
  let reranked := run (rerank_results query structural_results reranker) st s1 in
  let final := run (advanced_retrieval query index chunks embeddings_model reranker) st s in
  final = (map_outcome (firstn 10) (fst reranked), snd reranked)
  /\ exists evs,
       trace (snd final) = trace s ++ evs
       /\ Forall (fun ev => uses_vector_index ev = false) evs.
Proof.
  intros Hs Hne reranked final.
  assert (E : final = (map_outcome (firstn 10) (fst reranked), snd reranked)).
  { subst final reranked. unfold run in *. unfold advanced_retrieval, bind at 1.
    rewrite Hs. destruct structural_results as [|c r]; [congruence|].
    unfold bind.
    destruct (rerank_results query (c :: r) reranker st s1) as [[rs|e] s2];
      reflexivity. }
  split; [exact E|]. rewrite E. simpl. subst reranked.
  destruct (Effects.structural_search_off_index query chunks st s) as (e1 & T1 & F1).
  destruct (Effects.rerank_results_off_index query structural_results reranker st s1)
    as (e2 & T2 & F2).
  unfold run in *. rewrite Hs in T1. simpl in T1.
  exists (e1 ++ e2). rewrite T2, T1, app_assoc.
  split; [reflexivity|now apply Forall_app].
Qed.

(** The theorem at the sample document, for a query that names both
    sections: the three chunks come back re-ranked and the trace holds the
    two hits and the call to the cross-encoder. *)
Lemma advanced_retrieval_structural_hit_witness :
  fst (run (advanced_retrieval "intro and methods" Sample.short_index
              Sample.sample_chunks Sample.unit_embedding Sample.by_length)
         Sample.show_all Sample.sample_state) = Return [0; 2; 1].
Proof.
  destruct (advanced_retrieval_structural_hit Sample.show_all Sample.sample_state
              (mkState Sample.sample_heap 3
                 [EvSt (DirectHit "2 Intro"); EvSt (DirectHit "1 Methods")])
              "intro and methods" Sample.short_index Sample.sample_chunks
              Sample.unit_embedding Sample.by_length [1; 0; 2]) as [E _].
  - reflexivity.
  - discriminate.
  - rewrite E. reflexivity.
Defined.

(** ** The re-ranker *)

Module Reranker.
Local Open Scope py_scope.

Lemma nth_error_enumerate_from {A} (l : list A) :
  forall a k, nth_error (combine (seq a (List.length l)) l) k
              = option_map (pair (a + k)) (nth_error l k).
Proof.
  induction l as [|x l IH]; intros a [|k]; simpl; try reflexivity.
  - now rewrite Nat.add_0_r.
  - rewrite IH. now rewrite Nat.add_succ_r.
Qed.

Lemma nth_error_enumerate {A} (l : list A) (k : nat) :
  nth_error (enumerate l) k = option_map (pair k) (nth_error l k).
Proof. apply nth_error_enumerate_from. Qed.

Lemma enumerate_In {A} (l : list A) (i : nat) (x : A) :
  In (i, x) (enumerate l) -> nth_error l i = Some x.
Proof.
  intros H. apply In_nth_error in H. destruct H as [k H].
  rewrite nth_error_enumerate in H.
  destruct (nth_error l k) eqn:E; simpl in H; [|discriminate].
  injection H as <- <-. exact E.
Qed.

(** The loop that writes the scores. *)
Lemma write_loop (st : Streamlit) (scores : list Q) (l : list (nat * loc)) :
  forall s,
    (forall p, In p l -> fst p < List.length scores) ->
    forM_ (fun p : nat * loc =>
             let '(i, chunk) := p in
             sc <- item scores i ;; set_rerank_score chunk sc) l st s
    = (Return tt, mkState (write_scores scores l (heap s)) (next s) (trace s)).
Proof.
  induction l as [|[i c] l IH]; intros s Hl; simpl.
  - now destruct s.
  - assert (Hi : i < List.length scores) by exact (Hl (i, c) (or_introl eq_refl)).
    unfold bind at 1, bind at 1, item.
    destruct (nth_error scores i) as [q|] eqn:E;
      [|apply nth_error_None in E; lia].
    unfold ret at 1, set_rerank_score at 1. rewrite IH by (intros p Hp; apply Hl; now right).
    simpl. now rewrite (nth_error_nth _ _ 0%Q E).
Qed.

Lemma upd_same (h : loc -> Chunk) (l : loc) (c : Chunk) : upd h l c l = c.
Proof. unfold upd. now rewrite Nat.eqb_refl. Qed.

Lemma upd_other (h : loc -> Chunk) (l l' : loc) (c : Chunk) :
  l' <> l -> upd h l c l' = h l'.
Proof. intros H. unfold upd. apply Nat.eqb_neq in H. now rewrite H. Qed.

Lemma write_scores_keeps (scores : list Q) (l : list (nat * loc)) :
  forall h c, rerank_score (h c) <> None ->
              rerank_score (write_scores scores l h c) <> None.
Proof.
  induction l as [|[i x] l IH]; intros h c H; simpl; [exact H|].
  apply IH. destruct (Nat.eq_dec c x) as [->|N].
  - rewrite upd_same. discriminate.
  - now rewrite upd_other.
Qed.

Lemma write_scores_scored (scores : list Q) (l : list (nat * loc)) :
  forall h p, In p l -> rerank_score (write_scores scores l h (snd p)) <> None.
Proof.
  induction l as [|[i x] l IH]; intros h p Hp; [destruct Hp|].
  destruct Hp as [<-|H]; simpl.
  - apply write_scores_keeps. rewrite upd_same. discriminate.
  - now apply IH.
Qed.

Lemma write_scores_untouched (scores : list Q) (l : list (nat * loc)) :
  forall h c, (forall p, In p l -> snd p <> c) -> write_scores scores l h c = h c.
Proof.
  induction l as [|[i x] l IH]; intros h c H; simpl; [reflexivity|].
  rewrite IH by (intros p Hp; apply H; now right).
  apply upd_other. intros ->. now apply (H (i, x) (or_introl eq_refl)).
Qed.

(** The last write to a chunk decides its score. *)
Lemma write_scores_last (scores : list Q) (l : list (nat * loc)) :
  forall h k i c,
    nth_error l k = Some (i, c) ->
    (forall j p, k < j -> nth_error l j = Some p -> snd p <> c) ->
    rerank_score (write_scores scores l h c) = Some (nth i scores 0%Q).
Proof.
  induction l as [|[i0 x] l IH]; intros h [|k] i c E L; simpl in *; try discriminate.
  - injection E as -> ->.
    rewrite write_scores_untouched.
    + now rewrite upd_same.
    + intros p Hp. apply In_nth_error in Hp. destruct Hp as [j Hj].
      apply (L (S j) p); [lia|exact Hj].
  - apply (IH _ k i c E). intros j p Hj Hp. apply (L (S j) p); [lia|exact Hp].
Qed.

Lemma keys_read (st : Streamlit) (s : State) (chunks : list loc) :
  (forall c, In c chunks -> rerank_score (heap s c) <> None) ->
  mapM rerank_key chunks st s
  = (Return (map (fun c => (score_of (heap s) c, c)) chunks), s).
Proof.
  induction chunks as [|c r IH]; intros H; simpl; [reflexivity|].
  unfold bind at 1, rerank_key at 1, bind at 1, get_heap at 1.
  assert (Hc := H c (or_introl eq_refl)). unfold score_of at 1.
  destruct (rerank_score (heap s c)) as [q|]; [|congruence].
  unfold ret at 1, bind at 1. rewrite IH by (intros c' Hc'; apply H; now right).
  reflexivity.
Qed.

(** A run of the re-ranker whose scorer answers with enough scores. *)
Lemma rerank_results_run (st : Streamlit) (s : State) (query : string)
    (chunks : list loc) (reranker : CrossEncoder) (scores : list Q) :
  chunks <> [] ->
  reranker (pairs_of query (heap s) chunks) = inr scores ->
  List.length chunks <= List.length scores ->
  let h' := write_scores scores (enumerate chunks) (heap s) in
  run (rerank_results query chunks reranker) st s
  = (Return (map snd (sorted score_gtb
                        (map (fun c => (score_of h' c, c)) chunks))),
     mkState h' (next s)
       (trace s ++ [EvPredict (pairs_of query (heap s) chunks)])).
Proof.
  intros Hne Hrr Hlen. cbv zeta. unfold run, rerank_results.
  destruct chunks as [|c0 r0] eqn:Ec; [congruence|]. rewrite <- Ec in *.
  unfold try_except, bind at 1, get_heap at 1, bind at 1, predict, call.
  fold (pairs_of query (heap s) chunks). rewrite Hrr.
  unfold bind at 1. rewrite write_loop.
  - unfold bind at 1. rewrite keys_read.
    + reflexivity.
    + intros c Hc. simpl. apply In_nth_error in Hc. destruct Hc as [k Hk].
      apply (write_scores_scored scores (enumerate chunks) (heap s) (k, c)).
      eapply nth_error_In. rewrite nth_error_enumerate, Hk. reflexivity.
  - intros [i c] Hp. apply enumerate_In in Hp. simpl.
    assert (i < List.length chunks) by (apply nth_error_Some; congruence). lia.
Qed.

(** The order of [reverse=True] on scores is a strict weak order. *)
Lemma score_gtb_asym (a b : Q * loc) :
  score_gtb a b = true -> score_gtb b a = false.
Proof.
  unfold score_gtb. rewrite negb_true_iff, negb_false_iff. intros H.
  apply Qle_bool_iff. destruct (Qlt_le_dec (fst a) (fst b)) as [L|L].
  - apply Qlt_le_weak in L. apply Qle_bool_iff in L. congruence.
  - exact L.
Qed.

Lemma score_gtb_negtrans (a b c : Q * loc) :
  score_gtb a b = false -> score_gtb b c = false -> score_gtb a c = false.
Proof.
  unfold score_gtb. rewrite !negb_false_iff, !Qle_bool_iff. apply Qle_trans.
Qed.

End Reranker.

Section SortedTransport.
Context {A B : Type}.

Lemma strongly_sorted_impl_in (R R' : A -> A -> Prop) (l : list A) :
  StronglySorted R l ->
  (forall a b, In a l -> In b l -> R a b -> R' a b) ->
  StronglySorted R' l.
Proof.
  induction 1 as [|x l S IH Hx]; intros H; constructor.
  - apply IH. intros a b Ha Hb. apply H; now right.
  - rewrite Forall_forall in *. intros b Hb.
    apply H; [now left|now right|now apply Hx].
Qed.

Lemma strongly_sorted_map (R : B -> B -> Prop) (f : A -> B) (l : list A) :
  StronglySorted (fun a b => R (f a) (f b)) l -> StronglySorted R (map f l).
Proof.
  induction 1 as [|x l S IH Hx]; simpl; constructor; [exact IH|].
  now apply Forall_map.
Qed.

Lemma filter_map_snd (p : B -> bool) (f : A -> B) (l : list A) :
  filter p (map f l) = map f (filter (fun a => p (f a)) l).
Proof.
  induction l as [|x l IH]; simpl; [reflexivity|].
  rewrite IH. now destruct (p (f x)).
Qed.

End SortedTransport.

(** C5.  When the cross-encoder answers with one score per pair,
    [rerank_results] returns a permutation of its input; every chunk
    carries the score given for its (last) position; the scores of the
    result are in non-increasing order; and chunks with the same score keep
    the order they had among the candidates. *)
Theorem rerank_results_sorted_stable (st : Streamlit) (s : State)
    (query : string) (chunks : list loc) (reranker : CrossEncoder)
    (scores : list Q) :
  reranker (pairs_of query (heap s) chunks) = inr scores ->
  List.length scores = List.length chunks ->
  exists rs s',
    run (rerank_results query chunks reranker) st s = (Return rs, s')
    /\ Permutation chunks rs
    /\ (forall i c,
          nth_error chunks i = Some c ->
          (forall j, i < j -> nth_error chunks j <> Some c) ->
          rerank_score (heap s' c) = nth_error scores i)
    /\ StronglySorted
         (fun a b => (score_of (heap s') b <= score_of (heap s') a)%Q) rs
    /\ (forall v,
          filter (fun c => Qeq_bool (score_of (heap s') c) v) rs
          = filter (fun c => Qeq_bool (score_of (heap s') c) v) chunks).
Proof.
  intros Hrr Hlen. destruct chunks as [|c0 r0] eqn:Ec.
  { exists [], s. repeat split; try constructor.
    intros [|i] c H; discriminate. }
  rewrite <- Ec in *.
  assert (Hne : chunks <> []) by (rewrite Ec; discriminate).
  eexists _, _. split.
  { apply Reranker.rerank_results_run; [exact Hne|exact Hrr|lia]. }
  simpl heap. set (h' := write_scores scores (enumerate chunks) (heap s)).
  set (keyed := map (fun c => (score_of h' c, c)) chunks).
  assert (Hsnd : map snd keyed = chunks).
  { unfold keyed. rewrite map_map. simpl. apply map_id. }
  assert (Hkey : forall kc, In kc (sorted score_gtb keyed) ->
                            fst kc = score_of h' (snd kc)).
  { intros kc H. apply (Permutation_in _ (Permutation_sym (sorted_perm _ _))) in H.
    unfold keyed in H. apply in_map_iff in H. destruct H as (c & <- & _).
    reflexivity. }
  split; [|split; [|split]].
  - rewrite <- Hsnd at 1. apply Permutation_map, sorted_perm.
  - intros i c Hi Hlast.
    assert (Hi' : i < List.length scores)
      by (rewrite Hlen; apply nth_error_Some; congruence).
    apply nth_error_Some in Hi'.
    destruct (nth_error scores i) as [q|] eqn:Eq; [|congruence].
    rewrite <- (nth_error_nth _ _ 0%Q Eq).
    apply (Reranker.write_scores_last scores (enumerate chunks) (heap s) i).
    + rewrite Reranker.nth_error_enumerate, Hi. reflexivity.
    + intros j p Hj Hp. rewrite Reranker.nth_error_enumerate in Hp.
      destruct (nth_error chunks j) as [c'|] eqn:Ej; [|discriminate].
      injection Hp as <-. simpl. intros ->. exact (Hlast j Hj Ej).
  - apply strongly_sorted_map.
    eapply strongly_sorted_impl_in.
    + apply sorted_in_order;
        [exact Reranker.score_gtb_asym|exact Reranker.score_gtb_negtrans].
    + intros a b Ha Hb H. unfold in_order, score_gtb in H.
      apply negb_false_iff, Qle_bool_iff in H.
      now rewrite <- (Hkey a Ha), <- (Hkey b Hb).
  - intros v. rewrite filter_map_snd.
    rewrite (filter_ext_in _ (fun kc => Qeq_bool (fst kc) v));
      [|intros kc H; now rewrite (Hkey kc H)].
    rewrite sorted_stable.
    + rewrite <- Hsnd at 1. rewrite filter_map_snd. f_equal.
      apply filter_ext_in. intros kc H. unfold keyed in H.
      apply in_map_iff in H. destruct H as (c & <- & _). reflexivity.
    + intros a b Ha Hb. unfold score_gtb.
      apply Qeq_bool_iff in Ha, Hb. apply negb_false_iff, Qle_bool_iff.
      rewrite Ha, Hb. apply Qle_refl.
Qed.

(** The theorem at the sample document: "alpha text" and "gamma text" tie
    at 10 and keep their order, "beta text" scores 9 and moves last. *)
Lemma rerank_results_sorted_stable_witness :
  exists rs,
    fst (run (rerank_results "q" [1; 0; 2] Sample.by_length)
           Sample.show_all Sample.sample_state) = Return rs
    /\ Permutation [1; 0; 2] rs.
Proof.
  destruct (rerank_results_sorted_stable Sample.show_all Sample.sample_state
              "q" [1; 0; 2] Sample.by_length [9%Q; 10%Q; 10%Q])
    as (rs & s' & Hrun & P & _).
  - reflexivity.
  - reflexivity.
  - exists rs. rewrite Hrun. split; [reflexivity|exact P].
Defined.

(** C6.  On an empty candidate list [rerank_results] returns the empty list
    and leaves the state, trace included, as it was: the cross-encoder is
    not called.  When the cross-encoder raises and Streamlit shows the
    error, it returns the candidates in the order given, and no chunk has
    been written to. *)
Theorem rerank_results_empty_and_failure (st : Streamlit) (s : State)
    (query : string) (reranker : CrossEncoder) :
  run (rerank_results query [] reranker) st s = (Return [], s)
  /\ forall chunks e,
       chunks <> [] ->
       reranker (pairs_of query (heap s) chunks) = inl e ->
       st (RerankingError e) = None ->
       run (rerank_results query chunks reranker) st s
       = (Return chunks,
          mkState (heap s) (next s)
            (trace s ++ [EvPredict (pairs_of query (heap s) chunks);
                         EvSt (RerankingError e)])).
Proof.
  split; [reflexivity|].
  intros chunks e Hne Hrr Hst. destruct chunks as [|c0 r0]; [congruence|].
  unfold run, rerank_results, try_except, bind at 1, get_heap at 1, bind at 1,
    predict, call.
  change (map (fun chunk => (query, text (heap s chunk))) (c0 :: r0))
    with (pairs_of query (heap s) (c0 :: r0)).
  rewrite Hrr. unfold bind, st_show. rewrite Hst. unfold ret, log. simpl.
  now rewrite <- app_assoc.
Qed.

(** The theorem at the sample document with a cross-encoder that raises. *)
Lemma rerank_results_empty_and_failure_witness :
  fst (run (rerank_results "q" [1; 0; 2] Sample.scorer_down)
         Sample.show_all Sample.sample_state) = Return [1; 0; 2].
Proof.
  destruct (rerank_results_empty_and_failure Sample.show_all Sample.sample_state
              "q" Sample.scorer_down) as [_ H].
  rewrite (H [1; 0; 2] "scorer down"); [reflexivity|discriminate|reflexivity..].
Defined.

(** ** The vector search *)

Module VectorSearch.
Local Open Scope py_scope.

(** A negative index that Python can resolve passes the test
    [idx < len(chunks)]: the chunk counted from the end is copied and
    returned. *)
Lemma collect_negative_index (st : Streamlit) (s : State) (distances : list Q)
    (chunks acc : list loc) (i : nat) (idx : Z) (c : loc) (d : Q) :
  (idx < 0)%Z ->
  py_index chunks idx = Some c ->
  nth_error distances i = Some d ->
  run (collect distances chunks acc (i, idx)) st s
  = (Return (acc ++ [next s]),
     mkState (upd (upd (heap s) (next s) (heap s c)) (next s)
                (with_similarity_score (heap s c) d))
       (S (next s)) (trace s)).
Proof.
  intros Hneg Hidx Hd. unfold run, collect.
  assert (E : (idx <? Z.of_nat (List.length chunks))%Z = true)
    by (apply Z.ltb_lt; lia).
  rewrite E.
  unfold bind at 1, getitem. rewrite Hidx. unfold ret at 1.
  unfold bind at 1, copy at 1. unfold bind at 1, item. rewrite Hd.
  unfold ret at 1, bind, set_similarity_score, ret. simpl.
  now rewrite Reranker.upd_same.
Qed.

End VectorSearch.

(** C4, the failing input.  The index holds three vectors and is asked for
    four neighbours, so its row ends with the label -1 and the largest
    float.  Both searches return four results for the three chunks: the
    label -1 passes [idx < len(chunks)], [chunks[-1]] is the last chunk, and
    a copy of it with the padding distance is returned. *)
Theorem vector_search_returns_padding_entry :
  let run_semantic :=
    run (semantic_search "weather" Sample.short_index Sample.sample_chunks
           Sample.unit_embedding 4) Sample.show_all Sample.sample_state in
  let run_store :=
    run (VectorStore.search_vector_store "weather" Sample.short_index
           Sample.sample_chunks Sample.unit_embedding 4)
      Sample.show_all Sample.sample_state in
  fst run_semantic = Return [3; 4; 5; 6]
  /\ map (heap (snd run_semantic)) [3; 4; 5; 6]
     = [with_similarity_score Sample.methods_c 0%Q;
        with_similarity_score Sample.methods_a 1%Q;
        with_similarity_score Sample.intro_b 2%Q;
        with_similarity_score Sample.methods_c Sample.float_max]
  /\ run_store = run_semantic
  /\ py_index Sample.sample_chunks (-1) = Some 2.
Proof. vm_compute. repeat split. Qed.

(** C7, the failing input.  A query that names the sections of the sample
    document is answered on the structural path, and after it the three
    chunk dicts of the input list carry a rerank score: the re-ranker wrote
    to the shared dicts.  A query that names no section is answered on the
    semantic path, which works on copies and leaves the three dicts as they
    were. *)
Theorem structural_path_writes_shared_chunks :
  let after_structural :=
    snd (run (advanced_retrieval "intro and methods" Sample.short_index
                Sample.sample_chunks Sample.unit_embedding Sample.by_length)
           Sample.show_all Sample.sample_state) in
  let after_semantic :=
    snd (run (advanced_retrieval "weather" Sample.short_index
                Sample.sample_chunks Sample.unit_embedding Sample.by_length)
           Sample.show_all Sample.sample_state) in
  map (heap after_structural) Sample.sample_chunks
  = [with_rerank_score Sample.methods_a 10%Q;
     with_rerank_score Sample.intro_b 9%Q;
     with_rerank_score Sample.methods_c 10%Q]
  /\ map (heap after_structural) Sample.sample_chunks
     <> map (heap Sample.sample_state) Sample.sample_chunks
  /\ map (heap after_semantic) Sample.sample_chunks
     = map (heap Sample.sample_state) Sample.sample_chunks.
Proof.
  vm_compute. split; [reflexivity|]. split; [discriminate|reflexivity].
Qed.

(** ** The retriever *)

Module Retriever.
Local Open Scope py_scope.

Lemma returns_ret {A} (st : Streamlit) (a : A) : returns st (ret a).
Proof. intros s. now exists a, s. Qed.

Lemma returns_bind {A B} (st : Streamlit) (m : M A) (f : A -> M B) :
  returns st m -> (forall a, returns st (f a)) -> returns st (bind m f).
Proof.
  intros Hm Hf s. destruct (Hm s) as (a & s1 & E).
  destruct (Hf a s1) as (b & s2 & E2). exists b, s2.
  unfold bind. now rewrite E.
Qed.

Lemma returns_try_except {A} (st : Streamlit) (m : M A) (h : exn -> M A) :
  (forall e, returns st (h e)) -> returns st (try_except m h).
Proof.
  intros Hh s. unfold try_except. destruct (m st s) as [[a|e] s1].
  - now exists a, s1.
  - apply Hh.
Qed.

Lemma returns_st_show (st : Streamlit) (m : UiMsg) :
  ui_ok st -> returns st (st_show m).
Proof.
  intros Hok s. unfold st_show. rewrite Hok. now eexists _, _.
Qed.

Lemma semantic_search_returns (st : Streamlit) (query : string)
    (index : IndexFlatL2) (chunks : list loc) (model : SentenceTransformer)
    (top_k : Z) :
  ui_ok st -> returns st (semantic_search query index chunks model top_k).
Proof.
  intros Hok. apply returns_try_except. intros e.
  apply returns_bind; [now apply returns_st_show|intros _; apply returns_ret].
Qed.

Lemma rerank_results_returns (st : Streamlit) (query : string)
    (chunks : list loc) (reranker : CrossEncoder) :
  ui_ok st -> returns st (rerank_results query chunks reranker).
Proof.
  intros Hok. unfold rerank_results. destruct chunks; [apply returns_ret|].
  apply returns_try_except. intros e.
  apply returns_bind; [now apply returns_st_show|intros _; apply returns_ret].
Qed.

Lemma structural_search_returns (st : Streamlit) (query : string)
    (chunks : list loc) :
  ui_ok st -> returns st (structural_search query chunks).
Proof.
  intros Hok s. eexists _, _.
  now apply (StructuralMatcher.structural_search_run st s query chunks).
Qed.

(** With a working Streamlit the failures of the embedding model, of the
    index and of the cross-encoder stay inside [advanced_retrieval]. *)
Lemma advanced_retrieval_returns (st : Streamlit) (query : string)
    (index : IndexFlatL2) (chunks : list loc) (model : SentenceTransformer)
    (reranker : CrossEncoder) :
  ui_ok st -> returns st (advanced_retrieval query index chunks model reranker).
Proof.
  intros Hok. unfold advanced_retrieval.
  apply returns_bind; [now apply structural_search_returns|].
  intros [|c r].
  - apply returns_bind; [now apply returns_st_show|intros _].
    apply returns_bind; [now apply semantic_search_returns|].
    intros [|c r]; [apply returns_ret|].
    apply returns_bind; [now apply rerank_results_returns|].
    intros rs. apply returns_ret.
  - apply returns_bind; [now apply rerank_results_returns|].
    intros rs. apply returns_ret.
Qed.

End Retriever.

(** C10, as amended.  [retrieve] always returns a record, in the state that
    [advanced_retrieval] leaves.  When [advanced_retrieval] raises [e], the
    record has [success = False], the error [str(e)], no chunks, the context
    "Error occurred during retrieval." and the statistics of the empty
    list; when it returns chunks, the record has [success = True], these
    chunks, their context and their statistics.  With a working Streamlit
    [advanced_retrieval] does not raise, whatever the embedding model, the
    index and the cross-encoder do, so the record is one of success. *)
Theorem retrieve_always_returns_record (st : Streamlit) (s : State)
    (self : AdvancedRetriever) (query : string) (index : IndexFlatL2)
    (chunks : list loc) :
  let inner :=
    run (advanced_retrieval query index chunks
           (embeddings_model self) (reranker self)) st s in
  run (retrieve self query index chunks) st s
  = (Return
       match fst inner with
       | Return retrieved_chunks =>
           mkResult true None retrieved_chunks
             (format_context_for_llm (heap (snd inner)) retrieved_chunks)
             (get_search_statistics (heap (snd inner)) retrieved_chunks)
             query
       | Raise e =>
           mkResult false (Some e) [] "Error occurred during retrieval."
             (mkStats 0 0 0 0%Q (0%Q, 0%Q)) query
       end,
     snd inner)
  /\ (ui_ok st -> exists retrieved_chunks, fst inner = Return retrieved_chunks).
Proof.
  cbv zeta. unfold run. split.
  - unfold retrieve, try_except, bind at 1.
    destruct (advanced_retrieval query index chunks (embeddings_model self)
                (reranker self) st s) as [[rs|e] s1]; reflexivity.
  - intros Hok.
    destruct (Retriever.advanced_retrieval_returns st query index chunks
                (embeddings_model self) (reranker self) Hok s) as (rs & s1 & E).
    exists rs. now rewrite E.
Qed.

(** The theorem at the sample document: the semantic answer to a query that
    names no section. *)
Lemma retrieve_always_returns_record_witness :
  exists r,
    fst (run (retrieve (mkRetriever Sample.unit_embedding Sample.by_length)
                "weather" Sample.short_index Sample.sample_chunks)
           Sample.show_all Sample.sample_state) = Return r
    /\ success r = true.
Proof.
  destruct (retrieve_always_returns_record Sample.show_all Sample.sample_state
              (mkRetriever Sample.unit_embedding Sample.by_length)
              "weather" Sample.short_index Sample.sample_chunks) as [E H].
  destruct H as (rs & Hrs); [intros m; reflexivity|].
  rewrite Hrs in E. eexists. split; [rewrite E; reflexivity|reflexivity].
Defined.

(** C10 as stated fails twice.  The embedding model raises, the exception
    is handled inside [semantic_search], and the record is one of success
    with no chunks.  And when Streamlit raises an exception without a
    message in [advanced_retrieval], the record is one of failure whose
    error string is empty. *)
Lemma retrieve_success_after_raise_and_empty_error :
  let absorbed :=
    run (retrieve (mkRetriever Sample.encoder_down Sample.by_length)
           "weather" Sample.short_index Sample.sample_chunks)
      Sample.show_all Sample.sample_state in
  let failed :=
    run (retrieve (mkRetriever Sample.unit_embedding Sample.by_length)
           "weather" Sample.short_index Sample.sample_chunks)
      Sample.show_fails Sample.sample_state in
  Sample.encoder_down ["weather"] = inl "encoder down"
  /\ trace (snd absorbed)
     = [EvSt NoSectionMatch; EvEncode ["weather"];
        EvSt (SemanticSearchError "encoder down")]
  /\ fst absorbed
     = Return (mkResult true None [] "No relevant context found."
                 (mkStats 0 0 0 0%Q (0%Q, 0%Q)) "weather")
  /\ fst failed
     = Return (mkResult false (Some EmptyString) []
                 "Error occurred during retrieval."
                 (mkStats 0 0 0 0%Q (0%Q, 0%Q)) "weather").
Proof. vm_compute. repeat split. Qed.

(** ** Text up to white space *)

Module Text.
Import PyStr.
Local Open Scope string_scope.

Lemma append_nil_r (s : string) : s ++ "" = s.
Proof. induction s as [|c s IH]; simpl; [reflexivity|now rewrite IH]. Qed.

Lemma append_assoc (a b c : string) : (a ++ b) ++ c = a ++ b ++ c.
Proof. induction a as [|x a IH]; simpl; [reflexivity|now rewrite IH]. Qed.

Lemma cat_app (l1 l2 : list string) : cat (l1 ++ l2) = cat l1 ++ cat l2.
Proof.
  induction l1 as [|x l1 IH]; simpl; [reflexivity|].
  now rewrite IH, append_assoc.
Qed.

Lemma squeeze_app (a b : string) : squeeze (a ++ b) = squeeze a ++ squeeze b.
Proof.
  induction a as [|x a IH]; simpl; [reflexivity|].
  destruct (is_space x); simpl; now rewrite IH.
Qed.

Lemma squeeze_cat (l : list string) : squeeze (cat l) = cat (map squeeze l).
Proof.
  induction l as [|x l IH]; simpl; [reflexivity|].
  now rewrite squeeze_app, IH.
Qed.

Lemma squeeze_lstrip (s : string) : squeeze (lstrip s) = squeeze s.
Proof.
  induction s as [|c s IH]; simpl; [reflexivity|].
  destruct (is_space c) eqn:E; [exact IH|]. simpl. now rewrite E.
Qed.

Lemma rstrip_empty (s : string) : rstrip s = "" <-> squeeze s = "".
Proof.
  induction s as [|c s IH]; simpl; [tauto|].
  destruct (rstrip s) eqn:R; destruct (is_space c) eqn:E.
  - split; [intros _; now apply IH|reflexivity].
  - split; discriminate.
  - split; [discriminate|]. intros H. apply IH in H. discriminate.
  - split; discriminate.
Qed.

Lemma squeeze_rstrip (s : string) : squeeze (rstrip s) = squeeze s.
Proof.
  induction s as [|c s IH]; simpl; [reflexivity|].
  destruct (rstrip s) eqn:R.
  - assert (H : squeeze s = "") by now apply rstrip_empty.
    destruct (is_space c) eqn:E; simpl; rewrite ?E, H; reflexivity.
  - simpl. simpl in IH. rewrite IH. reflexivity.
Qed.

Lemma squeeze_strip (s : string) : squeeze (strip s) = squeeze s.
Proof. unfold strip. now rewrite squeeze_rstrip, squeeze_lstrip. Qed.

(** A text is blank exactly when nothing is left of it without white
    space. *)
Lemma strip_empty (s : string) : strip s = "" <-> squeeze s = "".
Proof. unfold strip. now rewrite rstrip_empty, squeeze_lstrip. Qed.

Lemma truthy_strip (s : string) : truthy (strip s) = truthy (squeeze s).
Proof.
  destruct (strip s) eqn:S.
  - apply strip_empty in S. now rewrite S.
  - destruct (squeeze s) eqn:Q; [|reflexivity].
    apply strip_empty in Q. congruence.
Qed.

Lemma truthy_false (s : string) : truthy s = false <-> s = "".
Proof. destruct s; simpl; split; congruence. Qed.

Lemma squeeze_nl : squeeze nl = "".
Proof. reflexivity. Qed.

Lemma newline_is_space (c : ascii) : (code c =? 10)%nat = true -> is_space c = true.
Proof.
  intros H. apply Nat.eqb_eq in H. unfold is_space. now rewrite H.
Qed.

(** Splitting into lines loses newlines only. *)
Lemma squeeze_split_nl (s : string) : cat (map squeeze (split_nl s)) = squeeze s.
Proof.
  induction s as [|c s IH]; simpl; [reflexivity|].
  destruct (code c =? 10)%nat eqn:E.
  - simpl. rewrite IH. now rewrite (newline_is_space c E).
  - destruct (split_nl s) as [|h t] eqn:S; simpl in *.
    + rewrite <- IH. now destruct (is_space c).
    + rewrite <- IH. destruct (is_space c); simpl; reflexivity.
Qed.

Lemma append_empty (a b : string) : a ++ b = "" -> a = "" /\ b = "".
Proof. destruct a; simpl; [tauto|discriminate]. Qed.

End Text.

(** ** The segmenter *)

Module Segmenter.
Import PdfProcessor.
Local Open Scope py_scope.

(** The page loop, when Streamlit shows the progress. *)
Lemma page_loop (st : Streamlit) (total_pages : nat) :
  ui_ok st ->
  forall (l : list (nat * string)) acc s,
  exists s',
    foldM (fun (acc : list Block * string * string) (p : nat * string) =>
             let '(structured_text, current_heading, total_text_extracted) := acc in
             let '(page_num, page_text) := p in
             let '(structured_text', current_heading') :=
               scan_page page_num page_text structured_text current_heading in
             st_show (ProgressStep (page_num + 1) total_pages) ;;
             ret (structured_text', current_heading',
                  (total_text_extracted ++ page_text)%string))
          acc l st s
    = (Return (scan_pages l acc), s')
    /\ heap s' = heap s.
Proof.
  intros Hok l. induction l as [|[n page] l IH]; intros [[bs hd] total] s.
  - exists s. split; reflexivity.
  - simpl. unfold bind at 1.
    destruct (scan_page n page bs hd) as [bs' hd'] eqn:E.
    unfold bind at 1, st_show at 1. rewrite Hok. unfold ret at 1.
    destruct (IH (bs', hd', (total ++ page)%string)
                (log (EvSt (ProgressStep (n + 1) total_pages)) s))
      as (s' & R & H).
    exists s'. split; [exact R|exact H].
Qed.

Lemma extract_run (st : Streamlit) (s : State) (doc : list string) :
  ui_ok st ->
  exists s',
    run (extract_structured_text doc) st s = (Return (segment doc), s')
    /\ heap s' = heap s.
Proof.
  intros Hok. unfold run, extract_structured_text, segment.
  destruct doc as [|p0 r0] eqn:Ed.
  - simpl. unfold bind, st_show. rewrite Hok. eexists. split; reflexivity.
  - rewrite <- Ed. replace (List.length doc) with (S (List.length r0))
      by (rewrite Ed; reflexivity).
    replace (S (List.length r0)) with (List.length doc) by (rewrite Ed; reflexivity).
    unfold bind at 1, st_show at 1. rewrite Hok.
    unfold bind at 1.
    destruct (page_loop st (List.length doc) Hok (enumerate doc)
                ([], Config.DEFAULT_HEADING, EmptyString) (log (EvSt ProgressStart) s))
      as (s1 & R & H1).
    rewrite R.
    destruct (scan_pages (enumerate doc) ([], Config.DEFAULT_HEADING, EmptyString))
      as [[bs hd] total].
    unfold bind at 1, st_show at 1. rewrite Hok.
    destruct (negb (PyStr.truthy (PyStr.strip total))).
    + unfold bind, st_show. rewrite Hok. eexists. split; [reflexivity|exact H1].
    + destruct bs.
      * unfold bind, st_show. rewrite Hok. eexists. split; [reflexivity|exact H1].
      * eexists. split; [reflexivity|exact H1].
Qed.

End Segmenter.

(** ** What the blocks hold *)

Module Blocks.
Import PdfProcessor PyStr Text.

Lemma flush_contents (n : nat) (bs : list Block) (hd buf : string) :
  squeeze (contents (flush n bs hd buf))
  = (squeeze (contents bs) ++ squeeze buf)%string.
Proof.
  unfold flush, contents. destruct (truthy (strip buf)) eqn:T.
  - rewrite map_app, cat_app, squeeze_app. simpl.
    now rewrite append_nil_r, squeeze_strip.
  - apply truthy_false, strip_empty in T. now rewrite T, append_nil_r.
Qed.

Lemma flush_nonblank (n : nat) (bs : list Block) (hd buf : string) :
  Forall nonblank bs -> Forall nonblank (flush n bs hd buf).
Proof.
  intros H. unfold flush. destruct (truthy (strip buf)) eqn:T; [|exact H].
  apply Forall_app. split; [exact H|]. repeat constructor.
  unfold nonblank. simpl. rewrite squeeze_strip. intros Q.
  rewrite truthy_strip, Q in T. discriminate.
Qed.

Lemma flush_from_empty (n : nat) (bs : list Block) (hd buf : string) :
  flush n bs hd buf = bs ++ flush n [] hd buf.
Proof. unfold flush. destruct (truthy (strip buf)); [reflexivity|now rewrite app_nil_r]. Qed.

(** One line: what is kept of it goes to the blocks or to the buffer. *)
Lemma scan_line_kept (n : nat) (bs : list Block) (hd buf line : string) :
  let '(bs', _, buf') := scan_line n (bs, hd, buf) line in
  (squeeze (contents bs') ++ squeeze buf')%string
  = (squeeze (contents bs) ++ squeeze buf
     ++ squeeze (if kept line then line else EmptyString))%string
  /\ (Forall nonblank bs -> Forall nonblank bs').
Proof.
  unfold scan_line, kept, is_heading_line.
  destruct (truthy (strip line)) eqn:T; simpl.
  - destruct (heading_regex_match (strip line)); simpl.
    + rewrite flush_contents, !append_nil_r.
      split; [reflexivity|apply flush_nonblank].
    + rewrite !squeeze_app, squeeze_nl, append_nil_r. split; [reflexivity|tauto].
  - apply truthy_false, strip_empty in T. rewrite T, append_nil_r.
    split; [reflexivity|tauto].
Qed.

Lemma scan_lines_kept (n : nat) (lines : list string) :
  forall bs hd buf,
    let '(bs', _, buf') := fold_left (scan_line n) lines (bs, hd, buf) in
    (squeeze (contents bs') ++ squeeze buf')%string
    = (squeeze (contents bs) ++ squeeze buf
       ++ squeeze (cat (filter kept lines)))%string
    /\ (Forall nonblank bs -> Forall nonblank bs').
Proof.
  induction lines as [|line lines IH]; intros bs hd buf.
  - simpl. rewrite append_nil_r. tauto.
  - cbn [fold_left filter]. generalize (scan_line_kept n bs hd buf line).
    destruct (scan_line n (bs, hd, buf) line) as [[bs1 hd1] buf1].
    cbv beta iota. intros [H1 H2]. generalize (IH bs1 hd1 buf1).
    destruct (fold_left (scan_line n) lines (bs1, hd1, buf1)) as [[bs2 hd2] buf2].
    cbv beta iota. intros [I1 I2]. split; [|tauto].
    rewrite I1, <- append_assoc, H1, !append_assoc.
    destruct (kept line); simpl; [now rewrite squeeze_app|reflexivity].
Qed.

Lemma scan_page_kept (n : nat) (page : string) (bs : list Block) (hd : string) :
  squeeze (contents (fst (scan_page n page bs hd)))
  = (squeeze (contents bs)
     ++ squeeze (cat (filter kept (split_nl page))))%string
  /\ (Forall nonblank bs -> Forall nonblank (fst (scan_page n page bs hd))).
Proof.
  unfold scan_page. generalize (scan_lines_kept n (split_nl page) bs hd EmptyString).
  destruct (fold_left (scan_line n) (split_nl page) (bs, hd, EmptyString))
    as [[bs1 hd1] buf1].
  cbv beta iota. intros [H1 H2]. simpl fst. rewrite flush_contents, H1. simpl.
  split; [reflexivity|]. intros F. now apply flush_nonblank, H2.
Qed.

(** All pages: the blocks hold the text without its heading lines, and the
    whole text has been gathered. *)
Lemma scan_pages_kept (l : list (nat * string)) :
  forall bs hd total,
    let '(bs', _, total') := scan_pages l (bs, hd, total) in
    squeeze (contents bs')
    = (squeeze (contents bs) ++ squeeze (body_text (map snd l)))%string
    /\ total' = (total ++ cat (map snd l))%string
    /\ (Forall nonblank bs -> Forall nonblank bs').
Proof.
  induction l as [|[n page] l IH]; intros bs hd total.
  - simpl. rewrite !append_nil_r. tauto.
  - unfold scan_pages. cbn [fold_left fst snd map].
    generalize (scan_page_kept n page bs hd).
    destruct (scan_page n page bs hd) as [bs1 hd1]. simpl fst.
    intros [H1 H2].
    generalize (IH bs1 hd1 (total ++ page)%string).
    fold (scan_pages l (bs1, hd1, (total ++ page)%string)).
    destruct (scan_pages l (bs1, hd1, (total ++ page)%string)) as [[bs2 hd2] t2].
    cbv beta iota. intros (I1 & I2 & I3). split; [|split; [|tauto]].
    + rewrite I1, H1. unfold body_text. simpl.
      now rewrite squeeze_app, append_assoc.
    + now rewrite I2, append_assoc.
Qed.

Lemma map_snd_enumerate {A} (l : list A) : map snd (enumerate l) = l.
Proof.
  unfold enumerate. generalize 0. induction l as [|x l IH]; intros a; simpl;
    [reflexivity|now rewrite IH].
Qed.

(** All blank blocks together are blank. *)
Lemma contents_blank (bs : list Block) :
  Forall nonblank bs -> squeeze (contents bs) = EmptyString -> bs = [].
Proof.
  destruct 1 as [|b bs Hb _]; [reflexivity|].
  unfold contents. simpl. rewrite squeeze_app. intros H.
  apply append_empty in H. destruct H as [H _]. contradiction.
Qed.

End Blocks.

(** ** Documents without headings *)

Module Plain.
Import PdfProcessor PyStr Text Blocks.

Lemma scan_lines_plain (n : nat) (lines : list string) :
  (forall line, In line lines -> is_heading_line line = false) ->
  forall bs hd buf,
    fold_left (scan_line n) lines (bs, hd, buf)
    = (bs, hd, (buf ++ buffer_of lines)%string).
Proof.
  induction lines as [|line lines IH]; intros H bs hd buf.
  - simpl. now rewrite append_nil_r.
  - cbn [fold_left]. unfold scan_line at 2, buffer_of. cbn [filter].
    assert (Hl := H line (or_introl eq_refl)). unfold is_heading_line in Hl.
    destruct (truthy (strip line)); simpl in Hl |- *.
    + rewrite Hl, IH by (intros l' Hl'; apply H; now right).
      unfold buffer_of. now rewrite !append_assoc.
    + now rewrite IH by (intros l' Hl'; apply H; now right).
Qed.

Lemma scan_page_plain (n : nat) (page : string) (bs : list Block) (hd : string) :
  (forall line, In line (split_nl page) -> is_heading_line line = false) ->
  scan_page n page bs hd
  = (bs ++ flush n [] hd (buffer_of (split_nl page)), hd).
Proof.
  intros H. unfold scan_page. rewrite scan_lines_plain by exact H.
  simpl append. now rewrite flush_from_empty.
Qed.

Lemma scan_pages_plain (doc : list string) :
  (forall page line, In page doc -> In line (split_nl page) ->
                     is_heading_line line = false) ->
  forall a bs total,
    scan_pages (combine (seq a (List.length doc)) doc)
      (bs, Config.DEFAULT_HEADING, total)
    = (bs ++ page_blocks a doc, Config.DEFAULT_HEADING,
       (total ++ cat doc)%string).
Proof.
  induction doc as [|page doc IH]; intros H a bs total.
  - simpl. now rewrite app_nil_r, append_nil_r.
  - unfold scan_pages. cbn [List.length seq combine fold_left fst snd].
    rewrite scan_page_plain by (intros line Hl; apply (H page); [now left|exact Hl]).
    fold (scan_pages (combine (seq (S a) (List.length doc)) doc)
            (bs ++ flush a [] Config.DEFAULT_HEADING (buffer_of (split_nl page)),
             Config.DEFAULT_HEADING, (total ++ page)%string)).
    rewrite IH by (intros p l Hp Hl; apply (H p); [now right|exact Hl]).
    simpl. now rewrite <- app_assoc, append_assoc.
Qed.

Lemma filter_all {A} (p : A -> bool) (l : list A) :
  (forall x, In x l -> p x = true) -> filter p l = l.
Proof.
  induction l as [|x l IH]; intros H; simpl; [reflexivity|].
  rewrite (H x (or_introl eq_refl)), IH; [reflexivity|].
  intros y Hy. apply H. now right.
Qed.

Lemma body_text_plain (doc : list string) :
  (forall page line, In page doc -> In line (split_nl page) ->
                     is_heading_line line = false) ->
  squeeze (body_text doc) = squeeze (cat doc).
Proof.
  induction doc as [|page doc IH]; intros H; [reflexivity|].
  unfold body_text in *. simpl. rewrite !squeeze_app.
  rewrite IH by (intros p l Hp Hl; apply (H p); [now right|exact Hl]).
  f_equal. rewrite filter_all.
  - now rewrite squeeze_cat, squeeze_split_nl.
  - intros line Hl. now rewrite (H page line (or_introl eq_refl) Hl).
Qed.

(** The buffer of a page holds the page, up to white space. *)
Lemma buffer_squeeze (lines : list string) :
  squeeze (buffer_of lines) = cat (map squeeze lines).
Proof.
  unfold buffer_of. induction lines as [|line lines IH]; simpl; [reflexivity|].
  destruct (truthy (strip line)) eqn:T; simpl.
  - now rewrite !squeeze_app, squeeze_nl, append_nil_r, IH.
  - apply truthy_false, strip_empty in T. now rewrite T, IH.
Qed.

Lemma buffer_truthy (page : string) :
  truthy (strip (buffer_of (split_nl page))) = truthy (strip page).
Proof. now rewrite !truthy_strip, buffer_squeeze, squeeze_split_nl. Qed.

Lemma page_blocks_count (doc : list string) :
  forall a, List.length (page_blocks a doc)
            = List.length (filter (fun page => truthy (strip page)) doc).
Proof.
  induction doc as [|page doc IH]; intros a; simpl; [reflexivity|].
  rewrite length_app, IH. unfold flush. rewrite buffer_truthy.
  now destruct (truthy (strip page)).
Qed.

Lemma page_blocks_heading (doc : list string) :
  forall a, Forall (fun b => block_heading b = Config.DEFAULT_HEADING)
              (page_blocks a doc).
Proof.
  induction doc as [|page doc IH]; intros a; simpl; [constructor|].
  apply Forall_app. split; [|apply IH].
  unfold flush. destruct (truthy _); repeat constructor.
Qed.

End Plain.

Import PdfProcessor.

(** C2, as amended.  For a document whose text is not blank, when Streamlit
    shows the progress, the segmenter returns at least one block.  The
    contents of the blocks, one after the other, are the text of the
    document without its heading lines, up to white space; when nothing but
    heading lines is there, the single block "Document Content" holds the
    whole stripped text. *)
Theorem segmenter_keeps_text_outside_headings (st : Streamlit) (s : State)
    (doc : list string) :
  ui_ok st ->
  PyStr.truthy (PyStr.strip (cat doc)) = true ->
  exists blocks s',
    run (extract_structured_text doc) st s = (Return (blocks, List.length doc), s')
    /\ blocks <> []
    /\ (PyStr.squeeze (body_text doc) <> EmptyString ->
        PyStr.squeeze (cat (map content blocks)) = PyStr.squeeze (body_text doc))
    /\ (PyStr.squeeze (body_text doc) = EmptyString ->
        blocks = [mkBlock 1 "Document Content" (PyStr.strip (cat doc))]).
Proof.
  intros Hok Htext.
  destruct (Segmenter.extract_run st s doc Hok) as (s' & Hrun & _).
  unfold segment in Hrun. destruct doc as [|p0 r0] eqn:Ed; [discriminate|].
  rewrite <- Ed in *.
  generalize (Blocks.scan_pages_kept (enumerate doc) [] Config.DEFAULT_HEADING
                EmptyString).
  destruct (scan_pages (enumerate doc) ([], Config.DEFAULT_HEADING, EmptyString))
    as [[bs hd] total].
  rewrite Blocks.map_snd_enumerate. simpl.
  intros (H1 & -> & H3). specialize (H3 (Forall_nil _)).
  rewrite Htext in Hrun. simpl in Hrun.
  fold (contents bs) in H1.
  destruct bs as [|b bs'] eqn:Eb.
  - eexists _, s'. split; [exact Hrun|]. split; [discriminate|].
    split; [|reflexivity]. intros Hne. now rewrite <- H1 in Hne.
  - rewrite <- Eb in *. exists bs, s'. split; [exact Hrun|].
    split; [rewrite Eb; discriminate|]. split.
    + intros _. exact H1.
    + intros Hb. rewrite Hb in H1.
      apply (Blocks.contents_blank bs H3) in H1. congruence.
Qed.

(** The theorem at a page with one heading line. *)
Lemma segmenter_keeps_text_outside_headings_witness :
  exists blocks,
    fst (run (extract_structured_text [Sample.headed_page])
           Sample.show_all Sample.sample_state) = Return (blocks, 1)
    /\ blocks <> [].
Proof.
  destruct (segmenter_keeps_text_outside_headings Sample.show_all
              Sample.sample_state [Sample.headed_page])
    as (blocks & s' & Hrun & Hne & _).
  - intros m. reflexivity.
  - reflexivity.
  - exists blocks. rewrite Hrun. split; [reflexivity|exact Hne].
Defined.

(** C2 as stated fails: the heading line "1 Intro" of the page is in no
    content field. *)
Lemma segmenter_drops_heading_lines :
  fst (run (extract_structured_text [Sample.headed_page])
         Sample.show_all Sample.sample_state)
  = Return ([mkBlock 1 "1 Intro" "body"], 1)
  /\ PyStr.squeeze (cat (map content [mkBlock 1 "1 Intro" "body"])) = "body"
  /\ PyStr.squeeze (cat [Sample.headed_page]) = "1Introbody"
  /\ PyStr.squeeze (cat (map content [mkBlock 1 "1 Intro" "body"]))
     <> PyStr.squeeze (cat [Sample.headed_page]).
Proof.
  split; [reflexivity|]. split; [reflexivity|]. split; [reflexivity|].
  vm_compute. discriminate.
Qed.

(** C8, as amended.  For a document whose text is not blank and in which no
    line matches the heading pattern, when Streamlit shows the progress,
    the segmenter returns without error one block for each page that has
    text: the block carries the number of its page, the default heading
    "Introduction" and the lines of the page that are not blank. *)
Theorem segmenter_without_headings (st : Streamlit) (s : State)
    (doc : list string) :
  ui_ok st ->
  (forall page line, In page doc -> In line (PyStr.split_nl page) ->
                     is_heading_line line = false) ->
  PyStr.truthy (PyStr.strip (cat doc)) = true ->
  exists s',
    run (extract_structured_text doc) st s
    = (Return (page_blocks 0 doc, List.length doc), s')
    /\ page_blocks 0 doc <> []
    /\ List.length (page_blocks 0 doc)
       = List.length (filter (fun page => PyStr.truthy (PyStr.strip page)) doc)
    /\ Forall (fun b => block_heading b = "Introduction") (page_blocks 0 doc).
Proof.
  intros Hok Hplain Htext.
  destruct (Segmenter.extract_run st s doc Hok) as (s' & Hrun & _).
  exists s'.
  assert (Hne : page_blocks 0 doc <> []).
  { intros E.
    assert (H := Plain.page_blocks_count doc 0). rewrite E in H. simpl in H.
    assert (Q : PyStr.squeeze (cat doc) = EmptyString).
    { clear -H. induction doc as [|page doc IH]; [reflexivity|].
      simpl in *. rewrite Text.squeeze_app.
      destruct (PyStr.truthy (PyStr.strip page)) eqn:T; [discriminate|].
      apply Text.truthy_false, Text.strip_empty in T. rewrite T. now apply IH. }
    rewrite Text.truthy_strip, Q in Htext. discriminate. }
  split; [|split; [exact Hne|split]].
  - rewrite Hrun. unfold segment. destruct doc as [|p0 r0] eqn:Ed; [discriminate|].
    rewrite <- Ed in *. unfold enumerate.
    rewrite (Plain.scan_pages_plain doc Hplain 0 [] EmptyString).
    simpl app. simpl append. rewrite Htext. simpl negb. cbv iota.
    destruct (page_blocks 0 doc); [congruence|reflexivity].
  - apply Plain.page_blocks_count.
  - apply Plain.page_blocks_heading.
Qed.

(** The theorem at two pages of plain text. *)
Lemma segmenter_without_headings_witness :
  fst (run (extract_structured_text Sample.plain_pages)
         Sample.show_all Sample.sample_state)
  = Return (page_blocks 0 Sample.plain_pages, 2).
Proof.
  destruct (segmenter_without_headings Sample.show_all Sample.sample_state
              Sample.plain_pages) as (s' & Hrun & _).
  - intros m. reflexivity.
  - intros page line [<-|[<-|[]]] [<-|[]]; reflexivity.
  - reflexivity.
  - rewrite Hrun. reflexivity.
Defined.

(** C8 as stated fails: two pages of plain text give two blocks, one for
    each page, and not a single block that spans the text. *)
Lemma segmenter_without_headings_two_blocks :
  (forall page line, In page Sample.plain_pages ->
                     In line (PyStr.split_nl page) ->
                     is_heading_line line = false)
  /\ fst (run (extract_structured_text Sample.plain_pages)
            Sample.show_all Sample.sample_state)
     = Return ([mkBlock 1 "Introduction" "hello";
                mkBlock 2 "Introduction" "world"], 2)
  /\ (forall b, fst (run (extract_structured_text Sample.plain_pages)
                       Sample.show_all Sample.sample_state)
                <> Return ([b], 2)).
Proof.
  split; [|split].
  - intros page line [<-|[<-|[]]] [<-|[]]; reflexivity.
  - reflexivity.
  - intros b. vm_compute. discriminate.
Qed.

(** ** Validation *)

Module Validation.

Lemma filter_nil_iff {A} (p : A -> bool) (l : list A) :
  filter p l = [] <-> forall x, In x l -> p x = false.
Proof.
  induction l as [|x l IH]; simpl; [tauto|].
  destruct (p x) eqn:E.
  - split; [discriminate|]. intros H. specialize (H x (or_introl eq_refl)). congruence.
  - rewrite IH. split.
    + intros H y [<-|Hy]; [exact E|now apply H].
    + intros H y Hy. apply H. now right.
Qed.

Lemma validate_accepts (structured_text : list Block) (chunks : list Chunk) :
  structured_text <> [] -> chunks <> [] ->
  fst (validate_pdf_content structured_text chunks) = true
  <-> exists chunk, In chunk chunks /\ meaningful chunk = true.
Proof.
  intros Hb Hc. unfold validate_pdf_content.
  destruct structured_text; [congruence|]. destruct chunks as [|c r] eqn:Ec; [congruence|].
  rewrite <- Ec. destruct (filter meaningful chunks) as [|m ms] eqn:F; simpl.
  - split; [discriminate|]. intros (chunk & Hin & Hm).
    rewrite (proj1 (filter_nil_iff meaningful chunks) F chunk Hin) in Hm. discriminate.
  - split; [|reflexivity]. intros _. exists m.
    apply (filter_In meaningful m chunks). rewrite F. now left.
Qed.

Lemma validate_rejects (structured_text : list Block) (chunks : list Chunk) :
  structured_text <> [] -> chunks <> [] ->
  fst (validate_pdf_content structured_text chunks) = false ->
  snd (validate_pdf_content structured_text chunks)
  = "PDF content appears to be too short or fragmented".
Proof.
  intros Hb Hc. unfold validate_pdf_content.
  destruct structured_text; [congruence|]. destruct chunks as [|c r] eqn:Ec; [congruence|].
  rewrite <- Ec. destruct (filter meaningful chunks); simpl; [reflexivity|discriminate].
Qed.

End Validation.

(** C9.  Given blocks and chunks, both non-empty, [validate_pdf_content]
    accepts exactly when some chunk has a stripped text of more than 10
    characters, and rejects with the message of too short a content
    otherwise.  [process_pdf], whose segmenter and chunker have given these
    blocks and chunks, returns the results with the status [True] when the
    validation accepts, and otherwise the status [False] with the error
    message alone. *)
Theorem validation_threshold (st : Streamlit) (s s1 s2 : State)
    (text_splitter : TextSplitter) (pdf_file : list string)
    (structured_text : list Block) (total_pages : nat) (chunks : list Chunk) :
  structured_text <> [] -> chunks <> [] ->
  (fst (validate_pdf_content structured_text chunks) = true
   <-> exists chunk,
         In chunk chunks /\ 10 < String.length (PyStr.strip (text chunk)))
  /\ (fst (validate_pdf_content structured_text chunks) = false ->
      snd (validate_pdf_content structured_text chunks)
      = "PDF content appears to be too short or fragmented")
  /\ (run (extract_structured_text pdf_file) st s
      = (Return (structured_text, total_pages), s1) ->
      total_pages <> 0 ->
      run (create_metadata_chunks structured_text text_splitter) st s1
      = (Return chunks, s2) ->
      run (process_pdf text_splitter pdf_file) st s
      = (Return
           (if fst (validate_pdf_content structured_text chunks)
            then (true,
                  Results structured_text chunks total_pages
                    (List.length chunks)
                    (snd (validate_pdf_content structured_text chunks)))
            else (false,
                  Failed (snd (validate_pdf_content structured_text chunks)))),
         s2)).
Proof.
  intros Hb Hc. split; [|split].
  - rewrite (Validation.validate_accepts structured_text chunks Hb Hc).
    split; intros (chunk & Hin & Hm); exists chunk; (split; [exact Hin|]).
    + now apply Nat.ltb_lt.
    + now apply Nat.ltb_lt.
  - now apply Validation.validate_rejects.
  - intros He Hp Hk. unfold run in *. unfold process_pdf, try_except, Py.bind at 1.
    rewrite He. destruct structured_text as [|b bs] eqn:Eb; [congruence|].
    destruct total_pages as [|n]; [congruence|].
    rewrite <- Eb in *. unfold Py.bind. rewrite Hk.
    destruct (validate_pdf_content structured_text chunks) as [[|] message];
      reflexivity.
Qed.

(** The theorem at the page whose only text is "body": the one chunk is too
    short and the document is rejected. *)
Lemma validation_threshold_witness :
  fst (run (process_pdf Sample.whole_text [Sample.headed_page])
         Sample.show_all Sample.sample_state)
  = Return (false, Failed "PDF content appears to be too short or fragmented").
Proof.
  destruct (validation_threshold Sample.show_all Sample.sample_state
              (mkState Sample.sample_heap 3
                 [EvSt ProgressStart; EvSt (ProgressStep 1 1); EvSt ProgressEmpty])
              (mkState Sample.sample_heap 3
                 [EvSt ProgressStart; EvSt (ProgressStep 1 1); EvSt ProgressEmpty;
                  EvSplitText "body"])
              Sample.whole_text [Sample.headed_page]
              [mkBlock 1 "1 Intro" "body"] 1 [mkChunk "body" 1 "1 Intro" None None])
    as (_ & _ & H); [discriminate..|].
  rewrite H; [reflexivity|reflexivity|discriminate|reflexivity].
Defined.

(** * Further properties *)

Import Structure Notions.

(** ** What a computation does to the store *)

Module Frame.
Local Open Scope py_scope.

Section Keeps.
Context (R : State -> State -> Prop).
Hypothesis R_refl : forall s, R s s.
Hypothesis R_trans : forall a b c, R a b -> R b c -> R a c.
Hypothesis R_log : forall ev s, R s (log ev s).

Lemma keeps_ret {A} (a : A) : keeps R (ret a).
Proof. intros st s. apply R_refl. Qed.

Lemma keeps_raise {A} (e : exn) : keeps R (@raise A e).
Proof. intros st s. apply R_refl. Qed.

Lemma keeps_get_heap : keeps R get_heap.
Proof. intros st s. apply R_refl. Qed.

Lemma keeps_item {A} (l : list A) (i : nat) : keeps R (item l i).
Proof. unfold item. destruct (nth_error l i); [apply keeps_ret|apply keeps_raise]. Qed.

Lemma keeps_getitem {A} (l : list A) (i : Z) : keeps R (getitem l i).
Proof. unfold getitem. destruct (py_index l i); [apply keeps_ret|apply keeps_raise]. Qed.

Lemma keeps_call {A} (ev : Event) (r : exn + A) : keeps R (call ev r).
Proof. intros st s. unfold call. destruct r; apply R_log. Qed.

Lemma keeps_st_show (m : UiMsg) : keeps R (st_show m).
Proof. intros st s. unfold st_show. destruct (st m); apply R_log. Qed.

Lemma keeps_bind {A B} (m : M A) (f : A -> M B) :
  keeps R m -> (forall a, keeps R (f a)) -> keeps R (bind m f).
Proof.
  intros Hm Hf st s. specialize (Hm st s). unfold bind.
  destruct (m st s) as [[a|e] s1]; simpl in *; [|exact Hm].
  eapply R_trans; [exact Hm|apply Hf].
Qed.

Lemma keeps_try_except {A} (m : M A) (h : exn -> M A) :
  keeps R m -> (forall e, keeps R (h e)) -> keeps R (try_except m h).
Proof.
  intros Hm Hh st s. specialize (Hm st s). unfold try_except.
  destruct (m st s) as [[a|e] s1]; simpl in *; [exact Hm|].
  eapply R_trans; [exact Hm|apply Hh].
Qed.

Lemma keeps_foldM {A B} (body : A -> B -> M A) (l : list B) :
  (forall acc x, In x l -> keeps R (body acc x)) ->
  forall acc, keeps R (foldM body acc l).
Proof.
  induction l as [|x l IH]; intros Hb acc; simpl.
  - apply keeps_ret.
  - apply keeps_bind; [apply Hb; now left|].
    intros acc'. apply IH. intros a y Hy. apply Hb. now right.
Qed.

Lemma keeps_forM_ {B} (body : B -> M unit) (l : list B) :
  (forall x, In x l -> keeps R (body x)) -> keeps R (forM_ body l).
Proof.
  induction l as [|x l IH]; intros Hb; simpl.
  - apply keeps_ret.
  - apply keeps_bind; [apply Hb; now left|].
    intros _. apply IH. intros y Hy. apply Hb. now right.
Qed.

Lemma keeps_mapM {A B} (f : A -> M B) (l : list A) :
  (forall x, keeps R (f x)) -> keeps R (mapM f l).
Proof.
  intros Hf. induction l as [|x l IH]; simpl.
  - apply keeps_ret.
  - apply keeps_bind; [apply Hf|intros y].
    apply keeps_bind; [exact IH|intros ys; apply keeps_ret].
Qed.

End Keeps.

Lemma same_but_refl (c : Chunk) : same_but_rerank_score c c.
Proof. repeat split. Qed.

Lemma same_but_trans (a b c : Chunk) :
  same_but_rerank_score a b -> same_but_rerank_score b c ->
  same_but_rerank_score a c.
Proof. unfold same_but_rerank_score. intuition congruence. Qed.

Lemma rerank_touch_refl (chunks : list loc) (s : State) : rerank_touch chunks s s.
Proof. repeat split. Qed.

Lemma rerank_touch_trans (chunks : list loc) (a b c : State) :
  rerank_touch chunks a b -> rerank_touch chunks b c -> rerank_touch chunks a c.
Proof.
  intros (N1 & S1 & O1) (N2 & S2 & O2). split; [congruence|]. split.
  - intros l. eapply same_but_trans; [apply S1|apply S2].
  - intros l Hl. now rewrite O2, O1.
Qed.

Lemma rerank_touch_log (chunks : list loc) (ev : Event) (s : State) :
  rerank_touch chunks s (log ev s).
Proof. repeat split. Qed.

Lemma set_rerank_score_touch (chunks : list loc) (l : loc) (d : Q) :
  In l chunks -> keeps (rerank_touch chunks) (set_rerank_score l d).
Proof.
  intros Hl st s. unfold set_rerank_score. simpl. split; [reflexivity|]. split.
  - intros l'. unfold upd. simpl. destruct (Nat.eqb l' l) eqn:E; [|apply same_but_refl].
    apply Nat.eqb_eq in E. subst l'. repeat split.
  - intros l' Hn. unfold upd. simpl. destruct (Nat.eqb l' l) eqn:E; [|reflexivity].
    apply Nat.eqb_eq in E. subst l'. contradiction.
Qed.

Lemma rerank_results_touch (query : string) (chunks : list loc)
    (reranker : CrossEncoder) :
  keeps (rerank_touch chunks) (rerank_results query chunks reranker).
Proof.
  pose proof (rerank_touch_refl chunks) as Hr.
  pose proof (rerank_touch_trans chunks) as Ht.
  pose proof (rerank_touch_log chunks) as Hl.
  unfold rerank_results. destruct chunks as [|c0 r0] eqn:Ec; [now apply keeps_ret|].
  rewrite <- Ec in *. apply keeps_try_except; try assumption.
  - apply keeps_bind; try assumption; [now apply keeps_get_heap|intros h].
    apply keeps_bind; try assumption; [now apply keeps_call|intros scores].
    apply keeps_bind; try assumption.
    + apply keeps_forM_; try assumption. intros [i chunk] Hin.
      apply keeps_bind; try assumption; [now apply keeps_item|intros sc].
      apply set_rerank_score_touch.
      apply Reranker.enumerate_In in Hin. eapply nth_error_In, Hin.
    + intros _. apply keeps_bind; try assumption; [|intros k; now apply keeps_ret].
      apply keeps_mapM; try assumption. intros x. unfold rerank_key.
      apply keeps_bind; try assumption; [now apply keeps_get_heap|intros h'].
      destruct (rerank_score (h' x)); [now apply keeps_ret|now apply keeps_raise].
  - intros e. apply keeps_bind; try assumption;
      [now apply keeps_st_show|intros _; now apply keeps_ret].
Qed.

End Frame.

(** X1.  Whatever Streamlit and the cross-encoder do, [rerank_results]
    allocates nothing, leaves every dict outside the candidate list as it
    was, and changes nothing but the rerank score in the dicts of the
    candidates: text, page number, heading and similarity score stay. *)
Theorem rerank_results_writes_only_rerank_score (st : Streamlit) (s : State)
    (query : string) (chunks : list loc) (reranker : CrossEncoder) :
  let s' := snd (run (rerank_results query chunks reranker) st s) in
  next s' = next s
  /\ (forall l,
        text (heap s' l) = text (heap s l)
        /\ page_number (heap s' l) = page_number (heap s l)
        /\ heading (heap s' l) = heading (heap s l)
        /\ similarity_score (heap s' l) = similarity_score (heap s l))
  /\ (forall l, ~ In l chunks -> heap s' l = heap s l).
Proof.
  destruct (Frame.rerank_results_touch query chunks reranker st s)
    as (Hnext & Hsame & Hother).
  cbv zeta. split; [exact Hnext|]. split; [|exact Hother].
  intros l. destruct (Hsame l) as (Ht & Hp & Hh & Hs). now repeat split.
Qed.

(** The theorem at the sample document: a dict that is not a candidate is
    as it was after the re-ranking of the two others. *)
Lemma rerank_results_writes_only_rerank_score_witness :
  heap (snd (run (rerank_results "q" [0; 2] Sample.by_length)
               Sample.show_all Sample.sample_state)) 1
  = Sample.intro_b.
Proof.
  destruct (rerank_results_writes_only_rerank_score Sample.show_all
              Sample.sample_state "q" [0; 2] Sample.by_length) as (_ & _ & H).
  rewrite (H 1); [reflexivity|].
  intros [E|[E|[]]]; discriminate.
Defined.

Module ShortScores.
Local Open Scope py_scope.

(** The loop that writes the scores stops with [IndexError] at the first
    position that has no score. *)
Lemma write_loop_stops (st : Streamlit) (scores : list Q) (l1 : list (nat * loc)) :
  forall (i : nat) (c : loc) (l2 : list (nat * loc)) (s : State),
    (forall p, In p l1 -> fst p < List.length scores) ->
    List.length scores <= i ->
    exists e s',
      forM_ (fun p : nat * loc =>
               let '(i, chunk) := p in
               sc <- item scores i ;; set_rerank_score chunk sc)
            (l1 ++ (i, c) :: l2) st s
      = (Raise e, s')
      /\ trace s' = trace s.
Proof.
  induction l1 as [|[j x] l1 IH]; intros i c l2 s Hl Hi; simpl.
  - unfold bind at 1, bind at 1, item.
    assert (E : nth_error scores i = None) by now apply nth_error_None.
    rewrite E. unfold raise. now eexists _, _.
  - assert (Hj : j < List.length scores) by exact (Hl (j, x) (or_introl eq_refl)).
    unfold bind at 1, bind at 1, item.
    destruct (nth_error scores j) as [q|] eqn:E;
      [|apply nth_error_None in E; lia].
    unfold ret at 1, set_rerank_score at 1.
    destruct (IH i c l2
                (mkState (upd (heap s) x (with_rerank_score (heap s x) q))
                   (next s) (trace s))) as (e & s' & R & T);
      [intros p Hp; apply Hl; now right|exact Hi|].
    exists e, s'. split; [exact R|exact T].
Qed.

End ShortScores.

(** X2.  When the cross-encoder answers with fewer scores than there are
    candidates and Streamlit shows the error, [rerank_results] does not
    fail: the read past the last score is handled, and the candidates come
    back in the order given. *)
Theorem rerank_results_too_few_scores (st : Streamlit) (s : State)
    (query : string) (chunks : list loc) (reranker : CrossEncoder)
    (scores : list Q) :
  ui_ok st ->
  reranker (pairs_of query (heap s) chunks) = inr scores ->
  List.length scores < List.length chunks ->
  exists e s',
    run (rerank_results query chunks reranker) st s = (Return chunks, s')
    /\ trace s'
       = trace s ++ [EvPredict (pairs_of query (heap s) chunks);
                     EvSt (RerankingError e)].
Proof.
  intros Hok Hrr Hlen.
  destruct chunks as [|c0 r0]; [simpl in Hlen; lia|].
  unfold run, rerank_results, try_except, bind at 1, get_heap at 1, bind at 1,
    predict, call.
  change (map (fun chunk => (query, text (heap s chunk))) (c0 :: r0))
    with (pairs_of query (heap s) (c0 :: r0)).
  rewrite Hrr. remember (c0 :: r0) as chunks eqn:Ech. clear Ech c0 r0.
  destruct (nth_error chunks (List.length scores)) as [c|] eqn:Ec;
    [|apply nth_error_None in Ec; lia].
  assert (En : nth_error (enumerate chunks) (List.length scores)
               = Some (List.length scores, c))
    by (rewrite Reranker.nth_error_enumerate, Ec; reflexivity).
  destruct (nth_error_split _ _ En) as (l1 & l2 & El & Hl1).
  assert (H1 : forall p, In p l1 -> fst p < List.length scores).
  { intros p Hp. apply In_nth_error in Hp. destruct Hp as [j Hj].
    assert (Hjl : j < List.length l1) by (apply nth_error_Some; congruence).
    assert (Hj' : nth_error (enumerate chunks) j = Some p)
      by (rewrite El, nth_error_app1; assumption).
    rewrite Reranker.nth_error_enumerate in Hj'.
    destruct (nth_error chunks j); simpl in Hj'; [|discriminate].
    injection Hj' as <-. simpl. lia. }
  unfold bind at 1. rewrite El.
  destruct (ShortScores.write_loop_stops st scores l1 (List.length scores) c l2
              (log (EvPredict (pairs_of query (heap s) chunks)) s) H1 (le_n _))
    as (e & s1 & R & T).
  rewrite R. unfold bind, st_show. rewrite Hok. unfold ret.
  exists e. eexists. split; [reflexivity|].
  simpl. rewrite T. simpl. now rewrite <- app_assoc.
Qed.

(** The theorem at the sample document with a cross-encoder that gives one
    score for three candidates. *)
Lemma rerank_results_too_few_scores_witness :
  fst (run (rerank_results "q" [1; 0; 2] (fun _ => inr [1%Q]))
         Sample.show_all Sample.sample_state) = Return [1; 0; 2].
Proof.
  destruct (rerank_results_too_few_scores Sample.show_all Sample.sample_state
              "q" [1; 0; 2] (fun _ => inr [1%Q]) [1%Q])
    as (e & s' & R & _).
  - intros m. reflexivity.
  - reflexivity.
  - simpl. lia.
  - rewrite R. reflexivity.
Defined.

(** ** The vector search, continued *)

Module Neighbours.
Local Open Scope py_scope.

Lemma grows_refl (s : State) : grows s s.
Proof. split; [lia|reflexivity]. Qed.

Lemma grows_trans (a b c : State) : grows a b -> grows b c -> grows a c.
Proof.
  intros [N1 H1] [N2 H2]. split; [lia|].
  intros l Hl. rewrite H2 by lia. now apply H1.
Qed.

Lemma grows_log (ev : Event) (s : State) : grows s (log ev s).
Proof. split; [simpl; lia|reflexivity]. Qed.

(** One turn of the loop either skips the neighbour or allocates one dict,
    the copy, and returns it last. *)
Lemma collect_step (st : Streamlit) (s : State) (distances : list Q)
    (chunks acc : list loc) (p : nat * Z) :
  grows s (snd (collect distances chunks acc p st s))
  /\ forall acc' s1,
       collect distances chunks acc p st s = (Return acc', s1) ->
       (acc' = acc /\ s1 = s)
       \/ (acc' = acc ++ [next s] /\ next s1 = S (next s)).
Proof.
  destruct p as [i idx]. unfold collect.
  destruct (idx <? Z.of_nat (List.length chunks))%Z.
  - unfold bind at 1, getitem.
    destruct (py_index chunks idx) as [c|]; simpl;
      [|split; [apply grows_refl|discriminate]].
    unfold bind at 1, item. destruct (nth_error distances i) as [d|]; simpl.
    + split.
      * split; [simpl; lia|]. intros l Hl. simpl. unfold upd.
        assert (E : Nat.eqb l (next s) = false) by (apply Nat.eqb_neq; lia).
        now rewrite E.
      * intros acc' s1 H. injection H as <- <-. right. split; reflexivity.
    + split; [|discriminate].
      split; [simpl; lia|]. intros l Hl. simpl. unfold upd.
      assert (E : Nat.eqb l (next s) = false) by (apply Nat.eqb_neq; lia).
      now rewrite E.
  - split; [apply grows_refl|]. intros acc' s1 H. injection H as <- <-.
    left. split; reflexivity.
Qed.

Lemma collect_loop_fresh (st : Streamlit) (distances : list Q)
    (chunks : list loc) (n0 : nat) (l : list (nat * Z)) :
  forall acc s rs s',
    n0 <= next s ->
    Forall (fun r => n0 <= r < next s) acc -> NoDup acc ->
    foldM (collect distances chunks) acc l st s = (Return rs, s') ->
    Forall (fun r => n0 <= r < next s') rs /\ NoDup rs.
Proof.
  induction l as [|p l IH]; intros acc s rs s' Hn Ha Hd; simpl.
  - intros H. injection H as <- <-. now split.
  - unfold bind. destruct (collect_step st s distances chunks acc p) as [_ Hstep].
    destruct (collect distances chunks acc p st s) as [[acc'|e] s1];
      [|discriminate].
    destruct (Hstep acc' s1 eq_refl) as [[-> ->]|[-> Hs1]].
    + now apply IH.
    + apply IH; [lia| |].
      * apply Forall_app. split.
        -- eapply Forall_impl; [|exact Ha]. simpl. intros r Hr. lia.
        -- repeat constructor; lia.
      * apply NoDup_app; [exact Hd|repeat constructor; intros []|].
        intros r Hr [<-|[]]. rewrite Forall_forall in Ha.
        specialize (Ha _ Hr). lia.
Qed.

Lemma semantic_search_grows (query : string) (index : IndexFlatL2)
    (chunks : list loc) (model : SentenceTransformer) (top_k : Z) :
  keeps grows (semantic_search query index chunks model top_k).
Proof.
  pose proof grows_refl as Hr. pose proof grows_trans as Ht.
  pose proof grows_log as Hl.
  unfold semantic_search. apply Frame.keeps_try_except; try assumption.
  - apply Frame.keeps_bind; try assumption; [now apply Frame.keeps_call|intros v].
    apply Frame.keeps_bind; try assumption; [now apply Frame.keeps_call|].
    intros [distances indices]. apply Frame.keeps_foldM; try assumption.
    intros acc p _ st s. apply collect_step.
  - intros e. apply Frame.keeps_bind; try assumption;
      [now apply Frame.keeps_st_show|intros _; now apply Frame.keeps_ret].
Qed.

(** The loop on a row whose indices are not negative and whose positions
    all have a distance. *)
Lemma collect_loop (st : Streamlit) (distances : list Q) (chunks : list loc)
    (l : list (nat * Z)) :
  forall acc s,
    (forall p, In p l -> (0 <= snd p)%Z /\ fst p < List.length distances) ->
    Forall (fun c => c < next s) chunks ->
    exists new s',
      foldM (collect distances chunks) acc l st s = (Return (acc ++ new), s')
      /\ trace s' = trace s
      /\ grows s s'
      /\ map (heap s') new
         = map (neighbour (heap s) chunks distances) (filter (in_range chunks) l).
Proof.
  induction l as [|[i idx] l IH]; intros acc s Hl Hc.
  - exists [], s. simpl. rewrite app_nil_r. repeat split. lia.
  - destruct (Hl (i, idx) (or_introl eq_refl)) as [Hidx Hi]. simpl in Hidx, Hi.
    assert (Hl' : forall p, In p l -> (0 <= snd p)%Z /\ fst p < List.length distances)
      by (intros p Hp; apply Hl; now right).
    cbn [foldM filter]. unfold bind at 1, collect at 1, in_range at 1. cbn [snd].
    destruct (idx <? Z.of_nat (List.length chunks))%Z eqn:E.
    + apply Z.ltb_lt in E.
      assert (Hk : Z.to_nat idx < List.length chunks) by lia.
      destruct (nth_error chunks (Z.to_nat idx)) as [c|] eqn:Ec;
        [|apply nth_error_None in Ec; lia].
      destruct (nth_error distances i) as [d|] eqn:Ed;
        [|apply nth_error_None in Ed; lia].
      unfold bind at 1, getitem, py_index.
      assert (E0 : (0 <=? idx)%Z = true) by now apply Z.leb_le.
      rewrite E0, Ec. unfold ret at 1, bind at 1, copy at 1.
      unfold bind at 1, item. rewrite Ed. unfold ret at 1.
      unfold bind at 1, set_similarity_score at 1, ret at 1.
      cbn [heap next trace].
      set (s2 := mkState _ _ _).
      assert (Hc2 : Forall (fun c => c < next s2) chunks).
      { eapply Forall_impl; [|exact Hc]. simpl. intros a Ha. lia. }
      destruct (IH (acc ++ [next s]) s2 Hl' Hc2) as (new & s' & R & T & G & Hm).
      assert (G2 : grows s s2).
      { split; [simpl; lia|]. intros l0 Hl0. simpl. unfold upd.
        assert (E1 : Nat.eqb l0 (next s) = false) by (apply Nat.eqb_neq; lia).
        now rewrite E1. }
      exists (next s :: new), s'. split; [|split; [exact T|split]].
      * rewrite R. now rewrite <- app_assoc.
      * eapply grows_trans; [exact G2|exact G].
      * cbn [map]. f_equal.
        -- destruct G as [_ G]. rewrite G by (simpl; lia).
           subst s2. simpl. rewrite !Reranker.upd_same.
           unfold neighbour. cbn [fst snd].
           f_equal; [f_equal|]; symmetry.
           ++ exact (nth_error_nth chunks (Z.to_nat idx) 0 Ec).
           ++ exact (nth_error_nth distances i 0%Q Ed).
        -- rewrite Hm. apply map_ext_in. intros p Hp.
           apply filter_In in Hp. destruct Hp as [Hp Hr].
           unfold neighbour. f_equal. destruct G2 as [_ G2]. apply G2.
           unfold in_range in Hr. apply Z.ltb_lt in Hr.
           destruct (Hl' p Hp) as [Hp0 _].
           rewrite Forall_forall in Hc. apply Hc, nth_In. lia.
    + unfold ret at 1. destruct (IH acc s Hl' Hc) as (new & s' & R & T & G & Hm).
      exists new, s'. split; [exact R|split; [exact T|split; [exact G|exact Hm]]].
Qed.

End Neighbours.

(** X3.  When Streamlit shows the error, a failure of the embedding model
    or of the index makes both vector searches return the empty list; the
    store is as it was, and after a failure of the embedding model the
    index has not been searched. *)
Theorem vector_search_collaborator_failure (st : Streamlit) (s : State)
    (query : string) (index : IndexFlatL2) (chunks : list loc)
    (model : SentenceTransformer) (top_k : Z) :
  ui_ok st ->
  (forall e,
     model [query] = inl e ->
     run (semantic_search query index chunks model top_k) st s
     = (Return [],
        mkState (heap s) (next s)
          (trace s ++ [EvEncode [query]; EvSt (SemanticSearchError e)]))
     /\ run (VectorStore.search_vector_store query index chunks model top_k) st s
        = (Return [],
           mkState (heap s) (next s)
             (trace s ++ [EvEncode [query]; EvSt (VectorStoreSearchError e)])))
  /\ (forall v e,
        model [query] = inr v -> index v top_k = inl e ->
        run (semantic_search query index chunks model top_k) st s
        = (Return [],
           mkState (heap s) (next s)
             (trace s ++ [EvEncode [query]; EvIndexSearch v top_k;
                          EvSt (SemanticSearchError e)]))
        /\ run (VectorStore.search_vector_store query index chunks model top_k) st s
           = (Return [],
              mkState (heap s) (next s)
                (trace s ++ [EvEncode [query]; EvIndexSearch v top_k;
                             EvSt (VectorStoreSearchError e)]))).
Proof.
  intros Hok. split.
  - intros e He. unfold run, semantic_search, VectorStore.search_vector_store,
      try_except, bind at 1, bind at 2, encode, call.
    rewrite He. unfold bind, st_show. rewrite !Hok. unfold ret, log. simpl.
    now rewrite <- !app_assoc.
  - intros v e Hv He. unfold run, semantic_search, VectorStore.search_vector_store,
      try_except, bind at 1, bind at 3, encode, call.
    rewrite Hv. unfold bind at 1, bind at 2, index_search, call. simpl.
    rewrite He. unfold bind, st_show. rewrite !Hok. unfold ret, log. simpl.
    now rewrite <- !app_assoc.
Qed.

(** The theorem at the sample document with an embedding model that
    raises. *)
Lemma vector_search_collaborator_failure_witness :
  fst (run (semantic_search "weather" Sample.short_index Sample.sample_chunks
              Sample.encoder_down 20) Sample.show_all Sample.sample_state)
  = Return [].
Proof.
  destruct (vector_search_collaborator_failure Sample.show_all
              Sample.sample_state "weather" Sample.short_index
              Sample.sample_chunks Sample.encoder_down 20) as [H _].
  - intros m. reflexivity.
  - destruct (H "encoder down" eq_refl) as [R _]. rewrite R. reflexivity.
Defined.

Module Fresh.

Lemma semantic_search_fresh (st : Streamlit) (s : State)
    (query : string) (index : IndexFlatL2) (chunks : list loc)
    (model : SentenceTransformer) (top_k : Z) :
  let r := run (semantic_search query index chunks model top_k) st s in
  next s <= next (snd r)
  /\ (forall l, l < next s -> heap (snd r) l = heap s l)
  /\ (forall rs,
        fst r = Return rs ->
        NoDup rs /\ Forall (fun c => next s <= c < next (snd r)) rs).
Proof.
  cbv zeta.
  destruct (Neighbours.semantic_search_grows query index chunks model top_k st s)
    as [Hn Hh].
  split; [exact Hn|]. split; [exact Hh|].
  unfold run in *. unfold semantic_search, try_except in *.
  set (body := bind (encode model [query]) _) in *.
  destruct (body st s) as [[rs0|e] s1] eqn:Eb.
  - simpl. intros rs H. injection H as <-.
    subst body. unfold bind at 1, encode, call in Eb.
    destruct (model [query]) as [e|v]; [discriminate|].
    unfold bind at 1, index_search, call in Eb.
    destruct (index v top_k) as [e|[distances indices]]; [discriminate|].
    destruct (Neighbours.collect_loop_fresh st distances chunks (next s)
                (enumerate indices) []
                (log (EvIndexSearch v top_k) (log (EvEncode [query]) s))
                rs0 s1 (le_n (next s)) (Forall_nil _) (NoDup_nil _) Eb)
      as [F N].
    split; [exact N|exact F].
  - unfold bind, st_show. destruct (st (SemanticSearchError e)); simpl.
    + intros rs H. discriminate.
    + intros rs H. injection H as <-. split; constructor.
Qed.

End Fresh.

(** X4.  Whatever the collaborators do, [semantic_search] leaves every dict
    that existed before the call as it was; the dicts it returns are new
    ones, allocated during the call, and no one is returned twice. *)
Theorem semantic_search_returns_fresh_copies (st : Streamlit) (s : State)
    (query : string) (index : IndexFlatL2) (chunks : list loc)
    (model : SentenceTransformer) (top_k : Z) :
  let r := run (semantic_search query index chunks model top_k) st s in
  next s <= next (snd r)
  /\ (forall l, l < next s -> heap (snd r) l = heap s l)
  /\ (forall rs,
        fst r = Return rs ->
        NoDup rs /\ Forall (fun c => next s <= c < next (snd r)) rs).
Proof.
  destruct (Fresh.semantic_search_fresh st s query index chunks model top_k)
    as (Hnext & Hkept & Hnew).
  cbv zeta. split; [exact Hnext|]. split; [exact Hkept|].
  intros rs Hrs. destruct (Hnew rs Hrs) as [Hd Hf]. split; assumption.
Qed.

(** The theorem at the sample document: the first input dict is as it was
    after a search that returned copies. *)
Lemma semantic_search_returns_fresh_copies_witness :
  heap (snd (run (semantic_search "weather" Sample.short_index
                    Sample.sample_chunks Sample.unit_embedding 4)
               Sample.show_all Sample.sample_state)) 0
  = Sample.methods_a.
Proof.
  destruct (semantic_search_returns_fresh_copies Sample.show_all
              Sample.sample_state "weather" Sample.short_index
              Sample.sample_chunks Sample.unit_embedding 4) as (_ & H & _).
  rewrite (H 0); [reflexivity|]. simpl. lia.
Defined.

(** X5.  When the embedding model and the index answer, the row has no
    negative index and a distance at each of its positions, and the chunks
    are dicts that exist, [semantic_search] returns one new dict for each
    neighbour whose index is below the number of chunks, in the order of
    the row: the chunk at that index with the distance of the neighbour as
    similarity score.  Neighbours beyond the chunk list are skipped, and
    the two collaborators are called once each. *)
Theorem semantic_search_neighbours (st : Streamlit) (s : State)
    (query : string) (index : IndexFlatL2) (chunks : list loc)
    (model : SentenceTransformer) (top_k : Z) (v : Embedding)
    (distances : list Q) (indices : list Z) :
  model [query] = inr v ->
  index v top_k = inr (distances, indices) ->
  Forall (fun idx => (0 <= idx)%Z) indices ->
  List.length indices <= List.length distances ->
  Forall (fun c => c < next s) chunks ->
  exists rs s',
    run (semantic_search query index chunks model top_k) st s = (Return rs, s')
    /\ map (heap s') rs
       = map (neighbour (heap s) chunks distances)
           (filter (in_range chunks) (enumerate indices))
    /\ trace s' = trace s ++ [EvEncode [query]; EvIndexSearch v top_k].
Proof.
  intros Hv Hi Hpos Hlen Hc.
  unfold run, semantic_search, try_except, bind at 1, encode, call.
  rewrite Hv. unfold bind at 1, index_search, call. simpl. rewrite Hi.
  set (s0 := log (EvIndexSearch v top_k) (log (EvEncode [query]) s)).
  destruct (Neighbours.collect_loop st distances chunks (enumerate indices) [] s0)
    as (new & s' & R & T & G & Hm).
  - intros [i idx] Hp. apply Reranker.enumerate_In in Hp. simpl. split.
    + rewrite Forall_forall in Hpos. eapply Hpos, nth_error_In, Hp.
    + assert (i < List.length indices) by (apply nth_error_Some; congruence). lia.
  - exact Hc.
  - rewrite R. exists new, s'. split; [reflexivity|]. split; [exact Hm|].
    rewrite T. subst s0. simpl. now rewrite <- app_assoc.
Qed.

(** The theorem at the sample document with an index that answers with the
    two nearest chunks. *)
Lemma semantic_search_neighbours_witness :
  exists rs s',
    run (semantic_search "weather" (fun _ _ => inr ([0%Q; 1%Q], [2; 0]%Z))
           Sample.sample_chunks Sample.unit_embedding 2)
      Sample.show_all Sample.sample_state = (Return rs, s')
    /\ map (heap s') rs
       = [with_similarity_score Sample.methods_c 0%Q;
          with_similarity_score Sample.methods_a 1%Q].
Proof.
  destruct (semantic_search_neighbours Sample.show_all Sample.sample_state
              "weather" (fun _ _ => inr ([0%Q; 1%Q], [2; 0]%Z))
              Sample.sample_chunks Sample.unit_embedding 2 [1%Q]
              [0%Q; 1%Q] [2; 0]%Z) as (rs & s' & R & Hm & _).
  - reflexivity.
  - reflexivity.
  - repeat constructor; lia.
  - simpl. lia.
  - repeat constructor; simpl; lia.
  - exists rs, s'. split; [exact R|]. rewrite Hm. reflexivity.
Defined.

(** ** The two paths of the retrieval *)

Module Paths.
Local Open Scope py_scope.

Lemma same_store_refl (s : State) : same_store s s.
Proof. split; reflexivity. Qed.

Lemma same_store_trans (a b c : State) :
  same_store a b -> same_store b c -> same_store a c.
Proof. intros [H1 N1] [H2 N2]. split; congruence. Qed.

Lemma same_store_log (ev : Event) (s : State) : same_store s (log ev s).
Proof. split; reflexivity. Qed.

(** The structural matcher reads the store and writes nothing. *)
Lemma structural_search_same_store (query : string) (chunks : list loc) :
  keeps same_store (structural_search query chunks).
Proof.
  pose proof same_store_refl as Hr. pose proof same_store_trans as Ht.
  pose proof same_store_log as Hl.
  unfold structural_search.
  apply Frame.keeps_bind; try assumption; [now apply Frame.keeps_get_heap|intros h].
  apply Frame.keeps_foldM; try assumption. intros acc hd _.
  destruct (direct_hit query hd); [|now apply Frame.keeps_ret].
  apply Frame.keeps_bind; try assumption;
    [now apply Frame.keeps_st_show|intros _; now apply Frame.keeps_ret].
Qed.

End Paths.

(** X6.  Whenever [advanced_retrieval] returns, it returns at most 10
    chunks, and at most 5 when the structural matcher had found none. *)
Theorem advanced_retrieval_size (st : Streamlit) (s : State) (query : string)
    (index : IndexFlatL2) (chunks : list loc) (model : SentenceTransformer)
    (reranker : CrossEncoder) (rs : list loc) :
  fst (run (advanced_retrieval query index chunks model reranker) st s)
  = Return rs ->
  List.length rs <= 10
  /\ (fst (run (structural_search query chunks) st s) = Return [] ->
      List.length rs <= 5).
Proof.
  unfold run, advanced_retrieval, bind at 1.
  destruct (structural_search query chunks st s) as [[[|c r]|e] s1]; cbn [fst];
    [| |discriminate].
  - unfold bind at 1. destruct (st_show NoSectionMatch st s1) as [[[]|e] s2];
      [|discriminate].
    unfold bind at 1.
    destruct (semantic_search query index chunks model
                Config.SEMANTIC_SEARCH_TOP_K st s2) as [[[|c r]|e] s3];
      [| |discriminate].
    + intros H. injection H as <-. split; [simpl; lia|intros _; simpl; lia].
    + unfold bind.
      destruct (rerank_results query (c :: r) reranker st s3) as [[rr|e] s4];
        [|discriminate].
      intros H. injection H as <-.
      assert (L := firstn_le_length Config.SEMANTIC_FALLBACK_TOP_K rr).
      split; [|intros _; exact L].
      apply (Nat.le_trans _ 5); [exact L|repeat constructor].
  - unfold bind.
    destruct (rerank_results query (c :: r) reranker st s1) as [[rr|e] s4];
      [|discriminate].
    intros H. injection H as <-.
    assert (L := firstn_le_length Config.STRUCTURAL_SEARCH_TOP_K rr).
    split; [exact L|discriminate].
Qed.

(** The theorem at the sample document. *)
Lemma advanced_retrieval_size_witness :
  exists rs,
    fst (run (advanced_retrieval "weather" Sample.short_index
                Sample.sample_chunks Sample.unit_embedding Sample.by_length)
           Sample.show_all Sample.sample_state) = Return rs
    /\ List.length rs <= 5.
Proof.
  exists [3; 4; 6; 5].
  destruct (advanced_retrieval_size Sample.show_all Sample.sample_state
              "weather" Sample.short_index Sample.sample_chunks
              Sample.unit_embedding Sample.by_length [3; 4; 6; 5]) as [_ H].
  - reflexivity.
  - split; [reflexivity|]. apply H. reflexivity.
Defined.

(** X7.  When the structural matcher finds nothing, the retrieval runs on
    copies: whatever the collaborators do, every dict that existed before
    the call is as it was after it. *)
Theorem semantic_path_keeps_chunks (st : Streamlit) (s s1 : State)
    (query : string) (index : IndexFlatL2) (chunks : list loc)
    (model : SentenceTransformer) (reranker : CrossEncoder) :
  run (structural_search query chunks) st s = (Return [], s1) ->
  forall l,
    l < next s ->
    heap (snd (run (advanced_retrieval query index chunks model reranker) st s)) l
    = heap s l.
Proof.
  intros Hs l Hl.
  destruct (Paths.structural_search_same_store query chunks st s) as [H1 N1].
  unfold run in *. rewrite Hs in H1, N1. simpl in H1, N1.
  unfold advanced_retrieval, bind at 1. rewrite Hs.
  unfold bind at 1, st_show.
  destruct (st NoSectionMatch); [simpl; now rewrite H1|].
  set (s2 := log (EvSt NoSectionMatch) s1).
  destruct (Fresh.semantic_search_fresh st s2 query index chunks model
              Config.SEMANTIC_SEARCH_TOP_K) as (Hn & Hh & Hf).
  unfold run in *. unfold bind at 1.
  destruct (semantic_search query index chunks model
              Config.SEMANTIC_SEARCH_TOP_K st s2) as [[[|c r]|e] s3];
    simpl in Hn, Hh, Hf.
  - simpl. rewrite Hh by (simpl; lia). simpl. now rewrite H1.
  - destruct (Hf (c :: r) eq_refl) as [_ F].
    destruct (Frame.rerank_results_touch query (c :: r) reranker st s3)
      as (_ & _ & Ho).
    unfold run in Ho. unfold bind.
    destruct (rerank_results query (c :: r) reranker st s3) as [[rr|e] s4];
      simpl in Ho |- *.
    + rewrite Ho; [rewrite Hh by (simpl; lia); simpl; now rewrite H1|].
      intros Hin. rewrite Forall_forall in F. specialize (F l Hin).
      simpl in F. lia.
    + rewrite Ho; [rewrite Hh by (simpl; lia); simpl; now rewrite H1|].
      intros Hin. rewrite Forall_forall in F. specialize (F l Hin).
      simpl in F. lia.
  - simpl. rewrite Hh by (simpl; lia). simpl. now rewrite H1.
Qed.

(** The theorem at the sample document, for a query that names no section. *)
Lemma semantic_path_keeps_chunks_witness :
  heap (snd (run (advanced_retrieval "weather" Sample.short_index
                    Sample.sample_chunks Sample.unit_embedding Sample.by_length)
               Sample.show_all Sample.sample_state)) 2
  = Sample.methods_c.
Proof.
  rewrite (semantic_path_keeps_chunks Sample.show_all Sample.sample_state
             Sample.sample_state "weather" Sample.short_index
             Sample.sample_chunks Sample.unit_embedding Sample.by_length);
    [reflexivity|reflexivity|simpl; lia].
Defined.

(** ** The context and the statistics *)

Module Context.
Import PyStr Text.
Local Open Scope string_scope.

Lemma prefix_append (n b : string) : prefix n (n ++ b) = true.
Proof.
  induction n as [|c n IH]; simpl; [now destruct b|].
  destruct (ascii_dec c c); [exact IH|congruence].
Qed.

Lemma prefix_append_r (n h b : string) :
  prefix n h = true -> prefix n (h ++ b) = true.
Proof.
  revert h. induction n as [|c n IH]; intros h H.
  - now destruct (h ++ b).
  - destruct h as [|x h]; simpl in *; [discriminate|].
    destruct (ascii_dec c x); [now apply IH|discriminate].
Qed.

Lemma contains_prefix (n h : string) : prefix n h = true -> contains n h = true.
Proof. intros H. destruct h; simpl in *; rewrite H; reflexivity. Qed.

Lemma contains_append_l (n a h : string) :
  contains n h = true -> contains n (a ++ h) = true.
Proof.
  intros H. induction a as [|c a IH]; simpl; [exact H|].
  rewrite IH. apply orb_true_r.
Qed.

Lemma contains_append_r (n h b : string) :
  contains n h = true -> contains n (h ++ b) = true.
Proof.
  induction h as [|c h IH]; intros H.
  - simpl in H. rewrite orb_false_r in H.
    apply contains_prefix. destruct n; [now destruct (EmptyString ++ b)|discriminate].
  - simpl in H. apply orb_true_iff in H. destruct H as [H|H].
    + apply contains_prefix. now apply (prefix_append_r n (String c h) b).
    + simpl. rewrite (IH H). apply orb_true_r.
Qed.

Lemma contains_self (n : string) : contains n n = true.
Proof.
  apply contains_prefix. rewrite <- (append_nil_r n) at 2. apply prefix_append.
Qed.

Lemma contains_join (t sep : string) (parts : list string) (p : string) :
  In p parts -> contains t p = true -> contains t (join sep parts) = true.
Proof.
  induction parts as [|x parts IH]; intros Hin Ht; [destruct Hin|].
  destruct parts as [|y parts].
  - destruct Hin as [->|[]]. exact Ht.
  - cbn [join]. destruct Hin as [->|Hin].
    + now apply contains_append_r.
    + apply contains_append_l, contains_append_l. now apply IH.
Qed.

Lemma join_head (sep p : string) (parts : list string) :
  exists t, join sep (p :: parts) = (p ++ t)%string.
Proof.
  destruct parts as [|y parts].
  - exists EmptyString. simpl. now rewrite append_nil_r.
  - eexists. reflexivity.
Qed.

End Context.

(** X8.  The context of a list of chunks is the sentence "No relevant
    context found." exactly when the list is empty. *)
Theorem format_context_sentinel (h : loc -> Chunk) (retrieved_chunks : list loc) :
  format_context_for_llm h retrieved_chunks = "No relevant context found."
  <-> retrieved_chunks = [].
Proof.
  split; [|intros ->; reflexivity].
  destruct retrieved_chunks as [|c r]; [reflexivity|].
  unfold format_context_for_llm. cbn [map].
  destruct (Context.join_head (PyStr.nl ++ PyStr.nl) (context_part (h c))
              (map (fun chunk => context_part (h chunk)) r)) as [t ->].
  unfold context_part. cbn [append]. discriminate.
Qed.

(** The theorem at the sample document. *)
Lemma format_context_sentinel_witness :
  format_context_for_llm Sample.sample_heap [] = "No relevant context found.".
Proof. apply (format_context_sentinel Sample.sample_heap []). reflexivity. Defined.

(** X9.  The context names every chunk it was made from: it holds the
    text of the chunk, its heading, and its page number after the word
    "Page". *)
Theorem format_context_holds_chunks (h : loc -> Chunk)
    (retrieved_chunks : list loc) (chunk : loc) :
  In chunk retrieved_chunks ->
  let context := format_context_for_llm h retrieved_chunks in
  PyStr.contains (text (h chunk)) context = true
  /\ PyStr.contains (heading (h chunk)) context = true
  /\ PyStr.contains ("Page " ++ PyStr.str_of_Z (page_number (h chunk))) context
     = true.
Proof.
  intros Hin. cbv zeta. unfold format_context_for_llm.
  destruct retrieved_chunks as [|c0 r0] eqn:E; [destruct Hin|]. rewrite <- E in *.
  assert (Hp : In (context_part (h chunk))
                 (map (fun c => context_part (h c)) retrieved_chunks))
    by (apply in_map_iff; now exists chunk).
  split; [|split]; apply (Context.contains_join _ _ _ _ Hp); unfold context_part.
  - do 6 apply Context.contains_append_l. apply Context.contains_self.
  - do 3 apply Context.contains_append_l. apply Context.contains_append_r.
    apply Context.contains_self.
  - change ("--- Context from Page " ++ PyStr.str_of_Z (page_number (h chunk))
            ++ ", Section: " ++ heading (h chunk) ++ " ---" ++ PyStr.nl
            ++ text (h chunk))%string
      with ("--- Context from " ++ ("Page " ++ PyStr.str_of_Z (page_number (h chunk)))
            ++ ", Section: " ++ heading (h chunk) ++ " ---" ++ PyStr.nl
            ++ text (h chunk))%string.
    apply Context.contains_append_l, Context.contains_append_r.
    apply Context.contains_self.
Qed.

(** The theorem at the sample document. *)
Lemma format_context_holds_chunks_witness :
  PyStr.contains "beta text"
    (format_context_for_llm Sample.sample_heap [0; 1]) = true.
Proof.
  destruct (format_context_holds_chunks Sample.sample_heap [0; 1] 1) as [H _].
  - right. now left.
  - exact H.
Defined.

Module Stats.

Lemma fold_min_le (r : list Q) :
  forall x,
    let m := fold_left (fun m y => if Qle_bool m y then m else y) r x in
    (m <= x)%Q /\ forall y, In y r -> (m <= y)%Q.
Proof.
  induction r as [|z r IH]; intros x; simpl.
  - split; [apply Qle_refl|intros y []].
  - destruct (IH (if Qle_bool x z then x else z)) as [H1 H2].
    assert (Hx : ((if Qle_bool x z then x else z) <= x)%Q
                 /\ ((if Qle_bool x z then x else z) <= z)%Q).
    { destruct (Qle_bool x z) eqn:E.
      - split; [apply Qle_refl|now apply Qle_bool_iff].
      - split; [|apply Qle_refl]. apply Qlt_le_weak, Qnot_le_lt.
        intros L. apply Qle_bool_iff in L. congruence. }
    destruct Hx as [Hx Hz]. split.
    + eapply Qle_trans; [exact H1|exact Hx].
    + intros y [<-|Hy]; [eapply Qle_trans; [exact H1|exact Hz]|now apply H2].
Qed.

Lemma fold_max_ge (r : list Q) :
  forall x,
    let m := fold_left (fun m y => if Qle_bool y m then m else y) r x in
    (x <= m)%Q /\ forall y, In y r -> (y <= m)%Q.
Proof.
  induction r as [|z r IH]; intros x; simpl.
  - split; [apply Qle_refl|intros y []].
  - destruct (IH (if Qle_bool z x then x else z)) as [H1 H2].
    assert (Hx : (x <= (if Qle_bool z x then x else z))%Q
                 /\ (z <= (if Qle_bool z x then x else z))%Q).
    { destruct (Qle_bool z x) eqn:E.
      - split; [apply Qle_refl|now apply Qle_bool_iff].
      - split; [|apply Qle_refl]. apply Qlt_le_weak, Qnot_le_lt.
        intros L. apply Qle_bool_iff in L. congruence. }
    destruct Hx as [Hx Hz]. split.
    + eapply Qle_trans; [exact Hx|exact H1].
    + intros y [<-|Hy]; [eapply Qle_trans; [exact Hz|exact H1]|now apply H2].
Qed.

Lemma Qmin_list_le (l : list Q) (x : Q) : In x l -> (Qmin_list l <= x)%Q.
Proof.
  destruct l as [|a r]; [intros []|]. unfold Qmin_list.
  destruct (fold_min_le r a) as [H1 H2]. intros [<-|H]; [exact H1|now apply H2].
Qed.

Lemma Qmax_list_ge (l : list Q) (x : Q) : In x l -> (x <= Qmax_list l)%Q.
Proof.
  destruct l as [|a r]; [intros []|]. unfold Qmax_list.
  destruct (fold_max_ge r a) as [H1 H2]. intros [<-|H]; [exact H1|now apply H2].
Qed.

Lemma distinct_count {A} (dec : forall x y : A, {x = y} + {x <> y}) (l : list A) :
  l <> [] -> 1 <= List.length (nodup dec l) <= List.length l.
Proof.
  intros Hne. split.
  - destruct l as [|x l]; [congruence|].
    assert (H : In x (nodup dec (x :: l))) by (apply nodup_In; now left).
    destruct (nodup dec (x :: l)); [destruct H|simpl; lia].
  - apply NoDup_incl_length; [apply NoDup_nodup|].
    intros x Hx. now apply nodup_In in Hx.
Qed.

End Stats.

(** X10.  The statistics of a non-empty list of chunks: the total is the
    length of the list, the numbers of distinct pages and of distinct
    sections lie between 1 and the total, and the rerank score of every
    chunk (0 where it carries none) lies between the two ends of the score
    range. *)
Theorem search_statistics_bounds (h : loc -> Chunk) (retrieved_chunks : list loc) :
  retrieved_chunks <> [] ->
  let stats := get_search_statistics h retrieved_chunks in
  total_chunks stats = List.length retrieved_chunks
  /\ 1 <= unique_pages stats <= List.length retrieved_chunks
  /\ 1 <= unique_sections stats <= List.length retrieved_chunks
  /\ forall chunk,
       In chunk retrieved_chunks ->
       (fst (score_range stats) <= score_of h chunk
        /\ score_of h chunk <= snd (score_range stats))%Q.
Proof.
  intros Hne. cbv zeta. unfold get_search_statistics.
  destruct retrieved_chunks as [|c0 r0] eqn:E; [congruence|]. rewrite <- E in *.
  cbn [total_chunks unique_pages unique_sections score_range fst snd].
  split; [reflexivity|].
  assert (Hm : forall B (f : loc -> B), map f retrieved_chunks <> [])
    by (intros B f; rewrite E; discriminate).
  split; [|split].
  - rewrite <- (length_map (fun chunk => page_number (h chunk)) retrieved_chunks).
    apply Stats.distinct_count, Hm.
  - rewrite <- (length_map (fun chunk => heading (h chunk)) retrieved_chunks).
    apply Stats.distinct_count, Hm.
  - intros chunk Hin.
    assert (Hs : In (score_of h chunk)
                   (map (fun c => match rerank_score (h c) with
                                  | Some q => q
                                  | None => 0%Q
                                  end) retrieved_chunks))
      by (apply in_map_iff; now exists chunk).
    split; [now apply Stats.Qmin_list_le|now apply Stats.Qmax_list_ge].
Qed.

(** The theorem at the sample document. *)
Lemma search_statistics_bounds_witness :
  unique_sections (get_search_statistics Sample.sample_heap Sample.sample_chunks)
  <= 3.
Proof.
  destruct (search_statistics_bounds Sample.sample_heap Sample.sample_chunks)
    as (_ & _ & [_ H] & _); [discriminate|exact H].
Defined.

(** ** The explanation of the strategy *)

Module Explain.
Local Open Scope py_scope.

Lemma collect_silent (distances : list Q) (chunks acc : list loc) (p : nat * Z) :
  emits any_event (collect distances chunks acc p).
Proof.
  destruct p as [i idx]. unfold collect.
  destruct (idx <? Z.of_nat (List.length chunks))%Z; [|apply Effects.emits_ret].
  apply Effects.emits_bind; [apply Effects.emits_getitem|intros c].
  apply Effects.emits_bind; [apply Effects.emits_copy|intros chunk].
  apply Effects.emits_bind; [apply Effects.emits_item|intros d].
  apply Effects.emits_bind;
    [apply Effects.emits_set_similarity_score|intros _; apply Effects.emits_ret].
Qed.

(** The first thing the semantic search does is to embed the query. *)
Lemma semantic_search_embeds (st : Streamlit) (s : State) (query : string)
    (index : IndexFlatL2) (chunks : list loc) (model : SentenceTransformer)
    (top_k : Z) :
  exists evs,
    trace (snd (semantic_search query index chunks model top_k st s))
    = trace s ++ EvEncode [query] :: evs.
Proof.
  unfold semantic_search, try_except, bind at 1, encode, call.
  destruct (model [query]) as [e|v].
  - assert (H : emits any_event
                  (bind (st_show (SemanticSearchError e))
                     (fun _ => ret (@nil loc)))).
    { apply Effects.emits_bind; [now apply Effects.emits_st_show|].
      intros _. apply Effects.emits_ret. }
    destruct (H st (log (EvEncode [query]) s)) as (evs & T & _).
    exists evs. rewrite T. simpl. now rewrite <- app_assoc.
  - assert (H : emits any_event
                  (try_except
                     (bind (index_search index v top_k)
                        (fun r => let '(distances, indices) := r in
                                  foldM (collect distances chunks) []
                                    (enumerate indices)))
                     (fun e => bind (st_show (SemanticSearchError e))
                                 (fun _ => ret [])))).
    { apply Effects.emits_try_except.
      - apply Effects.emits_bind; [now apply Effects.emits_call|].
        intros [distances indices]. apply Effects.emits_foldM.
        intros acc p. apply collect_silent.
      - intros e. apply Effects.emits_bind; [now apply Effects.emits_st_show|].
        intros _. apply Effects.emits_ret. }
    destruct (H st (log (EvEncode [query]) s)) as (evs & T & _).
    exists evs. unfold try_except in T. rewrite T. simpl.
    now rewrite <- app_assoc.
Qed.

Lemma emits_weaken {A} (P : Event -> Prop) (m : M A) :
  emits P m -> emits any_event m.
Proof.
  intros H st s. destruct (H st s) as (evs & T & _). exists evs.
  split; [exact T|]. apply Forall_forall. intros x _. exact I.
Qed.

Lemma explain_agrees (st : Streamlit) (s : State) (self : AdvancedRetriever)
    (query : string) (index : IndexFlatL2) (chunks : list loc) :
  ui_ok st ->
  exists evs,
    trace (snd (run (advanced_retrieval query index chunks
                       (embeddings_model self) (reranker self)) st s))
    = trace s ++ evs
    /\ match fst (run (explain_retrieval_strategy self query chunks) st s) with
       | Return SemanticSearchUsed =>
           structural_hits query (heap s) chunks = [] /\ In (EvEncode [query]) evs
       | Return (StructuralSearchFound n) =>
           0 < n /\ n = List.length (structural_hits query (heap s) chunks)
           /\ Forall (fun ev => uses_vector_index ev = false) evs
       | Raise _ => False
       end.
Proof.
  intros Hok.
  assert (Hs := StructuralMatcher.structural_search_run st s query chunks Hok).
  unfold run in Hs.
  assert (He : fst (run (explain_retrieval_strategy self query chunks) st s)
               = Return match structural_hits query (heap s) chunks with
                        | [] => SemanticSearchUsed
                        | hits => StructuralSearchFound (List.length hits)
                        end).
  { unfold run, explain_retrieval_strategy, bind. rewrite Hs.
    now destruct (structural_hits query (heap s) chunks). }
  rewrite He. clear He.
  unfold run, advanced_retrieval. unfold bind at 1. rewrite Hs.
  match goal with
  | |- context [mkState (heap s) (next s) ?t] =>
      remember (mkState (heap s) (next s) t) as s1 eqn:Es1
  end.
  assert (T1 : exists e1, trace s1 = trace s ++ e1 /\ Forall off_index e1).
  { rewrite Es1. eexists. split; [reflexivity|]. apply Forall_forall. intros ev Hev.
    apply in_map_iff in Hev. destruct Hev as (hd & <- & _). reflexivity. }
  destruct T1 as (e1 & T1 & F1). clear Es1 Hs.
  destruct (structural_hits query (heap s) chunks) as [|c r] eqn:Eh.
  - unfold bind at 1, st_show. rewrite Hok. unfold bind at 1.
    set (s2 := log (EvSt NoSectionMatch) s1).
    destruct (semantic_search_embeds st s2 query index chunks
                (embeddings_model self) Config.SEMANTIC_SEARCH_TOP_K)
      as (e2 & T2).
    destruct (semantic_search query index chunks (embeddings_model self)
                Config.SEMANTIC_SEARCH_TOP_K st s2) as [[[|c r]|e] s3];
      simpl in T2.
    + exists (e1 ++ EvSt NoSectionMatch :: EvEncode [query] :: e2). simpl.
      rewrite T2. subst s2. simpl. rewrite T1, <- !app_assoc. simpl.
      split; [reflexivity|]. split; [reflexivity|].
      apply in_or_app. right. right. now left.
    + destruct (emits_weaken _ _
                  (Effects.rerank_results_off_index query (c :: r) (reranker self))
                  st s3) as (e3 & T3 & _).
      unfold bind.
      destruct (rerank_results query (c :: r) (reranker self) st s3)
        as [[rr|e] s4]; simpl in T3 |- *;
        (exists (e1 ++ EvSt NoSectionMatch :: EvEncode [query] :: e2 ++ e3);
         rewrite T3, T2; subst s2; simpl; rewrite T1, <- !app_assoc; simpl;
         (split; [reflexivity|]); (split; [reflexivity|]);
         apply in_or_app; right; right; now left).
    + exists (e1 ++ EvSt NoSectionMatch :: EvEncode [query] :: e2). simpl.
      rewrite T2. subst s2. simpl. rewrite T1, <- !app_assoc. simpl.
      split; [reflexivity|]. split; [reflexivity|].
      apply in_or_app. right. right. now left.
  - destruct (Effects.rerank_results_off_index query (c :: r) (reranker self)
                st s1) as (e3 & T3 & F3).
    unfold bind.
    destruct (rerank_results query (c :: r) (reranker self) st s1)
      as [[rr|e] s4]; simpl in T3 |- *;
      (exists (e1 ++ e3); rewrite T3, T1, <- app_assoc;
       (split; [reflexivity|]); (split; [lia|]); (split; [reflexivity|]);
       now apply Forall_app).
Qed.

End Explain.

(** X11.  When Streamlit shows the messages, [explain_retrieval_strategy]
    tells the path that [advanced_retrieval] takes on the same query and
    chunks.  It announces the semantic search exactly when the structural
    matcher finds nothing, and then the retrieval embeds the query; it
    announces the structural search with the number of chunks found, which
    is not 0, and then the retrieval calls neither the embedding model nor
    the index. *)
Theorem explain_retrieval_strategy_agrees (st : Streamlit) (s : State)
    (self : AdvancedRetriever) (query : string) (index : IndexFlatL2)
    (chunks : list loc) :
  ui_ok st ->
  exists evs,
    trace (snd (run (advanced_retrieval query index chunks
                       (embeddings_model self) (reranker self)) st s))
    = trace s ++ evs
    /\ match fst (run (explain_retrieval_strategy self query chunks) st s) with
       | Return SemanticSearchUsed =>
           structural_hits query (heap s) chunks = [] /\ In (EvEncode [query]) evs
       | Return (StructuralSearchFound n) =>
           0 < n /\ n = List.length (structural_hits query (heap s) chunks)
           /\ Forall (fun ev => uses_vector_index ev = false) evs
       | Raise _ => False
       end.
Proof.
  intros Hok.
  destruct (Explain.explain_agrees st s self query index chunks Hok)
    as (evs & Htrace & Hpath).
  exists evs. split; [exact Htrace|exact Hpath].
Qed.

(** The theorem at the sample document, for a query that names both
    sections. *)
Lemma explain_retrieval_strategy_agrees_witness :
  fst (run (explain_retrieval_strategy
              (mkRetriever Sample.unit_embedding Sample.by_length)
              "intro and methods" Sample.sample_chunks)
         Sample.show_all Sample.sample_state)
  = Return (StructuralSearchFound 3)
  /\ exists evs,
       trace (snd (run (advanced_retrieval "intro and methods" Sample.short_index
                          Sample.sample_chunks Sample.unit_embedding
                          Sample.by_length)
                     Sample.show_all Sample.sample_state)) = evs
       /\ Forall (fun ev => uses_vector_index ev = false) evs.
Proof.
  split; [reflexivity|].
  destruct (explain_retrieval_strategy_agrees Sample.show_all Sample.sample_state
              (mkRetriever Sample.unit_embedding Sample.by_length)
              "intro and methods" Sample.short_index Sample.sample_chunks)
    as (evs & T & H).
  - intros m. reflexivity.
  - exists evs. split; [exact T|].
    change (fst (run (explain_retrieval_strategy
                        (mkRetriever Sample.unit_embedding Sample.by_length)
                        "intro and methods" Sample.sample_chunks)
                   Sample.show_all Sample.sample_state))
      with (Return (StructuralSearchFound 3)) in H.
    destruct H as (_ & _ & F). exact F.
Defined.

(** ** Stripped text *)

Module Stripped.
Import PyStr Text.
Local Open Scope string_scope.

Lemma rstrip_rstrip (s : string) : rstrip (rstrip s) = rstrip s.
Proof.
  induction s as [|c s IH]; [reflexivity|].
  cbn [rstrip]. destruct (rstrip s) as [|x r] eqn:R.
  - destruct (is_space c) eqn:E; [reflexivity|].
    cbn [rstrip]. now rewrite E.
  - cbn [rstrip]. cbn [rstrip] in IH. rewrite IH. reflexivity.
Qed.

Lemma rstrip_head (c : ascii) (s : string) :
  is_space c = false -> exists r, rstrip (String c s) = String c r.
Proof.
  intros E. cbn [rstrip]. destruct (rstrip s).
  - rewrite E. now eexists.
  - now eexists.
Qed.

Lemma lstrip_head (s : string) :
  lstrip s = EmptyString
  \/ exists c r, lstrip s = String c r /\ is_space c = false.
Proof.
  induction s as [|c s IH]; [now left|].
  cbn [lstrip]. destruct (is_space c) eqn:E; [exact IH|].
  right. now exists c, s.
Qed.

(** Stripping twice is stripping once. *)
Lemma strip_strip (s : string) : strip (strip s) = strip s.
Proof.
  unfold strip. destruct (lstrip_head s) as [->|(c & r & -> & E)]; [reflexivity|].
  destruct (rstrip_head c r E) as [r' Hr]. rewrite Hr.
  cbn [lstrip]. rewrite E, <- Hr. apply rstrip_rstrip.
Qed.

Lemma truthy_nonempty (s : string) : truthy s = true <-> s <> EmptyString.
Proof. destruct s; simpl; split; congruence. Qed.

End Stripped.

(** ** Invariants of the segmenter *)

Module Scan.
Import PyStr.

Section Invariant.
(** [P] holds of the blocks, [Hd] of the current heading. *)
Context (P : Block -> Prop) (Hd : string -> Prop).

Lemma flush_inv (n : nat) (bs : list Block) (hd buf : string) :
  Forall P bs ->
  (truthy (strip buf) = true -> P (mkBlock (Z.of_nat n + 1) hd (strip buf))) ->
  Forall P (flush n bs hd buf).
Proof.
  intros Hb Hnew. unfold flush. destruct (truthy (strip buf)); [|exact Hb].
  apply Forall_app. split; [exact Hb|]. repeat constructor. now apply Hnew.
Qed.

Lemma scan_lines_inv (n : nat) (lines : list string) :
  (forall hd buf, Hd hd -> truthy (strip buf) = true ->
                  P (mkBlock (Z.of_nat n + 1) hd (strip buf))) ->
  (forall line, In line lines -> is_heading_line line = true -> Hd (strip line)) ->
  forall bs hd buf,
    Forall P bs -> Hd hd ->
    let '(bs', hd', _) := fold_left (scan_line n) lines (bs, hd, buf) in
    Forall P bs' /\ Hd hd'.
Proof.
  intros Hnew. induction lines as [|line lines IH]; intros Hl bs hd buf Hb Hh.
  - simpl. now split.
  - cbn [fold_left].
    assert (Hl' : forall l, In l lines -> is_heading_line l = true -> Hd (strip l))
      by (intros l Hin; apply Hl; now right).
    specialize (Hl line (or_introl eq_refl)). unfold is_heading_line in Hl.
    unfold scan_line at 2.
    destruct (truthy (strip line)); cbn [negb]; [|now apply IH].
    destruct (heading_regex_match (strip line)).
    + apply IH; [exact Hl'| |now apply Hl].
      apply flush_inv; [exact Hb|]. intros T. now apply Hnew.
    + now apply IH.
Qed.

Lemma scan_page_inv (n : nat) (page : string) (bs : list Block) (hd : string) :
  (forall hd buf, Hd hd -> truthy (strip buf) = true ->
                  P (mkBlock (Z.of_nat n + 1) hd (strip buf))) ->
  (forall line, In line (split_nl page) -> is_heading_line line = true ->
                Hd (strip line)) ->
  Forall P bs -> Hd hd ->
  Forall P (fst (scan_page n page bs hd)) /\ Hd (snd (scan_page n page bs hd)).
Proof.
  intros Hnew Hl Hb Hh. unfold scan_page.
  generalize (scan_lines_inv n (split_nl page) Hnew Hl bs hd EmptyString Hb Hh).
  destruct (fold_left (scan_line n) (split_nl page) (bs, hd, EmptyString))
    as [[bs1 hd1] buf1].
  cbv beta iota. intros [H1 H2]. cbn [fst snd]. split; [|exact H2].
  apply flush_inv; [exact H1|]. intros T. now apply Hnew.
Qed.

Lemma scan_pages_inv (l : list (nat * string)) :
  (forall p hd buf, In p l -> Hd hd -> truthy (strip buf) = true ->
                    P (mkBlock (Z.of_nat (fst p) + 1) hd (strip buf))) ->
  (forall p line, In p l -> In line (split_nl (snd p)) ->
                  is_heading_line line = true -> Hd (strip line)) ->
  forall bs hd total,
    Forall P bs -> Hd hd ->
    let '(bs', hd', _) := scan_pages l (bs, hd, total) in
    Forall P bs' /\ Hd hd'.
Proof.
  induction l as [|[n page] l IH]; intros Hnew Hl bs hd total Hb Hh.
  - simpl. now split.
  - unfold scan_pages. cbn [fold_left fst snd].
    generalize (scan_page_inv n page bs hd
                  (fun hd0 buf => Hnew (n, page) hd0 buf (or_introl eq_refl))
                  (fun line => Hl (n, page) line (or_introl eq_refl)) Hb Hh).
    destruct (scan_page n page bs hd) as [bs1 hd1]. cbn [fst snd].
    intros [H1 H2].
    apply (IH (fun p hd0 buf Hp => Hnew p hd0 buf (or_intror Hp))
              (fun p line Hp => Hl p line (or_intror Hp))
              bs1 hd1 (total ++ page)%string H1 H2).
Qed.

End Invariant.

Lemma up_to_weaken (k k' : Z) (bs : list Block) :
  (k <= k')%Z -> up_to k bs -> up_to k' bs.
Proof.
  intros Hk [S F]. split; [exact S|].
  eapply Forall_impl; [|exact F]. simpl. intros b Hb. lia.
Qed.

Lemma flush_up_to (n : nat) (bs : list Block) (hd buf : string) :
  up_to (Z.of_nat n + 1) bs -> up_to (Z.of_nat n + 1) (flush n bs hd buf).
Proof.
  intros [S F]. unfold flush. destruct (truthy (strip buf)); [|now split].
  split.
  - apply strongly_sorted_app; [exact S|repeat constructor|].
    intros a b Ha [<-|[]]. rewrite Forall_forall in F.
    unfold page_le. simpl. now apply F.
  - apply Forall_app. split; [exact F|]. repeat constructor. simpl. lia.
Qed.

Lemma scan_lines_up_to (n : nat) (lines : list string) :
  forall bs hd buf,
    up_to (Z.of_nat n + 1) bs ->
    up_to (Z.of_nat n + 1)
      (fst (fst (fold_left (scan_line n) lines (bs, hd, buf)))).
Proof.
  induction lines as [|line lines IH]; intros bs hd buf H; [exact H|].
  cbn [fold_left]. unfold scan_line at 2.
  destruct (truthy (strip line)); cbn [negb]; [|now apply IH].
  destruct (heading_regex_match (strip line)); [|now apply IH].
  apply IH. now apply flush_up_to.
Qed.

Lemma scan_page_up_to (n : nat) (page : string) (bs : list Block) (hd : string) :
  up_to (Z.of_nat n) bs -> up_to (Z.of_nat n + 1) (fst (scan_page n page bs hd)).
Proof.
  intros H. apply (up_to_weaken _ (Z.of_nat n + 1)) in H; [|lia].
  unfold scan_page.
  generalize (scan_lines_up_to n (split_nl page) bs hd EmptyString H).
  destruct (fold_left (scan_line n) (split_nl page) (bs, hd, EmptyString))
    as [[bs1 hd1] buf1].
  cbn [fst]. apply flush_up_to.
Qed.

Lemma scan_pages_up_to (doc : list string) :
  forall a bs hd total,
    up_to (Z.of_nat a) bs ->
    up_to (Z.of_nat (a + List.length doc))
      (fst (fst (scan_pages (combine (seq a (List.length doc)) doc)
                   (bs, hd, total)))).
Proof.
  induction doc as [|page doc IH]; intros a bs hd total H.
  - simpl. now rewrite Nat.add_0_r.
  - unfold scan_pages. cbn [List.length seq combine fold_left fst snd].
    generalize (scan_page_up_to a page bs hd H).
    destruct (scan_page a page bs hd) as [bs1 hd1]. cbn [fst]. intros H1.
    fold (scan_pages (combine (seq (S a) (List.length doc)) doc)
            (bs1, hd1, (total ++ page)%string)).
    replace (a + S (List.length doc)) with (S a + List.length doc) by lia.
    apply IH. replace (Z.of_nat (S a)) with (Z.of_nat a + 1)%Z by lia. exact H1.
Qed.

End Scan.

Module SegmenterFacts.
Import PyStr.

Lemma enumerate_bound {A} (l : list A) (i : nat) (x : A) :
  In (i, x) (enumerate l) -> i < List.length l /\ In x l.
Proof.
  intros H. apply Reranker.enumerate_In in H. split.
  - apply nth_error_Some. congruence.
  - eapply nth_error_In, H.
Qed.

(** What the page loop leaves, for any document. *)
Lemma scanned (doc : list string) :
  let '(bs, _, total) :=
    scan_pages (enumerate doc) ([], Config.DEFAULT_HEADING, EmptyString) in
  Forall (block_ok (List.length doc)) bs
  /\ StronglySorted page_le bs
  /\ Forall (fun b => heading_source doc (block_heading b)) bs
  /\ total = cat doc.
Proof.
  assert (Pnew : forall (p : nat * string) hd buf,
             In p (enumerate doc) -> True -> truthy (strip buf) = true ->
             block_ok (List.length doc)
               (mkBlock (Z.of_nat (fst p) + 1) hd (strip buf))).
  { intros [i page] hd0 buf Hp _ T. apply enumerate_bound in Hp.
    destruct Hp as [Hi _]. cbn [fst]. split; [simpl; lia|]. split.
    - simpl. now apply Stripped.truthy_nonempty.
    - simpl. apply Stripped.strip_strip. }
  assert (Hline : forall (p : nat * string) line,
             In p (enumerate doc) -> In line (split_nl (snd p)) ->
             is_heading_line line = true -> heading_source doc (strip line)).
  { intros [i page] line Hp Hl Hline. apply enumerate_bound in Hp.
    destruct Hp as [_ Hp]. right. right. exists page, line. now repeat split. }
  generalize (Scan.scan_pages_inv (block_ok (List.length doc)) (fun _ => True)
                (enumerate doc) Pnew (fun _ _ _ _ _ => I)
                [] Config.DEFAULT_HEADING EmptyString (Forall_nil _) I).
  generalize (Scan.scan_pages_inv
                (fun b => heading_source doc (block_heading b))
                (heading_source doc) (enumerate doc)
                (fun p hd buf _ H _ => H) Hline
                [] Config.DEFAULT_HEADING EmptyString (Forall_nil _)
                (or_introl eq_refl)).
  generalize (Scan.scan_pages_up_to doc 0 [] Config.DEFAULT_HEADING EmptyString
                (conj (SSorted_nil _) (Forall_nil _))).
  generalize (Blocks.scan_pages_kept (enumerate doc) [] Config.DEFAULT_HEADING
                EmptyString).
  rewrite Blocks.map_snd_enumerate. unfold enumerate.
  destruct (scan_pages (combine (seq 0 (List.length doc)) doc)
              ([], Config.DEFAULT_HEADING, EmptyString)) as [[bs hd] total].
  cbv beta iota. cbn [fst].
  intros (_ & Hk & _) [Hu _] [Hh _] [Hb _].
  split; [exact Hb|]. split; [exact Hu|]. split; [exact Hh|exact Hk].
Qed.

End SegmenterFacts.

Module Segmented.
Import PyStr.

Lemma segment_facts (doc : list string) :
  snd (segment doc) = List.length doc
  /\ Forall (block_ok (List.length doc)) (fst (segment doc))
  /\ StronglySorted page_le (fst (segment doc))
  /\ Forall (fun b => heading_source doc (block_heading b)) (fst (segment doc))
  /\ (truthy (strip (cat doc)) = false -> fst (segment doc) = []).
Proof.
  unfold segment. destruct doc as [|p0 r0] eqn:Ed.
  - simpl. repeat split; constructor.
  - rewrite <- Ed. generalize (SegmenterFacts.scanned doc).
    destruct (scan_pages (enumerate doc) ([], Config.DEFAULT_HEADING, EmptyString))
      as [[bs hd] total].
    intros (Hb & Hu & Hh & ->).
    destruct (truthy (strip (cat doc))) eqn:T; cbn [negb].
    + destruct bs as [|b bs'] eqn:Eb.
      * cbn [fst snd]. split; [reflexivity|]. split; [|split; [|split]].
        -- repeat constructor.
           ++ simpl. lia.
           ++ simpl. rewrite Ed. simpl. lia.
           ++ simpl. now apply Stripped.truthy_nonempty.
           ++ simpl. apply Stripped.strip_strip.
        -- repeat constructor.
        -- constructor; [simpl; right; now left|constructor].
        -- discriminate.
      * rewrite <- Eb in *. cbn [fst snd].
        split; [reflexivity|]. split; [exact Hb|]. split; [exact Hu|].
        split; [exact Hh|discriminate].
    + cbn [fst snd]. split; [reflexivity|]. repeat split; constructor.
Qed.

End Segmented.

(** X12.  When Streamlit shows the progress, the segmenter returns, with
    the number of pages of the document, blocks that are in the order of
    the pages; each block has a page number of the document (1 for the
    first page) and a content that is not empty and has no white space at
    its ends. *)
Theorem segmenter_blocks_well_formed (st : Streamlit) (s : State)
    (doc : list string) :
  ui_ok st ->
  exists blocks s',
    run (extract_structured_text doc) st s = (Return (blocks, List.length doc), s')
    /\ Forall (fun b =>
                 (1 <= block_page_number b <= Z.of_nat (List.length doc))%Z
                 /\ content b <> EmptyString
                 /\ PyStr.strip (content b) = content b) blocks
    /\ StronglySorted
         (fun a b => (block_page_number a <= block_page_number b)%Z) blocks.
Proof.
  intros Hok. destruct (Segmenter.extract_run st s doc Hok) as (s' & Hrun & _).
  destruct (Segmented.segment_facts doc) as (Hn & Hb & Hs & _).
  exists (fst (segment doc)), s'. split; [|split; [exact Hb|exact Hs]].
  rewrite Hrun, <- Hn. now destruct (segment doc).
Qed.

(** The theorem at a page with one heading line. *)
Lemma segmenter_blocks_well_formed_witness :
  exists blocks,
    fst (run (extract_structured_text [Sample.headed_page])
           Sample.show_all Sample.sample_state) = Return (blocks, 1)
    /\ Forall (fun b => content b <> EmptyString) blocks.
Proof.
  destruct (segmenter_blocks_well_formed Sample.show_all Sample.sample_state
              [Sample.headed_page]) as (blocks & s' & Hrun & Hb & _).
  - intros m. reflexivity.
  - exists blocks. rewrite Hrun. split; [reflexivity|].
    eapply Forall_impl; [|exact Hb]. simpl. tauto.
Defined.

(** X13.  When Streamlit shows the progress, the heading of every block the
    segmenter returns is the default heading "Introduction", the heading
    "Document Content" of the fallback block, or the stripped form of a
    line of the document that matches the heading pattern. *)
Theorem segmenter_heading_sources (st : Streamlit) (s : State)
    (doc : list string) :
  ui_ok st ->
  exists blocks s',
    run (extract_structured_text doc) st s = (Return (blocks, List.length doc), s')
    /\ Forall (fun b =>
                 block_heading b = "Introduction"
                 \/ block_heading b = "Document Content"
                 \/ exists page line,
                      In page doc /\ In line (PyStr.split_nl page)
                      /\ is_heading_line line = true
                      /\ block_heading b = PyStr.strip line) blocks.
Proof.
  intros Hok. destruct (Segmenter.extract_run st s doc Hok) as (s' & Hrun & _).
  destruct (Segmented.segment_facts doc) as (Hn & _ & _ & Hh & _).
  exists (fst (segment doc)), s'. split; [|exact Hh].
  rewrite Hrun, <- Hn. now destruct (segment doc).
Qed.

(** The theorem at a page with one heading line. *)
Lemma segmenter_heading_sources_witness :
  exists blocks,
    fst (run (extract_structured_text [Sample.headed_page])
           Sample.show_all Sample.sample_state) = Return (blocks, 1).
Proof.
  destruct (segmenter_heading_sources Sample.show_all Sample.sample_state
              [Sample.headed_page]) as (blocks & s' & Hrun & _).
  - intros m. reflexivity.
  - exists blocks. rewrite Hrun. reflexivity.
Defined.

(** ** The chunker and the pipeline *)

Module Chunker.
Import PyStr.
Local Open Scope py_scope.

Lemma new_chunk_ok (all : list Block) (b : Block) (t : string) :
  In b all -> truthy (strip t) = true -> chunk_ok all (new_chunk t b).
Proof.
  intros Hb T. unfold chunk_ok, new_chunk. simpl. split.
  - now apply Stripped.truthy_nonempty.
  - split; [apply Stripped.strip_strip|]. split; [reflexivity|].
    split; [reflexivity|]. now exists b.
Qed.

(** Whatever the chunker returns is made of chunks of its blocks. *)
Lemma create_inv (st : Streamlit) (splitter : TextSplitter) (all : list Block)
    (blocks : list Block) :
  forall acc s chunks s',
    incl blocks all -> Forall (chunk_ok all) acc ->
    foldM (fun chunks_with_metadata block =>
             if negb (truthy (strip (content block))) then
               ret chunks_with_metadata
             else
               text_chunks <- split_text splitter (content block) ;;
               ret (chunks_with_metadata
                    ++ map (fun chunk => new_chunk chunk block)
                         (filter (fun chunk => truthy (strip chunk))
                            text_chunks)))
          acc blocks st s = (Return chunks, s') ->
    Forall (chunk_ok all) chunks.
Proof.
  induction blocks as [|b blocks IH]; intros acc s chunks s' Hi Ha.
  - simpl. intros H. injection H as <- <-. exact Ha.
  - cbn [foldM]. unfold bind at 1.
    assert (Hb : In b all) by (apply Hi; now left).
    assert (Hi' : incl blocks all) by (intros x Hx; apply Hi; now right).
    destruct (negb (truthy (strip (content b)))).
    + unfold ret at 1. now apply IH.
    + unfold bind at 1, split_text, call.
      destruct (splitter (content b)) as [e|pieces]; [discriminate|].
      unfold ret at 1. apply IH; [exact Hi'|].
      apply Forall_app. split; [exact Ha|].
      apply Forall_forall. intros c Hc. apply in_map_iff in Hc.
      destruct Hc as (t & <- & Ht). apply filter_In in Ht.
      now apply new_chunk_ok.
Qed.

(** With a splitter that answers on every block, the chunker returns. *)
Lemma create_returns (st : Streamlit) (splitter : TextSplitter)
    (blocks : list Block) :
  (forall b, In b blocks -> exists pieces, splitter (content b) = inr pieces) ->
  forall acc s,
  exists chunks s',
    foldM (fun chunks_with_metadata block =>
             if negb (truthy (strip (content block))) then
               ret chunks_with_metadata
             else
               text_chunks <- split_text splitter (content block) ;;
               ret (chunks_with_metadata
                    ++ map (fun chunk => new_chunk chunk block)
                         (filter (fun chunk => truthy (strip chunk))
                            text_chunks)))
          acc blocks st s = (Return chunks, s').
Proof.
  induction blocks as [|b blocks IH]; intros Hs acc s.
  - now exists acc, s.
  - cbn [foldM]. unfold bind at 1.
    assert (Hs' : forall x, In x blocks ->
                            exists pieces, splitter (content x) = inr pieces)
      by (intros x Hx; apply Hs; now right).
    destruct (negb (truthy (strip (content b)))).
    + unfold ret at 1. now apply IH.
    + destruct (Hs b (or_introl eq_refl)) as [pieces Hp].
      unfold bind at 1, split_text, call. rewrite Hp. unfold ret at 1.
      now apply IH.
Qed.

End Chunker.

(** X14.  With a splitter that answers on the content of every block, the
    chunker returns, and every chunk it returns has a text that is not
    empty and has no white space at its ends, carries no score, and has the
    page number and the heading of one of the blocks. *)
Theorem chunker_chunks_well_formed (st : Streamlit) (s : State)
    (structured_text : list Block) (splitter : TextSplitter) :
  (forall b, In b structured_text ->
             exists pieces, splitter (content b) = inr pieces) ->
  exists chunks s',
    run (create_metadata_chunks structured_text splitter) st s
    = (Return chunks, s')
    /\ Forall (fun c =>
                 text c <> EmptyString
                 /\ PyStr.strip (text c) = text c
                 /\ similarity_score c = None /\ rerank_score c = None
                 /\ exists b,
                      In b structured_text
                      /\ page_number c = block_page_number b
                      /\ heading c = block_heading b) chunks.
Proof.
  intros Hs.
  destruct (Chunker.create_returns st splitter structured_text Hs [] s)
    as (chunks & s' & Hrun).
  exists chunks, s'. split; [exact Hrun|].
  apply (Chunker.create_inv st splitter structured_text structured_text [] s
           chunks s' (incl_refl _) (Forall_nil _) Hrun).
Qed.

(** The theorem at one block and the splitter that gives the text back. *)
Lemma chunker_chunks_well_formed_witness :
  exists chunks,
    fst (run (create_metadata_chunks [mkBlock 1 "1 Intro" "body"]
                Sample.whole_text) Sample.show_all Sample.sample_state)
    = Return chunks
    /\ Forall (fun c => text c <> EmptyString) chunks.
Proof.
  destruct (chunker_chunks_well_formed Sample.show_all Sample.sample_state
              [mkBlock 1 "1 Intro" "body"] Sample.whole_text)
    as (chunks & s' & Hrun & Hc).
  - intros b _. now eexists.
  - exists chunks. rewrite Hrun. split; [reflexivity|].
    eapply Forall_impl; [|exact Hc]. simpl. tauto.
Defined.

Module Pipeline.
Import PyStr.
Local Open Scope py_scope.

(** The number of pages the segmenter returns is that of the document. *)
Lemma extract_pages (st : Streamlit) (s s' : State) (doc : list string)
    (bs : list Block) (n : nat) :
  run (extract_structured_text doc) st s = (Return (bs, n), s') ->
  n = List.length doc.
Proof.
  unfold run, extract_structured_text. destruct doc as [|p0 r0] eqn:Ed.
  - simpl. unfold bind, st_show. destruct (st PdfEmpty); [discriminate|].
    unfold ret. intros H. now injection H as _ <- _.
  - rewrite <- Ed. replace (List.length doc) with (S (List.length r0))
      by (rewrite Ed; reflexivity).
    replace (S (List.length r0)) with (List.length doc) by (rewrite Ed; reflexivity).
    unfold bind at 1, st_show at 1. destruct (st ProgressStart); [discriminate|].
    unfold bind at 1.
    match goal with
    | |- context [foldM ?f ?a ?l st ?s0] =>
        destruct (foldM f a l st s0) as [[[[bs0 hd] total]|e] s1]; [|discriminate]
    end.
    unfold bind at 1, st_show at 1. destruct (st ProgressEmpty); [discriminate|].
    destruct (negb (truthy (strip total))).
    + unfold bind, st_show. destruct (st NoReadableText); [discriminate|].
      unfold ret. intros H. now injection H as _ <- _.
    + destruct bs0.
      * unfold bind, st_show. destruct (st NoStructuredContent); [discriminate|].
        unfold ret. intros H. now injection H as _ <- _.
      * unfold ret. intros H. now injection H as _ <- _.
Qed.

Lemma validate_true (bs : list Block) (cs : list Chunk) (msg : string) :
  validate_pdf_content bs cs = (true, msg) ->
  bs <> [] /\ cs <> [] /\ exists c, In c cs /\ meaningful c = true.
Proof.
  intros H.
  assert (Hb : bs <> []) by (intros ->; discriminate).
  assert (Hc : cs <> []) by (intros ->; destruct bs; discriminate).
  split; [exact Hb|]. split; [exact Hc|].
  apply (Validation.validate_accepts bs cs Hb Hc). now rewrite H.
Qed.

Lemma process_pdf_total (st : Streamlit) (s : State)
    (text_splitter : TextSplitter) (pdf_file : list string) :
  exists status result s',
    run (process_pdf text_splitter pdf_file) st s = (Return (status, result), s')
    /\ match result with
       | Failed _ => status = false
       | Results structured_text chunks total_pages total_chunks _ =>
           status = true
           /\ total_pages = List.length pdf_file
           /\ total_chunks = List.length chunks
           /\ structured_text <> [] /\ chunks <> []
           /\ Forall (chunk_ok structured_text) chunks
           /\ exists c, In c chunks /\ meaningful c = true
       end.
Proof.
  unfold run, process_pdf, try_except, bind at 1.
  destruct (extract_structured_text pdf_file st s) as [[[bs n]|e] s1] eqn:Ex;
    [|now eexists _, _, _].
  apply extract_pages in Ex.
  destruct bs as [|b0 bs0] eqn:Eb; [now eexists _, _, _|].
  destruct n as [|n']; [now eexists _, _, _|].
  rewrite <- Eb. unfold bind at 1.
  destruct (create_metadata_chunks bs text_splitter st s1) as [[cs|e] s2] eqn:Ec;
    [|now eexists _, _, _].
  destruct (validate_pdf_content bs cs) as [[|] msg] eqn:Ev; cbn [negb];
    [|now eexists _, _, _].
  destruct (validate_true bs cs msg Ev) as (Hb & Hc & Hm).
  eexists _, _, _. split; [reflexivity|]. cbv beta iota.
  split; [reflexivity|]. split; [exact Ex|]. split; [reflexivity|].
  split; [exact Hb|]. split; [exact Hc|]. split; [|exact Hm].
  apply (Chunker.create_inv st text_splitter bs bs [] s1 cs s2 (incl_refl _)
           (Forall_nil _) Ec).
Qed.

End Pipeline.

(** X15.  Whatever Streamlit and the splitter do, [process_pdf] returns a
    status and a dict and never raises.  With an error dict the status is
    [False].  With a result dict the status is [True], the number of pages
    is that of the document, the number of chunks is the length of the
    chunk list, the blocks and the chunks are not empty, every chunk has a
    text without white space at its ends and the page number and heading of
    a block, and some chunk has a text of more than 10 characters. *)
Theorem process_pdf_never_raises (st : Streamlit) (s : State)
    (text_splitter : TextSplitter) (pdf_file : list string) :
  exists status result s',
    run (process_pdf text_splitter pdf_file) st s = (Return (status, result), s')
    /\ match result with
       | Failed _ => status = false
       | Results structured_text chunks total_pages total_chunks _ =>
           status = true
           /\ total_pages = List.length pdf_file
           /\ total_chunks = List.length chunks
           /\ structured_text <> [] /\ chunks <> []
           /\ Forall (fun c =>
                        text c <> EmptyString
                        /\ PyStr.strip (text c) = text c
                        /\ exists b,
                             In b structured_text
                             /\ page_number c = block_page_number b
                             /\ heading c = block_heading b) chunks
           /\ exists c,
                In c chunks /\ 10 < String.length (PyStr.strip (text c))
       end.
Proof.
  destruct (Pipeline.process_pdf_total st s text_splitter pdf_file)
    as (status & result & s' & Hrun & Hres).
  exists status, result, s'. split; [exact Hrun|].
  destruct result as [e|bs cs n k msg]; [exact Hres|].
  destruct Hres as (H1 & H2 & H3 & H4 & H5 & H6 & c & Hc & Hm).
  repeat (split; [assumption|]). split.
  - eapply Forall_impl; [|exact H6]. intros x (Ht & Hs & _ & _ & Hb).
    now repeat split.
  - exists c. split; [exact Hc|]. now apply Nat.ltb_lt.
Qed.

Module Rejection.
Import PyStr.
Local Open Scope py_scope.

(** The segmenter talks to Streamlit only. *)
Lemma extract_messages (doc : list string) :
  emits is_message (extract_structured_text doc).
Proof.
  unfold extract_structured_text. destruct (List.length doc).
  - apply Effects.emits_bind; [now apply Effects.emits_st_show|].
    intros _. apply Effects.emits_ret.
  - apply Effects.emits_bind; [now apply Effects.emits_st_show|intros _].
    apply Effects.emits_bind.
    + apply Effects.emits_foldM. intros [[bs hd] total] [i page].
      destruct (scan_page i page bs hd) as [bs' hd'].
      apply Effects.emits_bind; [now apply Effects.emits_st_show|].
      intros _. apply Effects.emits_ret.
    + intros [[bs hd] total].
      apply Effects.emits_bind; [now apply Effects.emits_st_show|intros _].
      destruct (negb (truthy (strip total))).
      * apply Effects.emits_bind; [now apply Effects.emits_st_show|].
        intros _. apply Effects.emits_ret.
      * destruct bs; [|apply Effects.emits_ret].
        apply Effects.emits_bind; [now apply Effects.emits_st_show|].
        intros _. apply Effects.emits_ret.
Qed.

Lemma segment_nonempty (doc : list string) :
  truthy (strip (cat doc)) = true -> fst (segment doc) <> [].
Proof.
  intros T. unfold segment. destruct doc as [|p0 r0] eqn:Ed; [discriminate|].
  rewrite <- Ed in *. generalize (SegmenterFacts.scanned doc).
  destruct (scan_pages (enumerate doc) ([], Config.DEFAULT_HEADING, EmptyString))
    as [[bs hd] total].
  intros (_ & _ & _ & ->). rewrite T. cbn [negb].
  destruct bs; discriminate.
Qed.

Lemma blank_rejected (st : Streamlit) (s : State) (text_splitter : TextSplitter)
    (doc : list string) :
  ui_ok st ->
  truthy (strip (cat doc)) = false ->
  exists s' evs,
    run (process_pdf text_splitter doc) st s
    = (Return (false, Failed "Failed to extract content from PDF"), s')
    /\ trace s' = trace s ++ evs /\ Forall is_message evs.
Proof.
  intros Hok T.
  destruct (Segmenter.extract_run st s doc Hok) as (s1 & Hrun & _).
  destruct (extract_messages doc st s) as (evs & Ht & Hf).
  destruct (Segmented.segment_facts doc) as (_ & _ & _ & _ & Hblank).
  specialize (Hblank T). unfold run in *. rewrite Hrun in Ht. simpl in Ht.
  exists s1, evs. split; [|split; [exact Ht|exact Hf]].
  unfold process_pdf, try_except, bind at 1. rewrite Hrun.
  destruct (segment doc) as [bs k]. simpl in Hblank. subst bs. reflexivity.
Qed.

Lemma splitter_failure (st : Streamlit) (s : State) (text_splitter : TextSplitter)
    (doc : list string) (e : exn) :
  ui_ok st ->
  truthy (strip (cat doc)) = true ->
  (forall t, text_splitter t = inl e) ->
  exists s',
    run (process_pdf text_splitter doc) st s
    = (Return (false, Failed ("PDF processing failed: " ++ e)%string), s').
Proof.
  intros Hok T Hsp.
  destruct (Segmenter.extract_run st s doc Hok) as (s1 & Hrun & _).
  destruct (Segmented.segment_facts doc) as (Hn & Hb & _).
  assert (Hne := segment_nonempty doc T).
  unfold run in *. unfold process_pdf, try_except, bind at 1. rewrite Hrun.
  destruct (segment doc) as [bs k]. simpl in Hn, Hb, Hne. subst k.
  destruct bs as [|b bs]; [congruence|].
  destruct doc as [|p0 r0] eqn:Ed; [discriminate|]. rewrite <- Ed in *.
  replace (List.length doc) with (S (List.length r0)) by (rewrite Ed; reflexivity).
  unfold bind at 1, create_metadata_chunks. cbn [foldM]. unfold bind at 1.
  inversion Hb as [|x l (_ & Hc & Hs) _]. subst x l.
  assert (Hb0 : truthy (strip (content b)) = true)
    by (rewrite Hs; now apply Stripped.truthy_nonempty).
  rewrite Hb0. cbn [negb]. unfold bind at 1, split_text, call. rewrite Hsp.
  eexists. reflexivity.
Qed.

End Rejection.

(** X16.  A document without pages, or whose text is blank, is rejected
    when Streamlit shows the messages: [process_pdf] returns the status
    [False] with the error "Failed to extract content from PDF", and all it
    has done is to show messages; the splitter has not been called. *)
Theorem process_pdf_blank_document (st : Streamlit) (s : State)
    (text_splitter : TextSplitter) (pdf_file : list string) :
  ui_ok st ->
  PyStr.truthy (PyStr.strip (cat pdf_file)) = false ->
  exists s' evs,
    run (process_pdf text_splitter pdf_file) st s
    = (Return (false, Failed "Failed to extract content from PDF"), s')
    /\ trace s' = trace s ++ evs
    /\ Forall (fun ev => match ev with EvSt _ => True | _ => False end) evs.
Proof.
  intros Hok Hblank.
  destruct (Rejection.blank_rejected st s text_splitter pdf_file Hok Hblank)
    as (s' & evs & Hrun & Htrace & Hmsg).
  exists s', evs. split; [exact Hrun|]. split; [exact Htrace|exact Hmsg].
Qed.

(** The theorem at a document of two pages of white space. *)
Lemma process_pdf_blank_document_witness :
  fst (run (process_pdf Sample.whole_text ["  "; PyStr.nl])
         Sample.show_all Sample.sample_state)
  = Return (false, Failed "Failed to extract content from PDF").
Proof.
  destruct (process_pdf_blank_document Sample.show_all Sample.sample_state
              Sample.whole_text ["  "; PyStr.nl]) as (s' & evs & Hrun & _).
  - intros m. reflexivity.
  - reflexivity.
  - rewrite Hrun. reflexivity.
Defined.

(** X17.  When the splitter raises on a document that has text and
    Streamlit shows the messages, [process_pdf] does not raise: it returns
    the status [False] and the error "PDF processing failed: " followed by
    the message of the exception. *)
Theorem process_pdf_splitter_failure (st : Streamlit) (s : State)
    (text_splitter : TextSplitter) (pdf_file : list string) (e : exn) :
  ui_ok st ->
  PyStr.truthy (PyStr.strip (cat pdf_file)) = true ->
  (forall t, text_splitter t = inl e) ->
  exists s',
    run (process_pdf text_splitter pdf_file) st s
    = (Return (false, Failed ("PDF processing failed: " ++ e)%string), s').
Proof.
  intros Hok Htext Hsp.
  destruct (Rejection.splitter_failure st s text_splitter pdf_file e Hok Htext Hsp)
    as (s' & Hrun).
  exists s'. exact Hrun.
Qed.

(** The theorem at a page with text and a splitter that raises. *)
Lemma process_pdf_splitter_failure_witness :
  fst (run (process_pdf (fun _ => inl "no splitter") [Sample.headed_page])
         Sample.show_all Sample.sample_state)
  = Return (false, Failed "PDF processing failed: no splitter").
Proof.
  destruct (process_pdf_splitter_failure Sample.show_all Sample.sample_state
              (fun _ => inl "no splitter") [Sample.headed_page] "no splitter")
    as (s' & Hrun).
  - intros m. reflexivity.
  - reflexivity.
  - intros t. reflexivity.
  - rewrite Hrun. reflexivity.
Defined.

Module Outline.

Lemma list_sum_add {A} (f g : A -> nat) (l : list A) :
  list_sum (map (fun x => f x + g x) l) = list_sum (map f l) + list_sum (map g l).
Proof. induction l as [|x l IH]; simpl; [reflexivity|rewrite IH; lia]. Qed.

Lemma list_sum_zero {A} (f : A -> nat) (l : list A) :
  (forall x, In x l -> f x = 0) -> list_sum (map f l) = 0.
Proof.
  induction l as [|x l IH]; intros H; simpl; [reflexivity|].
  rewrite (H x) by now left. apply IH. intros y Hy. apply H. now right.
Qed.

Lemma one_heading (hs : list string) (x : string) :
  NoDup hs -> In x hs ->
  list_sum (map (fun hd => if String.eqb x hd then 1 else 0) hs) = 1.
Proof.
  induction hs as [|a hs IH]; intros N I; [contradiction|].
  inversion N as [|a' hs' Ha N']; subst a' hs'. simpl.
  destruct (String.eqb_spec x a) as [->|Hne].
  - rewrite list_sum_zero; [reflexivity|].
    intros y Hy. destruct (String.eqb_spec a y) as [->|_]; [contradiction|reflexivity].
  - destruct I as [->|I]; [congruence|]. now rewrite IH.
Qed.

Lemma counts_sum (hs : list string) (chunks : list Chunk) :
  NoDup hs -> (forall c, In c chunks -> In (heading c) hs) ->
  list_sum (map (fun hd =>
                   List.length (filter (fun c => String.eqb (heading c) hd) chunks)) hs)
  = List.length chunks.
Proof.
  intros N. induction chunks as [|c chunks IH]; intros H.
  - apply list_sum_zero. reflexivity.
  - rewrite (map_ext _ (fun hd =>
        (if String.eqb (heading c) hd then 1 else 0)
        + List.length (filter (fun c => String.eqb (heading c) hd) chunks))).
    + rewrite list_sum_add, one_heading, IH; [reflexivity| |exact N|].
      * intros c' Hc'. apply H. now right.
      * apply H. now left.
    + intros hd. simpl. now destruct (String.eqb (heading c) hd).
Qed.

Lemma max_fold (r : list Chunk) (m : Z) :
  let top := fold_left (fun m chunk => Z.max m (page_number chunk)) r m in
  (m <= top)%Z /\ (forall c, In c r -> (page_number c <= top)%Z)
  /\ (top = m \/ exists c, In c r /\ page_number c = top).
Proof.
  revert m. induction r as [|c r IH]; intros m; simpl.
  - split; [lia|]. split; [contradiction|now left].
  - destruct (IH (Z.max m (page_number c))) as (Hm & Hall & Hat).
    split; [lia|]. split.
    + intros c' [<-|Hc']; [lia|now apply Hall].
    + destruct Hat as [Hat|(c' & Hc' & Hat)].
      * destruct (Z.max_spec m (page_number c)) as [[_ E]|[_ E]].
        -- right. exists c. split; [now left|]. now rewrite Hat.
        -- left. now rewrite Hat.
      * right. exists c'. split; [now right|exact Hat].
Qed.

Lemma max_page_bounds (chunks : list Chunk) :
  chunks <> [] ->
  (forall c, In c chunks -> (page_number c <= Structure.max_page chunks)%Z)
  /\ exists c, In c chunks /\ page_number c = Structure.max_page chunks.
Proof.
  destruct chunks as [|c r]; [congruence|intros _].
  unfold Structure.max_page. destruct (max_fold r (page_number c)) as (Hm & Hall & Hat).
  split.
  - intros c' [<-|Hc']; [exact Hm|now apply Hall].
  - destruct Hat as [Hat|(c' & Hc' & Hat)].
    + exists c. split; [now left|now symmetry].
    + exists c'. split; [now right|exact Hat].
Qed.

End Outline.

(** X18.  The outline that [get_document_structure] gives of a non-empty
    chunk list is consistent: the headings are the headings of the chunks,
    each listed once; the page count is the largest page number of a chunk;
    the count kept for each listed heading is at least one, and the counts
    add up to the number of chunks. *)
Theorem document_structure_consistent (chunks : list Chunk) :
  chunks <> [] ->
  let d := get_document_structure chunks in
  NoDup (headings d)
  /\ (forall hd, In hd (headings d) <-> exists c, In c chunks /\ heading c = hd)
  /\ (forall c, In c chunks -> (page_number c <= pages d)%Z)
  /\ (exists c, In c chunks /\ page_number c = pages d)
  /\ structure_total_chunks d = List.length chunks
  /\ exists counts,
       chunks_by_heading d = Some counts
       /\ map fst counts = headings d
       /\ Forall (fun p => 1 <= snd p) counts
       /\ list_sum (map snd counts) = List.length chunks.
Proof.
  intros Hne. destruct (Outline.max_page_bounds chunks Hne) as (Hall & Hat).
  assert (Hin : forall hd, In hd (unique_sorted (map heading chunks))
                           <-> exists c, In c chunks /\ heading c = hd).
  { intros hd. rewrite HeadingOrder.unique_sorted_In, in_map_iff.
    split; intros (c & H1 & H2); exists c; now split. }
  destruct chunks as [|c0 r0] eqn:Ec; [congruence|]. rewrite <- Ec in *.
  replace (get_document_structure chunks) with
    (mkStructure (unique_sorted (map heading chunks)) (Structure.max_page chunks)
       (List.length chunks)
       (Some (map (fun hd =>
                     (hd, List.length
                            (filter (fun c => String.eqb (heading c) hd) chunks)))
                  (unique_sorted (map heading chunks)))))
    by (rewrite Ec; reflexivity).
  cbn [headings pages structure_total_chunks chunks_by_heading].
  split; [apply HeadingOrder.unique_sorted_NoDup|].
  split; [exact Hin|]. split; [exact Hall|]. split; [exact Hat|].
  split; [reflexivity|]. eexists. split; [reflexivity|].
  rewrite !map_map. cbn [fst snd]. split; [apply map_id|]. split.
  - apply Forall_forall. intros p Hp. apply in_map_iff in Hp.
    destruct Hp as (hd & <- & Hhd). apply Hin in Hhd.
    destruct Hhd as (c & Hc & Hh). cbn [snd].
    assert (Hf : In c (filter (fun c => String.eqb (heading c) hd) chunks)).
    { apply filter_In. split; [exact Hc|]. now apply String.eqb_eq. }
    destruct (filter (fun c => String.eqb (heading c) hd) chunks);
      [contradiction|simpl; lia].
  - apply Outline.counts_sum; [apply HeadingOrder.unique_sorted_NoDup|].
    intros c Hc. apply Hin. now exists c.
Qed.

(** The theorem at the three sample chunks. *)
Lemma document_structure_consistent_witness :
  structure_total_chunks
    (get_document_structure [Sample.methods_a; Sample.intro_b; Sample.methods_c]) = 3
  /\ NoDup (headings
      (get_document_structure [Sample.methods_a; Sample.intro_b; Sample.methods_c])).
Proof.
  destruct (document_structure_consistent
              [Sample.methods_a; Sample.intro_b; Sample.methods_c])
    as (Hnd & _ & _ & _ & Htotal & _).
  - discriminate.
  - split; [exact Htotal|exact Hnd].
Defined.

Module TwoSearches.
Local Open Scope py_scope.

(** Both vector searches run this body inside their [try]. *)
Lemma same_body (st : Streamlit) (s : State) (query : string) (index : IndexFlatL2)
    (chunks : list loc) (model : SentenceTransformer) (top_k : Z) :
  exists o s1,
    (forall handler,
       run (try_except
              (query_embedding <- encode model [query] ;;
               r <- index_search index query_embedding top_k ;;
               let '(distances, indices) := r in
               foldM (collect distances chunks) [] (enumerate indices))
              handler) st s
       = match o with
         | Return l => (Return l, s1)
         | Raise e => run (handler e) st s1
         end).
Proof.
  unfold run, try_except.
  destruct ((query_embedding <- encode model [query] ;;
             r <- index_search index query_embedding top_k ;;
             let '(distances, indices) := r in
             foldM (collect distances chunks) [] (enumerate indices)) st s)
    as [o s1] eqn:E.
  exists o, s1. intros handler. destruct o; reflexivity.
Qed.

End TwoSearches.

(** X19.  [search_vector_store] and [semantic_search] do the same work:
    when Streamlit shows the messages, either both return the same chunks
    in the same final state, or both return the empty list after the same
    exception, from the same state, and differ only in the error message
    they show. *)
Theorem search_vector_store_agrees_with_semantic_search (st : Streamlit)
    (s : State) (query : string) (index : IndexFlatL2) (chunks : list loc)
    (model : SentenceTransformer) (top_k : Z) :
  ui_ok st ->
  run (VectorStore.search_vector_store query index chunks model top_k) st s
  = run (semantic_search query index chunks model top_k) st s
  \/ exists e s1,
       run (VectorStore.search_vector_store query index chunks model top_k) st s
       = (Return [], mkState (heap s1) (next s1)
                       (trace s1 ++ [EvSt (VectorStoreSearchError e)]))
       /\ run (semantic_search query index chunks model top_k) st s
          = (Return [], mkState (heap s1) (next s1)
                          (trace s1 ++ [EvSt (SemanticSearchError e)])).
Proof.
  intros Hok.
  destruct (TwoSearches.same_body st s query index chunks model top_k)
    as (o & s1 & Hrun).
  unfold VectorStore.search_vector_store, semantic_search. rewrite !Hrun.
  destruct o as [l|e]; [now left|right].
  exists e, s1. unfold run, bind, st_show. rewrite !Hok. split; reflexivity.
Qed.

(** The theorem at the sample document with an embedding model that
    raises: both searches return the empty list. *)
Lemma search_vector_store_agrees_with_semantic_search_witness :
  fst (run (VectorStore.search_vector_store "q" Sample.short_index
              Sample.sample_chunks Sample.encoder_down 20%Z)
         Sample.show_all Sample.sample_state)
  = fst (run (semantic_search "q" Sample.short_index Sample.sample_chunks
                Sample.encoder_down 20%Z)
           Sample.show_all Sample.sample_state).
Proof.
  destruct (search_vector_store_agrees_with_semantic_search Sample.show_all
              Sample.sample_state "q" Sample.short_index Sample.sample_chunks
              Sample.encoder_down 20%Z) as [E|(e & s1 & E1 & E2)].
  - intros m. reflexivity.
  - now rewrite E.
  - now rewrite E1, E2.
Defined.
